(** * Cache-backed resume analysis pipeline (app.py)

    A shallow embedding of [CacheManager] (fingerprinting, get, set),
    [extract_text_from_pdf], [call_qwen_analysis] and the [analyze] route,
    together with the library functions they rest on: MD5 (RFC 1321) for
    [hashlib.md5], a JSON printer and parser for [json.dumps] and
    [json.loads], and a small model of the Redis commands GET and SETEX. *)

From Stdlib Require Import ZArith List Bool Lia Strings.Byte Ascii String Decimal DecimalZ.
From stdpp Require Import base option list gmap.
Import ListNotations.

Set Default Proof Using "Type".

(** ** Python data *)

(** A Python [str] is a sequence of code points; [bytes] is a sequence of
    bytes. *)
Abbreviation str := (list N).
Abbreviation bytes := (list byte).

(** ASCII literals. *)
Definition lit (s : string) : str :=
  map (fun a : ascii => N_of_ascii a) (list_ascii_of_string s).

(** [s.startswith(p)] *)
Fixpoint starts_with (p s : str) : bool :=
  match p, s with
  | [], _ => true
  | _ :: _, [] => false
  | a :: p', b :: s' => (a =? b)%N && starts_with p' s'
  end.

(** The class of a raised exception. Every class listed here derives from
    [Exception], so both [except Exception] and a bare [except] catch it. *)
Inductive exn_class : Type :=
  | UnicodeEncodeError
  | JSONDecodeError
  | AttributeError
  | TypeError
  | PlainException      (* raise Exception("...") *)
  | RedisError          (* redis.exceptions.* *)
  | RequestError        (* requests.exceptions.*, KeyError, IndexError of the reply *)
  | RecursionError
  | PdfError.           (* anything PyPDF2 raises *)

Record exn : Type := Exn { exn_cls : exn_class; exn_msg : str }.

(** The result of running a piece of Python: a value or a raised exception. *)
Inductive outcome (A : Type) : Type :=
  | Ok (a : A)
  | Raise (e : exn).
Arguments Ok {A} a.
Arguments Raise {A} e.

Definition is_ok {A} (o : outcome A) : bool :=
  match o with Ok _ => true | Raise _ => false end.

(** ** hashlib.md5 (RFC 1321) *)

Module MD5.
Local Open Scope Z_scope.

Definition wrap32 (x : Z) : Z := x mod 4294967296.

Definition rotl32 (x : Z) (c : Z) : Z :=
  Z.lor (wrap32 (Z.shiftl x c)) (Z.shiftr x (32 - c)).

Definition not32 (x : Z) : Z := Z.lxor x 4294967295.

Definition K : list Z :=
  [ 0xd76aa478; 0xe8c7b756; 0x242070db; 0xc1bdceee;
    0xf57c0faf; 0x4787c62a; 0xa8304613; 0xfd469501;
    0x698098d8; 0x8b44f7af; 0xffff5bb1; 0x895cd7be;
    0x6b901122; 0xfd987193; 0xa679438e; 0x49b40821;
    0xf61e2562; 0xc040b340; 0x265e5a51; 0xe9b6c7aa;
    0xd62f105d; 0x02441453; 0xd8a1e681; 0xe7d3fbc8;
    0x21e1cde6; 0xc33707d6; 0xf4d50d87; 0x455a14ed;
    0xa9e3e905; 0xfcefa3f8; 0x676f02d9; 0x8d2a4c8a;
    0xfffa3942; 0x8771f681; 0x6d9d6122; 0xfde5380c;
    0xa4beea44; 0x4bdecfa9; 0xf6bb4b60; 0xbebfbc70;
    0x289b7ec6; 0xeaa127fa; 0xd4ef3085; 0x04881d05;
    0xd9d4d039; 0xe6db99e5; 0x1fa27cf8; 0xc4ac5665;
    0xf4292244; 0x432aff97; 0xab9423a7; 0xfc93a039;
    0x655b59c3; 0x8f0ccc92; 0xffeff47d; 0x85845dd1;
    0x6fa87e4f; 0xfe2ce6e0; 0xa3014314; 0x4e0811a1;
    0xf7537e82; 0xbd3af235; 0x2ad7d2bb; 0xeb86d391 ].

Definition S : list Z :=
  [ 7; 12; 17; 22; 7; 12; 17; 22; 7; 12; 17; 22; 7; 12; 17; 22;
    5;  9; 14; 20; 5;  9; 14; 20; 5;  9; 14; 20; 5;  9; 14; 20;
    4; 11; 16; 23; 4; 11; 16; 23; 4; 11; 16; 23; 4; 11; 16; 23;
    6; 10; 15; 21; 6; 10; 15; 21; 6; 10; 15; 21; 6; 10; 15; 21 ].

Definition byte_val (b : byte) : Z := Z.of_N (Byte.to_N b).

Definition byte_of_Z (z : Z) : byte :=
  match Byte.of_N (Z.to_N (z mod 256)) with
  | Some b => b
  | None => x00
  end.

(** Little-endian encoding of the low [n] bytes of [z]. *)
Fixpoint le_bytes (n : nat) (z : Z) : bytes :=
  match n with
  | O => []
  | Datatypes.S n' => byte_of_Z z :: le_bytes n' (Z.shiftr z 8)
  end.

Fixpoint le_word (bs : bytes) : Z :=
  match bs with
  | [] => 0
  | b :: bs' => byte_val b + 256 * le_word bs'
  end.

(** Padding: a single 1 bit, zeros up to 56 mod 64, then the bit length of
    the message on 64 bits. *)
Definition pad (msg : bytes) : bytes :=
  let len := Z.of_nat (length msg) in
  let zeros := Z.to_nat ((55 - len) mod 64) in
  msg ++ x80 :: repeat x00 zeros ++ le_bytes 8 ((8 * len) mod 18446744073709551616).

Fixpoint words (n : nat) (bs : bytes) : list Z :=
  match n with
  | O => []
  | Datatypes.S n' => le_word (take 4 bs) :: words n' (drop 4 bs)
  end.

Record state : Type := St { sa : Z; sb : Z; sc : Z; sd : Z }.

Definition init : state :=
  St 0x67452301 0xefcdab89 0x98badcfe 0x10325476.

Definition round (M : list Z) (st : state) (i : Z) : state :=
  let '(St a b c d) := st in
  let '(f, g) :=
    if i <? 16 then (Z.lor (Z.land b c) (Z.land (not32 b) d), i)
    else if i <? 32 then (Z.lor (Z.land d b) (Z.land (not32 d) c), (5 * i + 1) mod 16)
    else if i <? 48 then (Z.lxor (Z.lxor b c) d, (3 * i + 5) mod 16)
    else (Z.lxor c (Z.lor b (not32 d)), (7 * i) mod 16) in
  let f' := wrap32 (f + a + nth (Z.to_nat i) K 0 + nth (Z.to_nat g) M 0) in
  St d (wrap32 (b + rotl32 f' (nth (Z.to_nat i) S 0))) b c.

Definition compress (st : state) (chunk : bytes) : state :=
  let M := words 16 chunk in
  let '(St a b c d) := fold_left (round M) (map Z.of_nat (seq 0 64)) st in
  St (wrap32 (sa st + a)) (wrap32 (sb st + b))
     (wrap32 (sc st + c)) (wrap32 (sd st + d)).

Fixpoint chunks (n : nat) (st : state) (bs : bytes) : state :=
  match n with
  | O => st
  | Datatypes.S n' => chunks n' (compress st (take 64 bs)) (drop 64 bs)
  end.

(** [hashlib.md5(msg).digest()] *)
Definition digest (msg : bytes) : bytes :=
  let p := pad msg in
  let '(St a b c d) := chunks (length p / 64)%nat init p in
  le_bytes 4 a ++ le_bytes 4 b ++ le_bytes 4 c ++ le_bytes 4 d.

Definition hex_digit (n : N) : N :=
  (if n <? 10 then 48 + n else 87 + n)%N.

Definition hex_byte (b : byte) : str :=
  let n := Byte.to_N b in [hex_digit (n / 16); hex_digit (n mod 16)].

(** [bytes.hex()] *)
Definition hex (bs : bytes) : str := flat_map hex_byte bs.

(** [hashlib.md5(msg).hexdigest()] *)
Definition hexdigest (msg : bytes) : str := hex (digest msg).

End MD5.

Definition ascii_bytes (s : string) : bytes :=
  map byte_of_ascii (list_ascii_of_string s).


(** ** str.encode('utf-8') *)

Definition byte_of_N (n : N) : byte := MD5.byte_of_Z (Z.of_N n).

(** The UTF-8 encoding of one code point; surrogates (and anything past
    U+10FFFF, which no [str] holds) are refused, as the strict error
    handler does. *)
Definition encode_char (c : N) : option bytes :=
  (if c <? 0x80 then Some [byte_of_N c]
   else if c <? 0x800 then
     Some [byte_of_N (0xC0 + c / 64); byte_of_N (0x80 + c mod 64)]
   else if (0xD800 <=? c) && (c <=? 0xDFFF) then None
   else if c <? 0x10000 then
     Some [byte_of_N (0xE0 + c / 4096); byte_of_N (0x80 + (c / 64) mod 64);
           byte_of_N (0x80 + c mod 64)]
   else if c <? 0x110000 then
     Some [byte_of_N (0xF0 + c / 262144); byte_of_N (0x80 + (c / 4096) mod 64);
           byte_of_N (0x80 + (c / 64) mod 64); byte_of_N (0x80 + c mod 64)]
   else None)%N.

Fixpoint encode_utf8 (s : str) : outcome bytes :=
  match s with
  | [] => Ok []
  | c :: r =>
      match encode_char c with
      | None => Raise (Exn UnicodeEncodeError (lit "surrogates not allowed"))
      | Some bs =>
          match encode_utf8 r with
          | Ok rest => Ok (bs ++ rest)
          | Raise e => Raise e
          end
      end
  end.

(** ** CacheManager.generate_key *)

Definition key_namespace : str := lit "resume:v3:".

Definition generate_key (file_bytes : bytes) (jd_text : str) : outcome str :=
  let content_hash := MD5.hexdigest file_bytes in
  match encode_utf8 jd_text with
  | Raise e => Raise e
  | Ok enc =>
      let jd_hash := MD5.hexdigest enc in
      Ok (key_namespace ++ content_hash ++ lit ":" ++ jd_hash)
  end.

(** ** Python values, as JSON documents *)

Scheme All for list.
Scheme All for prod.

(** The values [json.loads] builds. A [dict] keeps its insertion order and
    has [str] keys. A float is kept as the literal it was read from:
    binary64 arithmetic is outside this model. *)
Inductive json : Type :=
  | JNull
  | JBool (b : bool)
  | JInt (z : Z)
  | JFloat (lexeme : str)
  | JStr (s : str)
  | JList (l : list json)
  | JDict (d : list (str * json)).

(** [sep.join(l)] *)
Fixpoint join (sep : str) (l : list str) : str :=
  match l with
  | [] => []
  | x :: l' =>
      match l' with
      | [] => x
      | _ :: _ => x ++ sep ++ join sep l'
      end
  end.

(** [d[k] = v] on a dict: an existing key keeps its position. *)
Fixpoint dict_set (k : str) (v : json) (d : list (str * json)) : list (str * json) :=
  match d with
  | [] => [(k, v)]
  | (k', v') :: d' =>
      if decide (k = k') then (k', v) :: d' else (k', v') :: dict_set k v d'
  end.

(** [dict(pairs)] *)
Definition dict_of_pairs (pairs : list (str * json)) : list (str * json) :=
  fold_left (fun d kv => dict_set (fst kv) (snd kv) d) pairs [].

(** [bool(float(lexeme))] for the literals the scanner accepts. The digits
    of the mantissa are read as one number [m], with [k] of them after the
    point; what follows the [e] is the exponent. *)
Fixpoint float_digits (s : str) (point : bool) (m k : Z) : Z * Z * str :=
  match s with
  | [] => (m, k, [])
  | c :: r =>
      (if (48 <=? c) && (c <=? 57)
       then float_digits r point (10 * m + Z.of_N (c - 48))%Z
                         (if point then k + 1 else k)%Z
       else if (c =? 46) || (c =? 45) then float_digits r (point || (c =? 46)) m k
       else (m, k, r))%N
  end.

Definition float_exponent (s : str) : Z :=
  let uint := fold_left (fun a c => 10 * a + Z.of_N (c - 48))%Z in
  match s with
  | 45%N :: r => - uint r 0%Z
  | 43%N :: r => uint r 0%Z
  | _ => uint s 0%Z
  end.

(** The literal is NaN or an infinity, or its value [m * 10^(e - k)] does
    not round to zero: it is above [2^-1075], half the least positive
    binary64 number (the tie goes to the even neighbour, zero). *)
Definition float_truthy (lexeme : str) : bool :=
  match lexeme with
  | 78%N :: _ | 73%N :: _ | 45%N :: 73%N :: _ => true
  | _ =>
      let '(m, k, rest) := float_digits lexeme false 0 0 in
      let e := (float_exponent rest - k)%Z in
      if (0 <=? e)%Z then (0 <? m)%Z
      else (10 ^ (- e) <? m * 2 ^ 1075)%Z
  end.

(** [bool(v)] *)
Definition truthy (v : json) : bool :=
  match v with
  | JNull => false
  | JBool b => b
  | JInt z => negb (z =? 0)%Z
  | JFloat lx => float_truthy lx
  | JStr s => negb (bool_decide (s = []))
  | JList l => negb (bool_decide (l = []))
  | JDict d => match d with [] => false | _ :: _ => true end
  end.

(** The values the round trip is stated for: no float, and no key twice in
    a dict (which a Python dict cannot have). *)
Fixpoint representable (v : json) : bool :=
  match v with
  | JFloat _ => false
  | JList l => forallb representable l
  | JDict d =>
      bool_decide (NoDup (map fst d)) && forallb (fun kv => representable (snd kv)) d
  | _ => true
  end.

(** All the strings of a value, keys included, can be encoded as UTF-8. *)
Fixpoint encodable (v : json) : bool :=
  match v with
  | JStr s => is_ok (encode_utf8 s)
  | JFloat lx => is_ok (encode_utf8 lx)
  | JList l => forallb encodable l
  | JDict d => forallb (fun kv => is_ok (encode_utf8 (fst kv)) && encodable (snd kv)) d
  | _ => true
  end.

(** ** json.dumps(v, ensure_ascii=False) *)

Module Json.

Definition escape_char (c : N) : str :=
  (if c =? 34 then [92; 34]
   else if c =? 92 then [92; 92]
   else if c =? 10 then [92; 110]
   else if c =? 13 then [92; 114]
   else if c =? 9 then [92; 116]
   else if c =? 8 then [92; 98]
   else if c =? 12 then [92; 102]
   else if c <? 32 then
     [92; 117; 48; 48; MD5.hex_digit (c / 16); MD5.hex_digit (c mod 16)]
   else [c])%N.

Definition dumps_str (s : str) : str :=
  [34%N] ++ flat_map escape_char s ++ [34%N].

Fixpoint uint_chars (u : uint) : str :=
  (match u with
   | Nil => []
   | D0 u' => 48 :: uint_chars u'
   | D1 u' => 49 :: uint_chars u'
   | D2 u' => 50 :: uint_chars u'
   | D3 u' => 51 :: uint_chars u'
   | D4 u' => 52 :: uint_chars u'
   | D5 u' => 53 :: uint_chars u'
   | D6 u' => 54 :: uint_chars u'
   | D7 u' => 55 :: uint_chars u'
   | D8 u' => 56 :: uint_chars u'
   | D9 u' => 57 :: uint_chars u'
   end)%N.

(** [repr] of an [int] *)
Definition dumps_int (z : Z) : str :=
  match Z.to_int z with
  | Pos u => uint_chars u
  | Neg u => 45%N :: uint_chars u
  end.

Fixpoint dumps (v : json) : str :=
  match v with
  | JNull => lit "null"
  | JBool true => lit "true"
  | JBool false => lit "false"
  | JInt z => dumps_int z
  | JFloat lx => lx
  | JStr s => dumps_str s
  | JList l => [91%N] ++ join (lit ", ") (map dumps l) ++ [93%N]
  | JDict d =>
      [123%N]
      ++ join (lit ", ")
              (map (fun kv => dumps_str (fst kv) ++ lit ": " ++ dumps (snd kv)) d)
      ++ [125%N]
  end.

(** ** json.loads(s) *)

Definition decode_error (m : string) : exn := Exn JSONDecodeError (lit m).

Definition ws (c : N) : bool :=
  ((c =? 32) || (c =? 9) || (c =? 10) || (c =? 13))%N.

Fixpoint skip_ws (s : str) : str :=
  match s with
  | [] => []
  | c :: r => if ws c then skip_ws r else s
  end.

Definition is_digit (c : N) : bool := ((48 <=? c) && (c <=? 57))%N.

Fixpoint span_digits (s : str) : str * str :=
  match s with
  | [] => ([], [])
  | c :: r =>
      if is_digit c then let '(d, r') := span_digits r in (c :: d, r')
      else ([], s)
  end.

(** The number pattern of the scanner: an integer part, then a fraction
    and an exponent where they are complete. *)
Definition match_int (s1 : str) : option (str * str) :=
  match s1 with
  | [] => None
  | c :: r =>
      if (c =? 48)%N then Some ([c], r)
      else if is_digit c then let '(d, r') := span_digits r in Some (c :: d, r')
      else None
  end.

Definition match_frac (s2 : str) : str * str :=
  match s2 with
  | p :: r2 =>
      if (p =? 46)%N then
        match span_digits r2 with
        | ([], _) => ([], s2)
        | (d, r3) => (p :: d, r3)
        end
      else ([], s2)
  | [] => ([], s2)
  end.

Definition match_exp (s3 : str) : str * str :=
  match s3 with
  | e :: r3 =>
      if ((e =? 101) || (e =? 69))%N then
        let '(sg, r4) :=
          match r3 with
          | x :: r4 => if ((x =? 43) || (x =? 45))%N then ([x], r4) else ([], r3)
          | [] => ([], r3)
          end in
        match span_digits r4 with
        | ([], _) => ([], s3)
        | (d, r5) => (e :: sg ++ d, r5)
        end
      else ([], s3)
  | [] => ([], s3)
  end.

Definition match_number (s : str) : option (str * str * str * str) :=
  let '(sign, s1) :=
    match s with
    | c :: r => if (c =? 45)%N then ([c], r) else ([], s)
    | [] => ([], s)
    end in
  match match_int s1 with
  | None => None
  | Some (ds, s2) =>
      let '(frac, s3) := match_frac s2 in
      let '(exp, s4) := match_exp s3 in
      Some (sign ++ ds, frac, exp, s4)
  end.

Definition digit_of_char (c : N) : uint -> uint :=
  (if c =? 48 then D0 else if c =? 49 then D1 else if c =? 50 then D2
   else if c =? 51 then D3 else if c =? 52 then D4 else if c =? 53 then D5
   else if c =? 54 then D6 else if c =? 55 then D7 else if c =? 56 then D8
   else D9)%N.

Fixpoint chars_uint (s : str) : uint :=
  match s with
  | [] => Nil
  | c :: r => digit_of_char c (chars_uint r)
  end.

(** [int(numstr)] on the integer part of a number. *)
Definition int_of_str (numstr : str) : Z :=
  match numstr with
  | c :: ds => if (c =? 45)%N then Z.of_int (Neg (chars_uint ds))
               else Z.of_int (Pos (chars_uint numstr))
  | [] => 0%Z
  end.

Definition parse_number (s : str) : outcome (json * str) :=
  match match_number s with
  | None => Raise (decode_error "Expecting value")
  | Some (integer, frac, exp, rest) =>
      match frac ++ exp with
      | [] => Ok (JInt (int_of_str integer), rest)
      | _ :: _ => Ok (JFloat (integer ++ frac ++ exp), rest)
      end
  end.

Definition hex_val (c : N) : option N :=
  (if (48 <=? c) && (c <=? 57) then Some (c - 48)
   else if (97 <=? c) && (c <=? 102) then Some (c - 87)
   else if (65 <=? c) && (c <=? 70) then Some (c - 55)
   else None)%N.

Definition hex4 (a b c d : N) : option N :=
  match hex_val a, hex_val b, hex_val c, hex_val d with
  | Some a', Some b', Some c', Some d' => Some (((a' * 16 + b') * 16 + c') * 16 + d')%N
  | _, _, _, _ => None
  end.

Definition is_high_surrogate (c : N) : bool := ((0xD800 <=? c) && (c <=? 0xDBFF))%N.
Definition is_low_surrogate (c : N) : bool := ((0xDC00 <=? c) && (c <=? 0xDFFF))%N.
Definition join_surrogates (hi lo : N) : N :=
  (0x10000 + ((hi - 0xD800) * 1024 + (lo - 0xDC00)))%N.

Definition simple_escape (e : N) : option N :=
  (if e =? 34 then Some 34 else if e =? 92 then Some 92
   else if e =? 47 then Some 47 else if e =? 98 then Some 8
   else if e =? 102 then Some 12 else if e =? 110 then Some 10
   else if e =? 114 then Some 13 else if e =? 116 then Some 9
   else None)%N.

Definition push (c : N) (o : outcome (str * str)) : outcome (str * str) :=
  match o with
  | Ok (s, rest) => Ok (c :: s, rest)
  | Raise e => Raise e
  end.

(** The body of a string, read from just after its opening quote (strict
    mode: a raw control character is refused). *)
Fixpoint scanstring (s : str) : outcome (str * str) :=
  match s with
  | [] => Raise (decode_error "Unterminated string starting at")
  | c :: r =>
      if (c =? 34)%N then Ok ([], r)
      else if (c =? 92)%N then
        match r with
        | [] => Raise (decode_error "Unterminated string starting at")
        | e :: r1 =>
            if (e =? 117)%N then
              match r1 with
              | h1 :: h2 :: h3 :: h4 :: ((_ :: _) as r2) =>
                  match hex4 h1 h2 h3 h4 with
                  | None => Raise (decode_error "Invalid \uXXXX escape")
                  | Some u =>
                      if is_high_surrogate u then
                        match r2 with
                        | x :: y :: a :: b :: c' :: d :: ((_ :: _) as r3) =>
                            if (x =? 92)%N && (y =? 117)%N then
                              match hex4 a b c' d with
                              | None => Raise (decode_error "Invalid \uXXXX escape")
                              | Some u2 =>
                                  if is_low_surrogate u2
                                  then push (join_surrogates u u2) (scanstring r3)
                                  else push u (scanstring r2)
                              end
                            else push u (scanstring r2)
                        | _ => push u (scanstring r2)
                        end
                      else push u (scanstring r2)
                  end
              | _ => Raise (decode_error "Invalid \uXXXX escape")
              end
            else
              match simple_escape e with
              | Some c' => push c' (scanstring r1)
              | None => Raise (decode_error "Invalid \escape")
              end
        end
      else if (c <? 32)%N then Raise (decode_error "Invalid control character at")
      else push c (scanstring r)
  end.

(** The constants and the numbers. *)
Definition scan_atom (s : str) : outcome (json * str) :=
  if starts_with (lit "null") s then Ok (JNull, drop 4 s)
  else if starts_with (lit "true") s then Ok (JBool true, drop 4 s)
  else if starts_with (lit "false") s then Ok (JBool false, drop 5 s)
  else if starts_with (lit "NaN") s then Ok (JFloat (lit "NaN"), drop 3 s)
  else if starts_with (lit "Infinity") s then Ok (JFloat (lit "Infinity"), drop 8 s)
  else if starts_with (lit "-Infinity") s then Ok (JFloat (lit "-Infinity"), drop 9 s)
  else parse_number s.

Definition recursion_error : exn :=
  Exn RecursionError (lit "maximum recursion depth exceeded").

(** The scanner. [fuel] bounds the number of nested calls; [loads] gives it
    more than any text can use. *)
Fixpoint scan_once (fuel : nat) (s : str) {struct fuel} : outcome (json * str) :=
  match fuel with
  | O => Raise recursion_error
  | S fuel' =>
      match s with
      | [] => Raise (decode_error "Expecting value")
      | c :: r =>
          if (c =? 34)%N then
            match scanstring r with
            | Ok (k, rest) => Ok (JStr k, rest)
            | Raise e => Raise e
            end
          else if (c =? 123)%N then
            match skip_ws r with
            | c' :: r' =>
                if (c' =? 125)%N then Ok (JDict [], r')
                else
                  match parse_object fuel' (c' :: r') with
                  | Ok (pairs, rest) => Ok (JDict (dict_of_pairs pairs), rest)
                  | Raise e => Raise e
                  end
            | [] => Raise (decode_error "Expecting property name enclosed in double quotes")
            end
          else if (c =? 91)%N then
            match skip_ws r with
            | c' :: r' =>
                if (c' =? 93)%N then Ok (JList [], r')
                else
                  match parse_array fuel' (c' :: r') with
                  | Ok (values, rest) => Ok (JList values, rest)
                  | Raise e => Raise e
                  end
            | [] => Raise (decode_error "Expecting value")
            end
          else scan_atom s
      end
  end

with parse_array (fuel : nat) (s : str) {struct fuel} : outcome (list json * str) :=
  match fuel with
  | O => Raise recursion_error
  | S fuel' =>
      match scan_once fuel' s with
      | Raise e => Raise e
      | Ok (v, rest) =>
          match skip_ws rest with
          | c :: r =>
              if (c =? 93)%N then Ok ([v], r)
              else if (c =? 44)%N then
                match parse_array fuel' (skip_ws r) with
                | Ok (vs, rest') => Ok (v :: vs, rest')
                | Raise e => Raise e
                end
              else Raise (decode_error "Expecting ',' delimiter")
          | [] => Raise (decode_error "Expecting ',' delimiter")
          end
      end
  end

with parse_object (fuel : nat) (s : str) {struct fuel} : outcome (list (str * json) * str) :=
  match fuel with
  | O => Raise recursion_error
  | S fuel' =>
      match s with
      | q :: r0 =>
          if (q =? 34)%N then
            match scanstring r0 with
            | Raise e => Raise e
            | Ok (k, r1) =>
                match skip_ws r1 with
                | c :: r2 =>
                    if (c =? 58)%N then
                      match scan_once fuel' (skip_ws r2) with
                      | Raise e => Raise e
                      | Ok (v, r3) =>
                          match skip_ws r3 with
                          | c' :: r4 =>
                              if (c' =? 125)%N then Ok ([(k, v)], r4)
                              else if (c' =? 44)%N then
                                match parse_object fuel' (skip_ws r4) with
                                | Ok (kvs, rest) => Ok ((k, v) :: kvs, rest)
                                | Raise e => Raise e
                                end
                              else Raise (decode_error "Expecting ',' delimiter")
                          | [] => Raise (decode_error "Expecting ',' delimiter")
                          end
                      end
                    else Raise (decode_error "Expecting ':' delimiter")
                | [] => Raise (decode_error "Expecting ':' delimiter")
                end
            end
          else Raise (decode_error "Expecting property name enclosed in double quotes")
      | [] => Raise (decode_error "Expecting property name enclosed in double quotes")
      end
  end.

Definition loads (s : str) : outcome json :=
  if starts_with [0xFEFF%N] s then
    Raise (decode_error "Unexpected UTF-8 BOM (decode using utf-8-sig)")
  else
    match scan_once (S (2 * length s)) (skip_ws s) with
    | Raise e => Raise e
    | Ok (v, rest) =>
        match skip_ws rest with
        | [] => Ok v
        | _ :: _ => Raise (decode_error "Extra data")
        end
    end.

End Json.

(** ** str helpers *)

(** [c.isspace()] *)
Definition isspace (c : N) : bool :=
  (((9 <=? c) && (c <=? 13)) || ((28 <=? c) && (c <=? 32)) || (c =? 133)
   || (c =? 160) || (c =? 5760) || ((8192 <=? c) && (c <=? 8202))
   || (c =? 8232) || (c =? 8233) || (c =? 8239) || (c =? 8287)
   || (c =? 12288))%N.

Fixpoint lstrip (s : str) : str :=
  match s with
  | [] => []
  | c :: r => if isspace c then lstrip r else s
  end.

Definition rstrip (s : str) : str := rev (lstrip (rev s)).

(** [s.strip()] *)
Definition strip (s : str) : str := rstrip (lstrip s).

(** The first occurrence of [needle] in [s]: what is before it and what is
    after it. *)
Fixpoint find_sub (needle s : str) : option (str * str) :=
  if starts_with needle s then Some ([], drop (length needle) s)
  else
    match s with
    | [] => None
    | c :: r =>
        match find_sub needle r with
        | Some (before, after) => Some (c :: before, after)
        | None => None
        end
    end.

(** [needle in s] *)
Definition contains (needle s : str) : bool :=
  match find_sub needle s with Some _ => true | None => false end.

Definition fence_open : str := lit "```json".
Definition fence_close : str := lit "```".

(** [re.search(r"```json(.*?)```", s, re.DOTALL)], reduced to its group 1:
    the leftmost opening fence, then the shortest text up to a closing one. *)
Definition re_search_fence (s : str) : option str :=
  match find_sub fence_open s with
  | None => None
  | Some (_, after) =>
      match find_sub fence_close after with
      | Some (inner, _) => Some inner
      | None => None
      end
  end.

(** ** The process and its environment *)

Abbreviation loc := nat.

Inductive level : Type := INFO | WARNING | ERROR.

Record log_record : Type := Log { log_level : level; log_msg : str }.

(** The fields of a [CacheManager] object. [redis_client] is a handle on the
    server, whose state is the [redis] field of the world below; the values
    of [local_cache] are references to objects on the heap. *)
Record CacheManager : Type := {
  use_redis : bool;
  local_cache : gmap (list N) loc;
}.

(** Everything a request can read or change. [redis] is the server's
    database (a text and the time it expires at, per key); [net] says, for
    each of the coming Redis commands, whether it raises; [service] holds the
    [content] fields the remote endpoint will reply with, or the exception
    the call ends in; [calls] records the prompts sent and what came back. *)
Record world : Type := World {
  clock : Z;
  redis : gmap (list N) (list N * Z);
  net : list (option exn);
  cache_manager : CacheManager;
  heap : list json;
  log : list log_record;
  service : list (outcome json);
  calls : list (str * outcome json);
}.

Definition set_redis (r : gmap (list N) (list N * Z)) (w : world) : world :=
  World (clock w) r (net w) (cache_manager w) (heap w) (log w) (service w) (calls w).
Definition set_net (n : list (option exn)) (w : world) : world :=
  World (clock w) (redis w) n (cache_manager w) (heap w) (log w) (service w) (calls w).
Definition set_cache_manager (c : CacheManager) (w : world) : world :=
  World (clock w) (redis w) (net w) c (heap w) (log w) (service w) (calls w).
Definition set_heap (h : list json) (w : world) : world :=
  World (clock w) (redis w) (net w) (cache_manager w) h (log w) (service w) (calls w).
Definition set_log (l : list log_record) (w : world) : world :=
  World (clock w) (redis w) (net w) (cache_manager w) (heap w) l (service w) (calls w).
Definition set_service (s : list (outcome json)) (c : list (str * outcome json))
    (w : world) : world :=
  World (clock w) (redis w) (net w) (cache_manager w) (heap w) (log w) s c.

(** Time passing between two operations. *)
Definition elapse (d : Z) (w : world) : world :=
  World (clock w + d) (redis w) (net w) (cache_manager w) (heap w) (log w)
        (service w) (calls w).

(** A computation: it ends in a value or in a raised exception, and leaves
    a world behind in both cases. *)
Definition M (A : Type) : Type := world -> outcome A * world.

Definition ret {A} (a : A) : M A := fun w => (Ok a, w).

Definition bind {A B} (m : M A) (k : A -> M B) : M B :=
  fun w =>
    match m w with
    | (Ok a, w') => k a w'
    | (Raise e, w') => (Raise e, w')
    end.

Definition raise {A} (e : exn) : M A := fun w => (Raise e, w).

Definition lift {A} (o : outcome A) : M A := fun w => (o, w).

(** [try: body / except Exception as e: handler(e)] *)
Definition try_except {A} (body : M A) (handler : exn -> M A) : M A :=
  fun w =>
    match body w with
    | (Ok a, w') => (Ok a, w')
    | (Raise e, w') => handler e w'
    end.

Declare Scope py_scope.
Delimit Scope py_scope with py.
Notation "x <- m ;; k" := (bind m (fun x => k))
  (at level 100, m at next level, right associativity) : py_scope.
Notation "m ;;; k" := (bind m (fun _ => k))
  (at level 100, right associativity) : py_scope.
Local Open Scope py_scope.

Definition logger (lv : level) (msg : str) : M unit :=
  fun w => (Ok tt, set_log (log w ++ [Log lv msg]) w).

(** A fresh object on the heap. *)
Definition new (v : json) : M loc :=
  fun w => (Ok (length (heap w)), set_heap (heap w ++ [v]) w).

(** The object a reference points to. *)
Definition deref (l : loc) (w : world) : json :=
  match heap w !! l with Some v => v | None => JNull end.

(** ** The Redis client (decode_responses=True) *)

(** The next command's turn on the network. *)
Definition transmit : M unit :=
  fun w =>
    match net w with
    | [] => (Ok tt, w)
    | None :: rest => (Ok tt, set_net rest w)
    | Some e :: rest => (Raise e, set_net rest w)
    end.

(** An entry past its deadline is invisible (passive expiry). *)
Definition live (now : Z) (entry : list N * Z) : option str :=
  if (now <? snd entry)%Z then Some (fst entry) else None.

(** [redis_client.get(key)]: the key goes out as UTF-8; the reply comes back
    decoded. *)
Definition redis_get (key : str) : M (option str) :=
  _ <- lift (encode_utf8 key) ;;
  transmit ;;;
  (fun w => (Ok (match redis w !! key with
                 | Some entry => live (clock w) entry
                 | None => None
                 end), w)).

(** [redis_client.setex(key, seconds, value)] *)
Definition redis_setex (key : str) (seconds : Z) (value : str) : M unit :=
  _ <- lift (encode_utf8 key) ;;
  _ <- lift (encode_utf8 value) ;;
  transmit ;;;
  (if (seconds <=? 0)%Z then
     raise (Exn RedisError (lit "invalid expire time in 'setex' command"))
   else
     fun w => (Ok tt, set_redis (<[key := (value, (clock w + seconds)%Z)]> (redis w)) w)).

(** ** CacheManager.get and CacheManager.set *)

Definition get (key : str) : M (option loc) :=
  fun w =>
    if use_redis (cache_manager w) then
      try_except
        (data <- redis_get key ;;
         match data with
         | Some ((_ :: _) as text) =>
             v <- lift (Json.loads text) ;;
             l <- new v ;;
             ret (Some l)
         | _ => ret None
         end)
        (fun _ => ret None) w
    else (Ok (local_cache (cache_manager w) !! key), w).

Definition set (key : str) (data : loc) (expire : Z) : M unit :=
  fun w =>
    if use_redis (cache_manager w) then
      try_except
        (redis_setex key expire (Json.dumps (deref data w)))
        (fun e => logger ERROR (lit "Redis Set Error: " ++ exn_msg e)) w
    else
      (Ok tt,
       set_cache_manager
         {| use_redis := use_redis (cache_manager w);
            local_cache := <[key := data]> (local_cache (cache_manager w)) |} w).

(** What the Cache Store holds under a key: on the local backend the object
    the stored reference points to, on the shared one the live text. *)
Definition local_value (w : world) (key : str) : option json :=
  match local_cache (cache_manager w) !! key with
  | Some l => Some (deref l w)
  | None => None
  end.

Definition shared_value (w : world) (key : str) : option str :=
  match redis w !! key with
  | Some entry => live (clock w) entry
  | None => None
  end.

(** ** The request pipeline *)

Record request : Type := {
  req_id : option str;        (* the x-fc-request-id header *)
  req_file : option bytes;    (* request.files['file'], read *)
  req_jd : option str;        (* request.form['jd'] *)
}.

Record response : Type := { body : json; status : Z }.

(** [jsonify(data)] *)
Definition jsonify (data : loc) : M response :=
  fun w => (Ok {| body := deref data w; status := 200 |}, w).

(** [jsonify({"error": msg}), code] *)
Definition error_response (msg : str) (code : Z) : response :=
  {| body := JDict [(lit "error", JStr msg)]; status := code |}.

(** [obj[key] = v] *)
Definition setitem (obj : loc) (key : str) (v : json) : M unit :=
  fun w =>
    match deref obj w with
    | JDict d => (Ok tt, set_heap (<[obj := JDict (dict_set key v d)]> (heap w)) w)
    | JList _ =>
        (Raise (Exn TypeError (lit "list indices must be integers or slices, not str")), w)
    | _ => (Raise (Exn TypeError (lit "object does not support item assignment")), w)
    end.

(** Step 4 of [analyze] (lines 220 to 225): strip, take the inside of a
    JSON fence when there is one, parse. [raw_result] is whatever the reply
    held as its content; only a [str] has [strip]. *)
Definition normalize (raw_result : json) : outcome json :=
  match raw_result with
  | JStr raw =>
      let json_str := strip raw in
      if contains fence_open json_str then
        match re_search_fence json_str with
        | Some inner => Json.loads inner
        | None =>
            Raise (Exn AttributeError (lit "'NoneType' object has no attribute 'group'"))
        end
      else Json.loads json_str
  | _ => Raise (Exn AttributeError (lit "object has no attribute 'strip'"))
  end.

Section Pipeline.

(** PyPDF2: the pages of a document, each with the result of its
    [extract_text()], or the exception the reader ends in. *)
Variable PdfReader : bytes -> outcome (list (outcome (option str))).

(** Configuration read from the environment. *)
Variable QWEN_API_KEY : str.

(** The fixed text of the prompt around its two slots. *)
Variables prompt_head prompt_mid prompt_tail : str.

(** [[page.extract_text() or "" for page in reader.pages]] *)
Fixpoint page_texts (pages : list (outcome (option str))) : outcome (list str) :=
  match pages with
  | [] => Ok []
  | p :: rest =>
      match p with
      | Raise e => Raise e
      | Ok t =>
          match page_texts rest with
          | Raise e => Raise e
          | Ok ts => Ok (match t with Some ((_ :: _) as s) => s | _ => [] end :: ts)
          end
      end
  end.

Definition extract_text_from_pdf (file_bytes : bytes) : M str :=
  try_except
    (pages <- lift (PdfReader file_bytes) ;;
     texts <- lift (page_texts pages) ;;
     ret (join [10%N] texts))
    (fun e => logger ERROR (lit "PDF Error: " ++ exn_msg e) ;;; ret []).

Definition missing_key_msg : str :=
  [26410; 37197; 32622]%N ++ lit " QWEN_API_KEY".

Definition build_prompt (resume_text jd_text : str) : str :=
  prompt_head ++ take 1000 jd_text ++ prompt_mid ++ take 3000 resume_text ++ prompt_tail.

(** [requests.post(...)] and the path into its JSON reply. *)
Definition post (prompt : str) : M json :=
  fun w =>
    let reply :=
      match service w with
      | [] => Raise (Exn RequestError (lit "Read timed out."))
      | r :: _ => r
      end in
    (reply, set_service (tail (service w)) (calls w ++ [(prompt, reply)]) w).

Definition call_qwen_analysis (resume_text jd_text : str) : M json :=
  match QWEN_API_KEY with
  | [] => raise (Exn PlainException missing_key_msg)
  | _ :: _ =>
      let prompt := build_prompt resume_text jd_text in
      try_except (post prompt)
        (fun e => logger ERROR (lit "LLM Error: " ++ exn_msg e) ;;; raise e)
  end.

Definition empty_pdf_msg : str :=
  lit "PDF" ++ [35299; 26512; 20026; 31354; 65292; 35831; 26816; 26597; 25991; 20214]%N.

Definition cache_hit_msg : str := [9889; 65039]%N ++ lit " Cache Hit".

(** The [except Exception as e] clause of [analyze]. *)
Definition analyze_except (e : exn) : M response :=
  logger ERROR (lit "Error") ;;; ret (error_response (exn_msg e) 500).

(** The part of [analyze] that runs on a cache hit (the end of step 1). *)
Definition analyze_hit (cached_data : loc) : M response :=
  logger INFO cache_hit_msg ;;;
  setitem cached_data (lit "_is_cached") (JBool true) ;;;
  jsonify cached_data.

(** The part of [analyze] that runs on a cache miss (steps 2 to 5). *)
Definition analyze_miss (file_bytes : bytes) (jd cache_key : str) : M response :=
  resume_text <- extract_text_from_pdf file_bytes ;;
  match strip resume_text with
  | [] => ret (error_response empty_pdf_msg 400)
  | _ :: _ =>
      raw_result <- call_qwen_analysis resume_text jd ;;
      final <- lift (normalize raw_result) ;;
      final_data <- new final ;;
      set cache_key final_data 3600 ;;;
      jsonify final_data
  end.

Definition analyze (req : request) : M response :=
  let rid := match req_id req with Some r => r | None => [] end in
  logger INFO (lit "Start Request: " ++ rid) ;;;
  try_except
    (match req_file req with
     | None => ret (error_response (lit "No file uploaded") 400)
     | Some file_bytes =>
         let jd := match req_jd req with Some t => t | None => [] end in
         match file_bytes with
         | [] => ret (error_response (lit "Empty file") 400)
         | _ :: _ =>
             cache_key <- lift (generate_key file_bytes jd) ;;
             cached_data <- get cache_key ;;
             fun w =>
               match cached_data with
               | Some obj =>
                   if truthy (deref obj w) then analyze_hit obj w
                   else analyze_miss file_bytes jd cache_key w
               | None => analyze_miss file_bytes jd cache_key w
               end
         end
     end)
    analyze_except.

End Pipeline.

(** ** Helpers for stating the properties *)

Definition unhex_digit (c : N) : N := (if c <? 58 then c - 48 else c - 87)%N.

Definition unhex_byte (h l : N) : byte :=
  byte_of_N (16 * unhex_digit h + unhex_digit l).

(** [bytes.fromhex(s)] *)
Fixpoint unhex (s : str) : bytes :=
  match s with
  | h :: l :: r => unhex_byte h l :: unhex r
  | _ => []
  end.

(** The number of nested calls the scanner makes on the text of a value. *)
Fixpoint size (v : json) : nat :=
  match v with
  | JList l => S (fold_right (fun x n => S (size x + n)) 0%nat l)
  | JDict d => S (fold_right (fun kv n => S (size (snd kv) + n)) 0%nat d)
  | _ => 1%nat
  end.

(** The characters the text of a value can start with. *)
Definition value_start (c : N) : bool :=
  ((c =? 34) || (c =? 45) || (c =? 91) || (c =? 102) || (c =? 110)
   || (c =? 116) || (c =? 123) || Json.is_digit c)%N.

(** What may follow a number in a text: not a character that would make
    the number longer. *)
Definition number_end (rest : str) : bool :=
  match rest with
  | [] => true
  | c :: _ => negb (Json.is_digit c || (c =? 46) || (c =? 101) || (c =? 69))%N
  end.

(** The scanner reads a value back from its text, whatever follows. *)
Definition scans (v : json) : Prop :=
  representable v = true ->
  forall fuel rest, (size v <= fuel)%nat -> number_end rest = true ->
    Json.scan_once fuel (Json.dumps v ++ rest) = Ok (v, rest).

(** The text of one member of a dict. *)
Definition item (kv : str * json) : str :=
  Json.dumps_str (fst kv) ++ lit ": " ++ Json.dumps (snd kv).

(** The text of a value is long enough to pay for its scan. *)
Definition fits (v : json) : Prop :=
  representable v = true -> (size v <= length (Json.dumps v))%nat.

(** A code point that UTF-8 can carry: a Unicode scalar value. *)
Definition is_scalar (c : N) : bool :=
  ((c <? 0xD800) || ((0xDFFF <? c) && (c <? 0x110000)))%N.

Definition is_hex_digit (c : N) : bool :=
  (((48 <=? c) && (c <=? 57)) || ((97 <=? c) && (c <=? 102)))%N.

(** Two 128-byte messages with the same MD5 digest (Wang and Yu, 2004). *)
Definition collision_a : bytes := unhex (lit
  "d131dd02c5e6eec4693d9a0698aff95c2fcab58712467eab4004583eb8fb7f8955ad340609f4b30283e488832571415a085125e8f7cdc99fd91dbdf280373c5bd8823e3156348f5bae6dacd436c919c6dd53e2b487da03fd02396306d248cda0e99f33420f577ee8ce54b67080a80d1ec69821bcb6a8839396f9652b6ff72a70").

Definition collision_b : bytes := unhex (lit
  "d131dd02c5e6eec4693d9a0698aff95c2fcab50712467eab4004583eb8fb7f8955ad340609f4b30283e4888325f1415a085125e8f7cdc99fd91dbd7280373c5bd8823e3156348f5bae6dacd436c919c6dd53e23487da03fd02396306d248cda0e99f33420f577ee8ce54b67080280d1ec69821bcb6a8839396f965ab6ff72a70").

(** Two 72-character ASCII texts with the same MD5 digest (Stevens, 2024). *)
Definition text_collision_a : str :=
  lit "TEXTCOLLBYfGiJUETHQ4hAcKSMd5zYpgqf1YRDhkmxHkhPWptrkoyz28wnI9V0aHeAuaKnak".

Definition text_collision_b : str :=
  lit "TEXTCOLLBYfGiJUETHQ4hEcKSMd5zYpgqf1YRDhkmxHkhPWptrkoyz28wnI9V0aHeAuaKnak".

(** Two worlds that differ at most in the state of the network. *)
Definition same_but_net (w w' : world) : Prop :=
  clock w' = clock w /\ redis w' = redis w /\ cache_manager w' = cache_manager w
  /\ heap w' = heap w /\ log w' = log w /\ service w' = service w
  /\ calls w' = calls w.

(** The Cache Store is untouched between two worlds: same clock, same
    shared database, same local mapping, and every object that existed is
    still what it was (the heap has only grown). *)
Definition cache_untouched (w w' : world) : Prop :=
  clock w' = clock w /\ redis w' = redis w /\ cache_manager w' = cache_manager w
  /\ exists more, heap w' = heap w ++ more.

(** No reference of the local mapping dangles. *)
Definition refs_valid (w : world) : Prop :=
  map_Forall (fun _ l => (l < length (heap w))%nat) (local_cache (cache_manager w)).

(** The next [n] Redis commands go through. *)
Definition reachable (n : nat) (w : world) : bool :=
  forallb (fun f => match f with None => true | Some _ => false end) (take n (net w)).


(** A text UTF-8 can encode. *)
Definition enc_ok (s : str) : bool := is_ok (encode_utf8 s).

(** A world with nothing in it, on the local or on the shared backend. *)
Definition empty_world (shared : bool) : world :=
  World 0 ∅ [] {| use_redis := shared; local_cache := ∅ |} [] [] [] [].

(** The same with a network on which the coming commands raise or not. *)
Definition shared_world (faults : list (option exn)) (objects : list json) : world :=
  World 0 ∅ faults {| use_redis := true; local_cache := ∅ |} objects [] [] [].

Definition connection_error : exn :=
  Exn RedisError (lit "Error 111 connecting to localhost:6379. Connection refused.").


(** [{"a": 1}] *)
Definition sample_result : json := JDict [(lit "a", JInt 1)].


(** A reader for the examples. The theorems hold for every reader; this
    one fixes the outcome for the uploads the examples use: an upload that
    starts as a PDF is read as three pages, the second one without text
    (its few bytes stand for a whole document, which they are not: PyPDF2
    would refuse them as they are); anything else is refused. *)
Definition sample_reader (file_bytes : bytes) : outcome (list (outcome (option str))) :=
  match file_bytes with
  | "%"%byte :: "P"%byte :: "D"%byte :: "F"%byte :: _ =>
      Ok [Ok (Some (lit "Jane Doe")); Ok None; Ok (Some (lit "Python, Go"))]
  | _ => Raise (Exn PdfError (lit "EOF marker not found"))
  end.


(** A reader whose document has three pages, the second of which cannot
    be read. *)
Definition torn_reader (file_bytes : bytes) : outcome (list (outcome (option str))) :=
  Ok [Ok (Some (lit "Jane Doe")); Raise (Exn PdfError (lit "Unsupported filter"));
      Ok (Some (lit "Python, Go"))].

(** [n] occurs in [s]. *)
Definition occurs (n s : str) : Prop := exists b a, s = b ++ n ++ a.

(** [b] and [a] are what is before and after the leftmost occurrence of [n]
    in [s]. *)
Definition first_split (n s b a : str) : Prop :=
  s = b ++ n ++ a /\ forall b' a', s = b' ++ n ++ a' -> (length b <= length b')%nat.

Definition dq : str := [34%N].

(** The model output [```json\n{"a":1}\n```]. *)
Definition fenced_output : str :=
  lit "```json" ++ [10%N] ++ lit "{" ++ dq ++ lit "a" ++ dq ++ lit ":1}" ++ [10%N]
  ++ lit "```".

(** The model output [{"a":1}]. *)
Definition bare_output : str := lit "{" ++ dq ++ lit "a" ++ dq ++ lit ":1}".

(** The model output [{"a": "```json"}]: a JSON document, one of whose
    strings holds the opening marker; there is no fenced block in it. *)
Definition marker_in_string_output : str :=
  lit "{" ++ dq ++ lit "a" ++ dq ++ lit ": " ++ dq ++ lit "```json" ++ dq ++ lit "}".


(** An error reply: [{"error": msg}]. *)
Definition is_error (resp : response) : Prop :=
  exists msg, body resp = JDict [(lit "error", JStr msg)].


(** A request, a configuration and worlds for the examples. *)
Definition sample_request : request :=
  {| req_id := Some (lit "req-1");
     req_file := Some (ascii_bytes "%PDF-1.4");
     req_jd := Some (lit "python") |}.

Definition sample_key : str :=
  match generate_key (ascii_bytes "%PDF-1.4") (lit "python") with
  | Ok k => k
  | Raise _ => []
  end.

Definition sample_run : request -> M response :=
  analyze sample_reader (lit "sk-test")
          (lit "Compare. JD: ") (lit " Resume: ") (lit " Answer in JSON.").

Definition sample_prompt : str :=
  build_prompt (lit "Compare. JD: ") (lit " Resume: ") (lit " Answer in JSON.")
               (lit "Jane Doe" ++ [10%N; 10%N] ++ lit "Python, Go") (lit "python").

Definition timeout_error : exn := Exn RequestError (lit "Read timed out.").

(** A process that has served nothing yet, with the replies the remote
    endpoint will give. *)
Definition service_world (shared : bool) (replies : list (outcome json)) : world :=
  World 0 ∅ [] {| use_redis := shared; local_cache := ∅ |} [] [] replies [].






(** ** CacheManager.__init__ *)

(** [redis_client.ping()] *)
Definition redis_ping : M unit := transmit.

Definition redis_connected_msg : str :=
  [9989%N] ++ lit " Redis " ++ [36830; 25509; 25104; 21151]%N.

Definition redis_failed_msg (e : exn) : str :=
  [9888; 65039]%N ++ lit " Redis " ++ [36830; 25509; 22833; 36133]%N ++ lit ": "
  ++ exn_msg e ++ [65292; 38477; 32423; 20026; 20869; 23384; 32531; 23384]%N.

Definition memory_cache_msg : str :=
  [8505; 65039; 32; 20351; 29992; 20869; 23384; 32531; 23384]%N.

(** The constructor, run once when the module is loaded. [HAS_REDIS_LIB]
    says whether [import redis] worked; [REDIS_HOST] is what
    [os.getenv("REDIS_HOST")] gave. Building the client connects to
    nothing; the probe is the ping. *)
Definition CacheManager_init (HAS_REDIS_LIB : bool) (REDIS_HOST : option str) : M unit :=
  fun w =>
    let w0 := set_cache_manager {| use_redis := false; local_cache := ∅ |} w in
    if HAS_REDIS_LIB && match REDIS_HOST with Some (_ :: _) => true | _ => false end
    then
      try_except
        (redis_ping ;;;
         (fun w1 =>
            (Ok tt,
             set_cache_manager
               {| use_redis := true;
                  local_cache := local_cache (cache_manager w1) |} w1)) ;;;
         logger INFO redis_connected_msg)
        (fun e => logger WARNING (redis_failed_msg e)) w0
    else logger INFO memory_cache_msg w0.

(** ** Further notions for the properties *)

(** The world a request runs in once its first log line is written. *)
Definition started (req : request) (w : world) : world :=
  set_log (log w ++ [Log INFO (lit "Start Request: "
                                ++ match req_id req with Some r => r | None => [] end)]) w.

(** The job description of a request: [request.form.get('jd', '')]. *)
Definition jd_of (req : request) : str :=
  match req_jd req with Some t => t | None => [] end.

(** The backend choice is kept between two worlds, and on the local
    backend nothing of the shared one has moved. *)
Definition backend_kept (w w' : world) : Prop :=
  use_redis (cache_manager w') = use_redis (cache_manager w)
  /\ (use_redis (cache_manager w) = false ->
      redis w' = redis w /\ net w' = net w /\ clock w' = clock w).

(** The Cache Store holds the value [v] under [key], and a lookup can
    fetch it. *)
Definition stored (w : world) (key : str) (v : json) : Prop :=
  (use_redis (cache_manager w) = false
   /\ exists obj, local_cache (cache_manager w) !! key = Some obj
                  /\ heap w !! obj = Some v)
  \/ (use_redis (cache_manager w) = true
      /\ reachable 1 w = true
      /\ exists text, shared_value w key = Some text /\ text <> []
                      /\ Json.loads text = Ok v).

(** A value that is a dict. *)
Definition is_dict (v : json) : bool :=
  match v with JDict _ => true | _ => false end.

(** A world on the local backend whose mapping holds [v] under the key of
    the sample request. *)
Definition local_world_with (v : json) (replies : list (outcome json)) : world :=
  World 0 ∅ [] {| use_redis := false; local_cache := {[ sample_key := 0%nat ]} |}
        [v] [] replies [].


(** Nothing but the log has moved between two worlds. *)
Definition logged (w w' : world) : Prop := exists l, w' = set_log (log w ++ l) w.

(** Nothing live is stored under [key] on the backend in use. *)
Definition absent (w : world) (key : str) : Prop :=
  if use_redis (cache_manager w) then shared_value w key = None
  else local_cache (cache_manager w) !! key = None.

(** The text of a document: the page texts joined by newlines, nothing when
    the reader or a page raises. *)
Definition extracted (PdfReader : bytes -> outcome (list (outcome (option str))))
    (file_bytes : bytes) : str :=
  match PdfReader file_bytes with
  | Ok pages =>
      match page_texts pages with
      | Ok texts => join [10%N] texts
      | Raise _ => []
      end
  | Raise _ => []
  end.

(** The reply the remote endpoint gives next; a silent endpoint times out. *)
Definition next_reply (w : world) : outcome json :=
  match service w with
  | [] => Raise (Exn RequestError (lit "Read timed out."))
  | r :: _ => r
  end.

(** More requests for the examples: one without upload, one whose job
    description holds a lone surrogate, one whose upload is no PDF. *)
Definition no_file_request : request :=
  {| req_id := None; req_file := None; req_jd := Some (lit "python") |}.

Definition surrogate_request : request :=
  {| req_id := None; req_file := Some (ascii_bytes "%PDF-1.4");
     req_jd := Some [0xD800%N] |}.

Definition broken_request : request :=
  {| req_id := None; req_file := Some (ascii_bytes "hello"); req_jd := None |}.

(** The model output [[1]]. *)
Definition list_output : str := lit "[1]".


(** * Properties *)

(** Proof steps used throughout. *)

Ltac ncases :=
  repeat match goal with
         | |- context [N.eqb ?a ?b] => destruct (N.eqb_spec a b)
         | |- context [N.ltb ?a ?b] => destruct (N.ltb_spec a b)
         | |- context [N.leb ?a ?b] => destruct (N.leb_spec a b)
         end.

Ltac eqb_false :=
  repeat match goal with
         | |- context [N.eqb ?a ?b] =>
             replace (N.eqb a b) with false by (symmetry; apply N.eqb_neq; lia)
         end.

Ltac untouched :=
  repeat split; exists []; cbn [heap set_log set_service set_net]; now rewrite app_nil_r.

Ltac wsimpl :=
  cbn [clock redis net cache_manager heap log service calls set_redis set_net
       set_cache_manager set_heap set_log set_service elapse use_redis
       local_cache fst snd body status logger ret raise lift] in *.


Example md5_empty : MD5.hexdigest [] = lit "d41d8cd98f00b204e9800998ecf8427e".
Proof. vm_compute. reflexivity. Qed.

Example md5_abc : MD5.hexdigest (ascii_bytes "abc") = lit "900150983cd24fb0d6963f7d28e17f72".
Proof. vm_compute. reflexivity. Qed.

Example md5_long :
  MD5.hexdigest (ascii_bytes "12345678901234567890123456789012345678901234567890123456789012345678901234567890")
  = lit "57edf4a22be3c955ac49da2e2107b67a".
Proof. vm_compute. reflexivity. Qed.

(** ** Fingerprints *)

Section Fingerprint.

Lemma unhex_hex_byte (b : byte) (r : str) :
  unhex (MD5.hex_byte b ++ r) = b :: unhex r.
Proof. destruct b; reflexivity. Qed.

Lemma unhex_hex (bs : bytes) : unhex (MD5.hex bs) = bs.
Proof.
  induction bs as [|b bs IH]; [reflexivity|].
  unfold MD5.hex in *. cbn [flat_map].
  rewrite unhex_hex_byte. now rewrite IH.
Qed.

Lemma hex_inj (a b : bytes) : MD5.hex a = MD5.hex b -> a = b.
Proof.
  intros H. rewrite <- (unhex_hex a), <- (unhex_hex b). now rewrite H.
Qed.

Lemma hex_length (bs : bytes) : length (MD5.hex bs) = (2 * length bs)%nat.
Proof.
  induction bs as [|b bs IH]; [reflexivity|].
  unfold MD5.hex in *. cbn [flat_map]. rewrite length_app, IH. cbn. lia.
Qed.

Lemma hex_digit_is_hex (n : N) : (n < 16)%N -> is_hex_digit (MD5.hex_digit n) = true.
Proof.
  intros H. unfold is_hex_digit, MD5.hex_digit.
  destruct (N.ltb_spec n 10).
  - replace (48 <=? 48 + n)%N with true by (symmetry; apply N.leb_le; lia).
    replace (48 + n <=? 57)%N with true by (symmetry; apply N.leb_le; lia).
    reflexivity.
  - replace (97 <=? 87 + n)%N with true by (symmetry; apply N.leb_le; lia).
    replace (87 + n <=? 102)%N with true by (symmetry; apply N.leb_le; lia).
    apply orb_true_r.
Qed.

Lemma hex_is_hex (bs : bytes) : Forall (fun c => is_hex_digit c = true) (MD5.hex bs).
Proof.
  induction bs as [|b bs IH]; [constructor|].
  unfold MD5.hex in *. cbn [flat_map]. apply Forall_app. split; [|exact IH].
  unfold MD5.hex_byte.
  assert (Hb : (Byte.to_N b < 256)%N) by (pose proof (Byte.to_N_bounded b); lia).
  repeat constructor; apply hex_digit_is_hex.
  - apply N.Div0.div_lt_upper_bound. lia.
  - apply N.mod_lt. lia.
Qed.

Lemma digest_length (msg : bytes) : length (MD5.digest msg) = 16%nat.
Proof.
  unfold MD5.digest.
  destruct (MD5.chunks _ _ _) as [a b c d]. reflexivity.
Qed.

Lemma hexdigest_length (msg : bytes) : length (MD5.hexdigest msg) = 32%nat.
Proof. unfold MD5.hexdigest. now rewrite hex_length, digest_length. Qed.

Lemma hexdigest_eq_iff (a b : bytes) :
  MD5.hexdigest a = MD5.hexdigest b <-> MD5.digest a = MD5.digest b.
Proof.
  unfold MD5.hexdigest. split; [apply hex_inj | now intros ->].
Qed.

Lemma encode_char_scalar (c : N) : is_scalar c = true -> exists bs, encode_char c = Some bs.
Proof.
  unfold is_scalar, encode_char.
  repeat match goal with
         | |- context [N.ltb ?a ?b] => destruct (N.ltb_spec a b)
         | |- context [N.leb ?a ?b] => destruct (N.leb_spec a b)
         end; cbn; intros Hs; try discriminate Hs; eauto; lia.
Qed.

Lemma encode_utf8_scalar (t : str) :
  forallb is_scalar t = true -> exists e, encode_utf8 t = Ok e.
Proof.
  induction t as [|c t IH]; [now exists []|].
  cbn [forallb]. intros H. apply andb_true_iff in H as [Hc Ht].
  destruct (encode_char_scalar c Hc) as [bs Hbs].
  destruct (IH Ht) as [e He].
  cbn. rewrite Hbs, He. eauto.
Qed.

(** C1, as the code has it: equal inputs give equal keys, and two keys are
    equal exactly when both MD5 digests are, which distinct inputs can
    achieve. *)
Theorem generate_key_eq_iff_digests (B1 B2 : bytes) (T1 T2 : str) (E1 E2 : bytes) :
  encode_utf8 T1 = Ok E1 ->
  encode_utf8 T2 = Ok E2 ->
  (B1 = B2 /\ T1 = T2 -> generate_key B1 T1 = generate_key B2 T2)
  /\ (generate_key B1 T1 = generate_key B2 T2
      <-> MD5.digest B1 = MD5.digest B2 /\ MD5.digest E1 = MD5.digest E2).
Proof.
  intros H1 H2. split; [now intros [-> ->]|].
  unfold generate_key. rewrite H1, H2. split.
  - intros H. injection H as H.
    apply app_inj_1 in H; [|now rewrite !hexdigest_length].
    destruct H as [Ha Hb]. injection Hb as Hb.
    now rewrite <- !hexdigest_eq_iff.
  - intros [Ha Hb]. apply hexdigest_eq_iff in Ha, Hb. now rewrite Ha, Hb.
Qed.

Lemma generate_key_eq_iff_digests_witness :
  (collision_a = collision_b /\ lit "python" = lit "python" ->
   generate_key collision_a (lit "python") = generate_key collision_b (lit "python"))
  /\ (generate_key collision_a (lit "python") = generate_key collision_b (lit "python")
      <-> MD5.digest collision_a = MD5.digest collision_b
          /\ MD5.digest (ascii_bytes "python") = MD5.digest (ascii_bytes "python")).
Proof.
  apply (generate_key_eq_iff_digests collision_a collision_b (lit "python") (lit "python")
           (ascii_bytes "python") (ascii_bytes "python")); reflexivity.
Defined.

(** C1 fails as stated: two different documents with the same job
    description get the same key. *)
Lemma generate_key_not_injective :
  ~ (generate_key collision_a (lit "python") = generate_key collision_b (lit "python")
     <-> collision_a = collision_b /\ lit "python" = lit "python").
Proof.
  intros [H _].
  assert (Hk : generate_key collision_a (lit "python")
               = generate_key collision_b (lit "python")) by (vm_compute; reflexivity).
  destruct (H Hk) as [Hab _]. vm_compute in Hab. discriminate Hab.
Qed.

(** C3, as the code has it: on every document and every text of scalar
    values the key is the tag, then the MD5 digest of the document in 32
    lowercase hexadecimal digits, a colon, and the MD5 digest of the UTF-8
    encoding of the text in the same form. *)
Theorem generate_key_format (file_bytes : bytes) (jd_text : str) :
  forallb is_scalar jd_text = true ->
  exists enc,
    encode_utf8 jd_text = Ok enc
    /\ generate_key file_bytes jd_text
       = Ok (lit "resume:v3:" ++ MD5.hex (MD5.digest file_bytes)
             ++ lit ":" ++ MD5.hex (MD5.digest enc))
    /\ length (MD5.digest file_bytes) = 16%nat
    /\ length (MD5.digest enc) = 16%nat
    /\ Forall (fun c => is_hex_digit c = true) (MD5.hex (MD5.digest file_bytes))
    /\ Forall (fun c => is_hex_digit c = true) (MD5.hex (MD5.digest enc)).
Proof.
  intros Hs. destruct (encode_utf8_scalar jd_text Hs) as [enc He].
  exists enc. split; [exact He|]. split.
  - unfold generate_key. now rewrite He.
  - repeat split; auto using digest_length, hex_is_hex.
Qed.

Lemma generate_key_format_witness :
  exists enc,
    encode_utf8 text_collision_a = Ok enc
    /\ generate_key collision_a text_collision_a
       = Ok (lit "resume:v3:" ++ MD5.hex (MD5.digest collision_a)
             ++ lit ":" ++ MD5.hex (MD5.digest enc))
    /\ length (MD5.digest collision_a) = 16%nat
    /\ length (MD5.digest enc) = 16%nat
    /\ Forall (fun c => is_hex_digit c = true) (MD5.hex (MD5.digest collision_a))
    /\ Forall (fun c => is_hex_digit c = true) (MD5.hex (MD5.digest enc)).
Proof.
  apply (generate_key_format collision_a text_collision_a).
  vm_compute. reflexivity.
Defined.

(** C3 fails as stated: the digest is not collision resistant. Two
    different texts have the same second digest, hence the same key. *)
Lemma digest_not_collision_resistant :
  exists ea eb,
    encode_utf8 text_collision_a = Ok ea /\ encode_utf8 text_collision_b = Ok eb
    /\ ea <> eb
    /\ MD5.hexdigest ea = MD5.hexdigest eb
    /\ generate_key [] text_collision_a = generate_key [] text_collision_b.
Proof.
  exists (ascii_bytes "TEXTCOLLBYfGiJUETHQ4hAcKSMd5zYpgqf1YRDhkmxHkhPWptrkoyz28wnI9V0aHeAuaKnak"),
         (ascii_bytes "TEXTCOLLBYfGiJUETHQ4hEcKSMd5zYpgqf1YRDhkmxHkhPWptrkoyz28wnI9V0aHeAuaKnak").
  split; [vm_compute; reflexivity|]. split; [vm_compute; reflexivity|].
  split; [intros H; vm_compute in H; discriminate H|].
  split; vm_compute; reflexivity.
Qed.

End Fingerprint.

(** ** json.loads after json.dumps *)

Section JsonRoundTrip.
Import Json.

Lemma is_digit_range (c : N) : is_digit c = true -> (48 <= c <= 57)%N.
Proof.
  unfold is_digit. intros H. apply andb_true_iff in H as [H1 H2].
  apply N.leb_le in H1, H2. lia.
Qed.

(** *** Strings *)

Lemma below_32 (P : N -> Prop) :
  (forall i : nat, (i < 32)%nat -> P (N.of_nat i)) -> forall c, (c < 32)%N -> P c.
Proof.
  intros H c Hc. rewrite <- (N2Nat.id c). apply H. lia.
Qed.

Lemma scanstring_raw (c : N) (r : str) :
  (c =? 34)%N = false -> (c =? 92)%N = false -> (c <? 32)%N = false ->
  scanstring (c :: r) = push c (scanstring r).
Proof. intros H1 H2 H3. simpl. now rewrite H1, H2, H3. Qed.

Lemma scanstring_escape_char (c n : N) (r : str) :
  scanstring (escape_char c ++ n :: r) = push c (scanstring (n :: r)).
Proof.
  destruct (N.ltb_spec c 32%N) as [Hlt|Hge].
  - revert n r. pattern c. apply below_32; [|exact Hlt].
    intros i Hi n r.
    do 32 (destruct i as [|i]; [reflexivity|]). lia.
  - destruct (N.eq_dec c 34%N) as [->|H34]; [reflexivity|].
    destruct (N.eq_dec c 92%N) as [->|H92]; [reflexivity|].
    assert (He : escape_char c = [c]).
    { unfold escape_char. ncases; try lia. reflexivity. }
    rewrite He. cbn [app]. apply scanstring_raw.
    + now apply N.eqb_neq.
    + now apply N.eqb_neq.
    + now apply N.ltb_ge.
Qed.

Lemma scanstring_escaped (s rest : str) :
  scanstring (flat_map escape_char s ++ 34%N :: rest) = Ok (s, rest).
Proof.
  induction s as [|c s IH]; [reflexivity|].
  cbn [flat_map]. rewrite <- app_assoc.
  destruct (flat_map escape_char s ++ 34%N :: rest) as [|n r] eqn:E.
  - destruct (flat_map escape_char s); discriminate E.
  - rewrite scanstring_escape_char, IH. reflexivity.
Qed.

(** *** Integers *)

Lemma chars_uint_chars (u : uint) : chars_uint (uint_chars u) = u.
Proof. induction u; cbn [uint_chars chars_uint]; rewrite ?IHu; reflexivity. Qed.

Lemma span_digits_end (rest : str) : number_end rest = true -> span_digits rest = ([], rest).
Proof.
  destruct rest as [|c r]; [reflexivity|]. cbn.
  destruct (is_digit c); [discriminate|reflexivity].
Qed.

Lemma span_digits_uint (u : uint) (rest : str) :
  number_end rest = true ->
  span_digits (uint_chars u ++ rest) = (uint_chars u, rest).
Proof.
  intros H. induction u; cbn [uint_chars app];
    [now apply span_digits_end | ..];
    cbn [span_digits]; rewrite IHu; reflexivity.
Qed.

Lemma match_frac_end (rest : str) : number_end rest = true -> match_frac rest = ([], rest).
Proof.
  destruct rest as [|c r]; [reflexivity|]. cbn.
  destruct (c =? 46)%N; [|reflexivity].
  rewrite orb_true_r. discriminate.
Qed.

Lemma match_exp_end (rest : str) : number_end rest = true -> match_exp rest = ([], rest).
Proof.
  destruct rest as [|c r]; [reflexivity|]. cbn.
  destruct (c =? 101)%N, (c =? 69)%N; cbn; rewrite ?orb_true_r; try discriminate.
  reflexivity.
Qed.

Lemma to_uint_head (p : positive) :
  exists c r, uint_chars (Pos.to_uint p) = c :: r
              /\ is_digit c = true /\ (c =? 48)%N = false.
Proof.
  pose proof (DecimalPos.Unsigned.to_uint_nonnil p) as Hnil.
  pose proof (DecimalPos.Unsigned.to_of (Pos.to_uint p)) as Hn.
  rewrite DecimalPos.Unsigned.of_to in Hn. cbn in Hn.
  destruct (Pos.to_uint p) as [|u|u|u|u|u|u|u|u|u|u] eqn:E;
    [congruence | | eauto 10 ..].
  exfalso. unfold unorm in Hn. cbn [nzhead] in Hn.
  destruct (nzhead u) eqn:En.
  - apply (DecimalPos.Unsigned.to_uint_nonzero p). rewrite E. congruence.
  - apply (DecimalFacts.nzhead_nonzero u u). congruence.
  - congruence.
  - congruence.
  - congruence.
  - congruence.
  - congruence.
  - congruence.
  - congruence.
  - congruence.
  - congruence.
Qed.

Lemma match_int_uint (p : positive) (rest : str) :
  number_end rest = true ->
  match_int (uint_chars (Pos.to_uint p) ++ rest)
  = Some (uint_chars (Pos.to_uint p), rest).
Proof.
  intros H.
  destruct (to_uint_head p) as (c & r & E & Hd & H0).
  assert (Hr : span_digits (r ++ rest) = (r, rest)).
  { pose proof (span_digits_uint (Pos.to_uint p) rest H) as Hs.
    rewrite E in Hs. cbn in Hs. rewrite Hd in Hs.
    destruct (span_digits (r ++ rest)). congruence. }
  rewrite E. cbn. rewrite H0, Hd, Hr. reflexivity.
Qed.

Lemma match_number_int (z : Z) (rest : str) :
  number_end rest = true ->
  match_number (dumps_int z ++ rest) = Some (dumps_int z, [], [], rest).
Proof.
  intros H. unfold match_number, dumps_int.
  destruct z as [|p|p]; cbn [Z.to_int].
  - cbn. now rewrite match_frac_end, match_exp_end.
  - destruct (to_uint_head p) as (c & r & E & Hd & H0).
    pose proof (match_int_uint p rest H) as Hm. rewrite E in *.
    cbn [app].
    assert (H45 : (c =? 45)%N = false).
    { unfold is_digit in Hd. revert Hd. ncases; try lia; cbn; congruence. }
    rewrite H45. cbn [app] in Hm. rewrite Hm.
    now rewrite match_frac_end, match_exp_end.
  - cbn [app]. change (45 =? 45)%N with true. cbv iota beta.
    rewrite match_int_uint by exact H.
    now rewrite match_frac_end, match_exp_end.
Qed.

Lemma int_of_str_dumps (z : Z) : int_of_str (dumps_int z) = z.
Proof.
  rewrite <- (DecimalZ.of_to z) at 2.
  unfold dumps_int. destruct z as [|p|p]; cbn [Z.to_int].
  - reflexivity.
  - destruct (to_uint_head p) as (c & r & E & Hd & H0).
    rewrite <- (chars_uint_chars (Pos.to_uint p)) at 2.
    rewrite E. unfold int_of_str.
    assert (H45 : (c =? 45)%N = false).
    { unfold is_digit in Hd. revert Hd. ncases; try lia; cbn; congruence. }
    now rewrite H45.
  - unfold int_of_str. change (45 =? 45)%N with true. cbv iota.
    now rewrite chars_uint_chars.
Qed.

Lemma parse_number_int (z : Z) (rest : str) :
  number_end rest = true ->
  parse_number (dumps_int z ++ rest) = Ok (JInt z, rest).
Proof.
  intros H. unfold parse_number. rewrite match_number_int by exact H.
  cbn [app]. now rewrite int_of_str_dumps.
Qed.

(** *** Values *)

Lemma value_start_cases (c : N) :
  value_start c = true ->
  c = 34%N \/ c = 45%N \/ c = 91%N \/ c = 102%N \/ c = 110%N \/ c = 116%N
  \/ c = 123%N \/ (48 <= c <= 57)%N.
Proof.
  unfold value_start. rewrite !orb_true_iff, !N.eqb_eq.
  intros H. repeat (destruct H as [H|H]; [tauto|]). apply is_digit_range in H. tauto.
Qed.

Lemma value_start_facts (c : N) :
  value_start c = true ->
  ws c = false /\ (c =? 93)%N = false /\ (c =? 125)%N = false
  /\ (c =? 0xFEFF)%N = false /\ (c =? 44)%N = false.
Proof.
  intros H. apply value_start_cases in H.
  repeat (destruct H as [->|H]; [now repeat split|]).
  unfold ws. eqb_false. now repeat split.
Qed.

Lemma dumps_int_head (z : Z) :
  exists c r, dumps_int z = c :: r
    /\ (is_digit c = true
        \/ (c = 45%N /\ exists d r', r = d :: r' /\ is_digit d = true)).
Proof.
  unfold dumps_int. destruct z as [|p|p]; cbn [Z.to_int].
  - exists 48%N, []. split; [reflexivity|]. now left.
  - destruct (to_uint_head p) as (c & r & E & Hd & H0).
    exists c, r. split; [exact E|]. now left.
  - destruct (to_uint_head p) as (c & r & E & Hd & H0).
    exists 45%N, (uint_chars (Pos.to_uint p)). split; [reflexivity|].
    right. split; [reflexivity|]. exists c, r. now split.
Qed.

Lemma digit_value_start (c : N) : is_digit c = true -> value_start c = true.
Proof. unfold value_start. intros ->. now rewrite !orb_true_r. Qed.

Lemma dumps_head (v : json) :
  representable v = true ->
  exists c r, dumps v = c :: r /\ value_start c = true.
Proof.
  destruct v as [|[]|z|lx|s|l|d]; cbn [representable dumps]; intros H;
    try discriminate H; try (cbn; eauto; fail).
  destruct (dumps_int_head z) as (c & r & E & [Hd|[-> _]]); rewrite E.
  - exists c, r. split; [reflexivity|]. now apply digit_value_start.
  - exists 45%N, r. split; reflexivity.
Qed.

Lemma skip_ws_start (c : N) (r : str) :
  value_start c = true -> skip_ws (c :: r) = c :: r.
Proof.
  intros H. apply value_start_facts in H as [H _]. cbn. now rewrite H.
Qed.

Lemma skip_ws_dumps (v : json) (rest : str) :
  representable v = true -> skip_ws (dumps v ++ rest) = dumps v ++ rest.
Proof.
  intros H. destruct (dumps_head v H) as (c & r & E & Hc).
  rewrite E. cbn [app]. now apply skip_ws_start.
Qed.

Lemma scan_atom_number (s : str) (c : N) (r : str) :
  s = c :: r ->
  (is_digit c = true
   \/ (c = 45%N /\ exists d r', r = d :: r' /\ is_digit d = true)) ->
  scan_atom s = parse_number s.
Proof.
  intros -> [Hd|[-> (d & r' & -> & Hd)]]; apply is_digit_range in Hd;
    unfold scan_atom; cbn [starts_with lit list_ascii_of_string map N_of_ascii];
    cbn -[parse_number starts_with]; eqb_false; reflexivity.
Qed.

Lemma scan_once_int (fuel : nat) (z : Z) (rest : str) :
  number_end rest = true ->
  scan_once (S fuel) (dumps_int z ++ rest) = Ok (JInt z, rest).
Proof.
  intros H. rewrite <- (parse_number_int z rest H).
  destruct (dumps_int_head z) as (c & r & E & Hc).
  rewrite <- (scan_atom_number (dumps_int z ++ rest) c (r ++ rest));
    [| now rewrite E | ].
  - rewrite E. cbn [app scan_once].
    assert (Hq : (c =? 34)%N = false /\ (c =? 123)%N = false /\ (c =? 91)%N = false).
    { destruct Hc as [Hd|[-> _]]; [|now repeat split].
      apply is_digit_range in Hd. eqb_false. now repeat split. }
    destruct Hq as (-> & -> & ->). reflexivity.
  - destruct Hc as [Hd|[-> (d & r' & -> & Hd)]]; [now left|].
    right. split; [reflexivity|]. exists d, (r' ++ rest). now split.
Qed.

Lemma join_cons2 (sep x y : str) (l : list str) :
  join sep (x :: y :: l) = x ++ sep ++ join sep (y :: l).
Proof. reflexivity. Qed.

Lemma lit_comma_app (X : str) : lit ", " ++ X = 44%N :: 32%N :: X.
Proof. reflexivity. Qed.

Lemma lit_colon_app (X : str) : lit ": " ++ X = 58%N :: 32%N :: X.
Proof. reflexivity. Qed.

Lemma parse_array_last (fuel : nat) (v : json) (s rest : str) :
  scan_once fuel s = Ok (v, 93%N :: rest) ->
  parse_array (S fuel) s = Ok ([v], rest).
Proof. intros H. cbn [parse_array]. rewrite H. reflexivity. Qed.

Lemma parse_array_more (fuel : nat) (v : json) (s X : str) :
  scan_once fuel s = Ok (v, 44%N :: 32%N :: X) ->
  skip_ws X = X ->
  parse_array (S fuel) s
  = match parse_array fuel X with
    | Ok (vs, rest') => Ok (v :: vs, rest')
    | Raise e => Raise e
    end.
Proof. intros H1 H2. cbn [parse_array]. rewrite H1. cbn. rewrite H2. reflexivity. Qed.

Lemma parse_object_last (fuel : nat) (k : str) (v : json) (r0 s rest : str) :
  scanstring r0 = Ok (k, 58%N :: 32%N :: s) ->
  skip_ws s = s ->
  scan_once fuel s = Ok (v, 125%N :: rest) ->
  parse_object (S fuel) (34%N :: r0) = Ok ([(k, v)], rest).
Proof.
  intros H1 H2 H3. cbn [parse_object]. change (34 =? 34)%N with true. cbv iota.
  rewrite H1. cbn. rewrite H2, H3. reflexivity.
Qed.

Lemma parse_object_more (fuel : nat) (k : str) (v : json) (r0 s X : str) :
  scanstring r0 = Ok (k, 58%N :: 32%N :: s) ->
  skip_ws s = s ->
  scan_once fuel s = Ok (v, 44%N :: 32%N :: X) ->
  skip_ws X = X ->
  parse_object (S fuel) (34%N :: r0)
  = match parse_object fuel X with
    | Ok (kvs, rest) => Ok ((k, v) :: kvs, rest)
    | Raise e => Raise e
    end.
Proof.
  intros H1 H2 H3 H4. cbn [parse_object]. change (34 =? 34)%N with true. cbv iota.
  rewrite H1. cbn. rewrite H2, H3. cbn. rewrite H4. reflexivity.
Qed.

Lemma scan_once_array (fuel : nat) (c : N) (r : str) :
  ws c = false -> (c =? 93)%N = false ->
  scan_once (S fuel) (91%N :: c :: r)
  = match parse_array fuel (c :: r) with
    | Ok (values, rest) => Ok (JList values, rest)
    | Raise e => Raise e
    end.
Proof. intros H1 H2. cbn. now rewrite H1, H2. Qed.

Lemma scan_once_object (fuel : nat) (c : N) (r : str) :
  ws c = false -> (c =? 125)%N = false ->
  scan_once (S fuel) (123%N :: c :: r)
  = match parse_object fuel (c :: r) with
    | Ok (pairs, rest) => Ok (JDict (dict_of_pairs pairs), rest)
    | Raise e => Raise e
    end.
Proof. intros H1 H2. cbn. now rewrite H1, H2. Qed.

Lemma skip_ws_join (l : list json) (rest : str) :
  forallb representable l = true -> l <> [] ->
  skip_ws (join (lit ", ") (map dumps l) ++ rest)
  = join (lit ", ") (map dumps l) ++ rest.
Proof.
  destruct l as [|v l]; [congruence|]. cbn [forallb]. intros H _.
  apply andb_true_iff in H as [H _].
  destruct l as [|v2 l2]; cbn [map].
  - cbn [join]. now apply skip_ws_dumps.
  - rewrite join_cons2, <- app_assoc. now apply skip_ws_dumps.
Qed.

Lemma parse_array_dumps (l : list json) :
  list_all json scans l ->
  forallb representable l = true -> l <> [] ->
  forall fuel rest,
    (fold_right (fun x n => S (size x + n)) 0 l <= fuel)%nat ->
    parse_array fuel (join (lit ", ") (map dumps l) ++ 93%N :: rest) = Ok (l, rest).
Proof.
  induction 1 as [|v Hv l Hl IH]; [congruence|].
  cbn [forallb fold_right]. intros Hr _ fuel rest Hf.
  apply andb_true_iff in Hr as [Hrv Hrl].
  destruct fuel as [|fuel]; [lia|].
  destruct l as [|v2 l2].
  - cbn [map join]. apply parse_array_last.
    apply (Hv Hrv); [cbn in Hf; lia | reflexivity].
  - cbn [map]. rewrite join_cons2, <- !app_assoc, lit_comma_app.
    change (dumps v2 :: map dumps l2) with (map dumps (v2 :: l2)).
    rewrite (parse_array_more fuel v _
               (join (lit ", ") (map dumps (v2 :: l2)) ++ 93%N :: rest)).
    + rewrite IH; [reflexivity | exact Hrl | congruence | lia].
    + apply (Hv Hrv); [lia | reflexivity].
    + apply skip_ws_join; [exact Hrl | congruence].
Qed.

Lemma item_eq (k : str) (v : json) (X : str) :
  item (k, v) ++ X
  = 34%N :: flat_map escape_char k ++ 34%N :: 58%N :: 32%N :: dumps v ++ X.
Proof.
  unfold item, dumps_str. cbn [fst snd]. rewrite <- !app_assoc. cbn [app].
  reflexivity.
Qed.

Lemma skip_ws_items (d : list (str * json)) (rest : str) :
  d <> [] ->
  skip_ws (join (lit ", ") (map item d) ++ rest)
  = join (lit ", ") (map item d) ++ rest.
Proof.
  destruct d as [|[k v] d]; [congruence|]. intros _.
  destruct d as [|kv2 d2]; cbn [map].
  - cbn [join]. rewrite item_eq. reflexivity.
  - rewrite join_cons2, <- app_assoc, item_eq. reflexivity.
Qed.

Lemma parse_object_dumps (d : list (str * json)) :
  list_all (str * json) (prod_all str (fun _ => unit) json scans) d ->
  forallb (fun kv => representable (snd kv)) d = true -> d <> [] ->
  forall fuel rest,
    (fold_right (fun kv n => S (size (snd kv) + n)) 0 d <= fuel)%nat ->
    parse_object fuel (join (lit ", ") (map item d) ++ 125%N :: rest) = Ok (d, rest).
Proof.
  induction 1 as [|kv Hkv d Hd IH]; [congruence|].
  destruct Hkv as [k _ v Hv].
  cbn [forallb fold_right snd]. intros Hr _ fuel rest Hf.
  apply andb_true_iff in Hr as [Hrv Hrd].
  destruct fuel as [|fuel]; [lia|].
  destruct d as [|kv2 d2].
  - cbn [map join]. rewrite item_eq.
    apply (parse_object_last fuel k v _ (dumps v ++ 125%N :: rest)).
    + apply scanstring_escaped.
    + now apply skip_ws_dumps.
    + apply (Hv Hrv); [cbn in Hf; lia | reflexivity].
  - cbn [map]. rewrite join_cons2, <- !app_assoc, lit_comma_app, item_eq.
    change (item kv2 :: map item d2) with (map item (kv2 :: d2)).
    rewrite (parse_object_more fuel k v _
               (dumps v ++ 44%N :: 32%N :: join (lit ", ") (map item (kv2 :: d2))
                  ++ 125%N :: rest)
               (join (lit ", ") (map item (kv2 :: d2)) ++ 125%N :: rest)).
    + rewrite IH; [reflexivity | exact Hrd | congruence | lia].
    + apply scanstring_escaped.
    + now apply skip_ws_dumps.
    + apply (Hv Hrv); [lia | reflexivity].
    + apply skip_ws_items. congruence.
Qed.

Lemma dict_set_fresh (k : str) (v : json) (d : list (str * json)) :
  k ∉ map fst d -> dict_set k v d = d ++ [(k, v)].
Proof.
  induction d as [|[k' v'] d IH]; [reflexivity|].
  cbn [map fst dict_set app]. intros H.
  apply not_elem_of_cons in H as [Hne Hd].
  destruct (decide (k = k')) as [->|_]; [congruence|].
  now rewrite IH.
Qed.

Lemma dict_of_pairs_app (acc d : list (str * json)) :
  NoDup (map fst (acc ++ d)) ->
  fold_left (fun d kv => dict_set (fst kv) (snd kv) d) d acc = acc ++ d.
Proof.
  revert acc. induction d as [|[k v] d IH]; intros acc H.
  - now rewrite app_nil_r.
  - cbn [fold_left fst snd].
    replace (acc ++ (k, v) :: d) with ((acc ++ [(k, v)]) ++ d) in *
      by now rewrite <- app_assoc.
    rewrite dict_set_fresh.
    + now apply IH.
    + rewrite !map_app in H. apply NoDup_app in H as [H _].
      apply NoDup_app in H as (_ & H & _).
      intros Hin. apply (H k Hin). cbn. apply list_elem_of_here.
Qed.

Lemma dict_of_pairs_nodup (d : list (str * json)) :
  NoDup (map fst d) -> dict_of_pairs d = d.
Proof. intros H. unfold dict_of_pairs. now rewrite dict_of_pairs_app. Qed.

Lemma scans_all (v : json) : scans v.
Proof.
  induction v as [|b|z|lx|s|l IH|d IH] using json_ind; unfold scans;
    cbn [representable]; intros Hr fuel rest Hf He;
    (destruct fuel as [|fuel]; [cbn in Hf; lia|]).
  - reflexivity.
  - destruct b; reflexivity.
  - now apply scan_once_int.
  - discriminate Hr.
  - cbn [dumps]. unfold dumps_str. rewrite <- !app_assoc. cbn [app scan_once].
    change (34 =? 34)%N with true. cbv iota.
    now rewrite scanstring_escaped.
  - cbn [dumps]. rewrite <- !app_assoc. cbn [app].
    destruct l as [|v l]; [reflexivity|].
    destruct (dumps_head v) as (c & r & E & Hc).
    { cbn [forallb] in Hr. now apply andb_true_iff in Hr as [Hr _]. }
    apply value_start_facts in Hc as (Hw & H93 & _).
    assert (Hj : exists r', join (lit ", ") (map dumps (v :: l)) ++ 93%N :: rest = c :: r').
    { cbn [map]. destruct l as [|v2 l2].
      - cbn [map join]. rewrite E. cbn [app]. eauto.
      - cbn [map]. rewrite join_cons2, E. cbn [app]. eauto. }
    destruct Hj as [r' Hj].
    pose proof (parse_array_dumps (v :: l) IH Hr ltac:(congruence) fuel rest) as Hp.
    rewrite Hj in *. rewrite (scan_once_array fuel c r' Hw H93).
    rewrite Hp; [reflexivity|]. cbn [size] in Hf. lia.
  - cbn [dumps]. rewrite <- !app_assoc. cbn [app].
    destruct d as [|[k v] d]; [reflexivity|].
    apply andb_true_iff in Hr as [Hn Hr]. apply bool_decide_eq_true in Hn.
    change (fun kv : str * json => dumps_str (fst kv) ++ lit ": " ++ dumps (snd kv))
      with item.
    assert (Hj : exists r', join (lit ", ") (map item ((k, v) :: d)) ++ 125%N :: rest
                            = 34%N :: r').
    { cbn [map]. destruct d as [|kv2 d2].
      - cbn [map join]. rewrite item_eq. eauto.
      - cbn [map]. rewrite join_cons2, <- app_assoc, item_eq. eauto. }
    destruct Hj as [r' Hj].
    pose proof (parse_object_dumps ((k, v) :: d) IH Hr ltac:(congruence) fuel rest) as Hp.
    rewrite Hj in *.
    rewrite (scan_once_object fuel 34%N r' eq_refl eq_refl).
    rewrite Hp; [|cbn [size] in Hf; lia].
    now rewrite dict_of_pairs_nodup.
Qed.

Lemma fold_le_join {A : Type} (f : A -> nat) (g : A -> str) (l : list A) :
  Forall (fun x => (f x <= length (g x))%nat) l ->
  (fold_right (fun x n => S (f x + n)) 0 l
   <= S (length (join (lit ", ") (map g l))))%nat.
Proof.
  induction 1 as [|x l Hx Hl IH]; [cbn; lia|].
  cbn [fold_right map].
  destruct l as [|y l2].
  - cbn. lia.
  - cbn [map] in *. rewrite join_cons2, !length_app.
    change (length (lit ", ")) with 2%nat. cbn [fold_right] in *. lia.
Qed.

Lemma fits_all (v : json) : fits v.
Proof.
  induction v as [|b|z|lx|s|l IH|d IH] using json_ind; unfold fits;
    intros Hr.
  - cbn. lia.
  - destruct b; cbn; lia.
  - destruct (dumps_head (JInt z) Hr) as (c & r & E & _). rewrite E. cbn. lia.
  - discriminate Hr.
  - cbn [dumps size]. unfold dumps_str. rewrite !length_app. cbn. lia.
  - cbn [dumps size representable] in *. rewrite !length_app. cbn [length].
    assert (H : Forall (fun x => (size x <= length (dumps x))%nat) l).
    { induction IH as [|v Hv l Hl IHl]; [constructor|].
      cbn [forallb] in Hr. apply andb_true_iff in Hr as [Hrv Hrl].
      constructor; [now apply Hv | now apply IHl]. }
    pose proof (fold_le_join size dumps l H). lia.
  - cbn [dumps size representable] in *. rewrite !length_app. cbn [length].
    apply andb_true_iff in Hr as [_ Hr].
    change (fun kv : str * json => dumps_str (fst kv) ++ lit ": " ++ dumps (snd kv))
      with item.
    assert (H : Forall (fun kv => (size (snd kv) <= length (item kv))%nat) d).
    { induction IH as [|kv Hkv d Hd IHd]; [constructor|].
      cbn [forallb] in Hr. apply andb_true_iff in Hr as [Hrv Hrd].
      constructor; [|now apply IHd].
      destruct Hkv as [k _ v Hv]. cbn [snd] in *.
      specialize (Hv Hrv). unfold item. rewrite !length_app. cbn [snd]. lia. }
    pose proof (fold_le_join (fun kv => size (snd kv)) item d H). lia.
Qed.

(** Parsing the text of a value gives the value back. *)
Lemma loads_dumps (v : json) :
  representable v = true -> loads (dumps v) = Ok v.
Proof.
  intros Hr. unfold loads.
  destruct (dumps_head v Hr) as (c & r & E & Hc).
  pose proof (skip_ws_dumps v [] Hr) as Hs. rewrite app_nil_r in Hs.
  apply value_start_facts in Hc as (_ & _ & _ & Hb & _).
  assert (Hbom : starts_with [0xFEFF%N] (dumps v) = false).
  { rewrite E. cbn [starts_with]. rewrite N.eqb_sym, Hb. reflexivity. }
  rewrite Hbom, Hs.
  pose proof (scans_all v Hr (S (2 * length (dumps v))) []) as Hv.
  rewrite app_nil_r in Hv. rewrite Hv; [reflexivity| |reflexivity].
  pose proof (fits_all v Hr). lia.
Qed.

Lemma dumps_nonempty (v : json) : representable v = true -> dumps v <> [].
Proof.
  intros Hr. destruct (dumps_head v Hr) as (c & r & E & _). now rewrite E.
Qed.

End JsonRoundTrip.

(** ** json.loads fails only by refusing the text *)

Section JsonErrors.
Import Json.

Local Arguments decode_error : simpl never.
Local Arguments lit : simpl never.
Local Arguments scan_atom : simpl never.
Local Arguments parse_number : simpl never.

Lemma skip_ws_length (s : str) : (length (skip_ws s) <= length s)%nat.
Proof.
  induction s as [|c s IH]; [reflexivity|].
  cbn [skip_ws]. destruct (ws c); cbn [length]; lia.
Qed.

Lemma push_ok (c : N) (o : outcome (str * str)) (k rest : str) :
  push c o = Ok (k, rest) -> exists k', o = Ok (k', rest).
Proof. destruct o as [[k' r']|e]; [|discriminate]. intros [= _ <-]. eauto. Qed.

Lemma push_raise (c : N) (o : outcome (str * str)) (e : exn) :
  push c o = Raise e -> o = Raise e.
Proof. destruct o as [[k' r']|e']; [discriminate|]. now intros [= <-]. Qed.

Lemma scanstring_facts (n : nat) (s : str) :
  (length s <= n)%nat ->
  (forall k rest, scanstring s = Ok (k, rest) -> (length rest < length s)%nat)
  /\ (forall e, scanstring s = Raise e -> exn_cls e = JSONDecodeError).
Proof.
  revert s. induction n as [|n IH]; intros s Hn.
  { destruct s; [|cbn in Hn; lia].
    split; [intros k rest H | intros e0 H]; simpl in H;
      [discriminate H | now injection H as <-]. }
  assert (IHok : forall s k rest, (length s <= n)%nat ->
            scanstring s = Ok (k, rest) -> (length rest < length s)%nat)
    by (intros s' k rest Hs; now apply (IH s' Hs)).
  assert (IHer : forall s e, (length s <= n)%nat ->
            scanstring s = Raise e -> exn_cls e = JSONDecodeError)
    by (intros s' e Hs; now apply (IH s' Hs)).
  clear IH.
  destruct s as [|c r].
  { split; [intros k rest H | intros e0 H]; simpl in H;
      [discriminate H | now injection H as <-]. }
  simpl scanstring. cbn [length] in Hn.
  repeat match goal with
         | |- context [if ?b then _ else _] => destruct b
         | |- context [match hex4 ?a ?b ?c ?d with _ => _ end] => destruct (hex4 a b c d)
         | |- context [match simple_escape ?e with _ => _ end] =>
             destruct (simple_escape e)
         | |- context [match ?l with [] => _ | _ :: _ => _ end] => is_var l; destruct l
         end;
    (split; [intros k rest H | intros e0 H]);
    try discriminate H;
    try (injection H as <- <-; cbn [length]; lia);
    try (injection H as <-; reflexivity);
    try (apply push_ok in H as [k' H]; apply IHok in H; cbn [length] in *; lia);
    try (apply push_raise in H; apply IHer in H; [exact H | cbn [length] in *; lia]).
Qed.

Lemma scanstring_progress (s k rest : str) :
  scanstring s = Ok (k, rest) -> (length rest < length s)%nat.
Proof. apply (scanstring_facts (length s) s); lia. Qed.

Lemma scanstring_class (s : str) (e : exn) :
  scanstring s = Raise e -> exn_cls e = JSONDecodeError.
Proof. apply (scanstring_facts (length s) s); lia. Qed.

Lemma span_digits_length (s d r : str) :
  span_digits s = (d, r) -> length s = (length d + length r)%nat.
Proof.
  revert d r. induction s as [|c s IH]; intros d r; cbn [span_digits].
  - now intros [= <- <-].
  - destruct (is_digit c).
    + destruct (span_digits s) as [d' r']. intros [= <- <-].
      cbn [length]. now rewrite (IH d' r' eq_refl).
    + now intros [= <- <-].
Qed.

Lemma match_int_progress (s ds r : str) :
  match_int s = Some (ds, r) -> (length r < length s)%nat.
Proof.
  unfold match_int. destruct s as [|c s]; [discriminate|].
  destruct (c =? 48)%N; [intros [= <- <-]; cbn; lia|].
  destruct (is_digit c); [|discriminate].
  destruct (span_digits s) as [d r'] eqn:E. intros [= <- <-].
  apply span_digits_length in E. cbn [length]. lia.
Qed.

Lemma match_frac_le (s f r : str) :
  match_frac s = (f, r) -> (length r <= length s)%nat.
Proof.
  unfold match_frac. destruct s as [|p s]; [now intros [= <- <-]|].
  destruct (p =? 46)%N; [|now intros [= <- <-]].
  destruct (span_digits s) as [[|d0 d] r'] eqn:E; intros [= <- <-]; [reflexivity|].
  apply span_digits_length in E. cbn [length] in *. lia.
Qed.

Lemma match_exp_le (s x r : str) :
  match_exp s = (x, r) -> (length r <= length s)%nat.
Proof.
  unfold match_exp. destruct s as [|e s]; [now intros [= <- <-]|].
  destruct ((e =? 101) || (e =? 69))%N; [|now intros [= <- <-]].
  destruct s as [|y s'].
  - cbn [span_digits]. now intros [= <- <-].
  - destruct ((y =? 43) || (y =? 45))%N.
    + destruct (span_digits s') as [[|d0 d] r'] eqn:E; intros [= <- <-]; [reflexivity|].
      apply span_digits_length in E. cbn [length] in *. lia.
    + destruct (span_digits (y :: s')) as [[|d0 d] r'] eqn:E; intros [= <- <-];
        [reflexivity|].
      apply span_digits_length in E. cbn [length] in *. lia.
Qed.

Lemma parse_number_facts (s : str) :
  (forall v rest, parse_number s = Ok (v, rest) -> (length rest < length s)%nat)
  /\ (forall e, parse_number s = Raise e -> exn_cls e = JSONDecodeError).
Proof.
  unfold parse_number, match_number.
  set (p := match s with
            | [] => ([], s)
            | c :: r => if (c =? 45)%N then ([c], r) else ([], s)
            end).
  assert (Hp : (length (snd p) <= length s)%nat).
  { unfold p. destruct s as [|c r]; [reflexivity|].
    destruct (c =? 45)%N; cbn; lia. }
  destruct p as [sign s1]. cbn [snd] in Hp.
  destruct (match_int s1) as [[ds s2]|] eqn:Ei.
  - apply match_int_progress in Ei.
    destruct (match_frac s2) as [frac s3] eqn:Ef. apply match_frac_le in Ef.
    destruct (match_exp s3) as [ex s4] eqn:Ee. apply match_exp_le in Ee.
    destruct (frac ++ ex); split; intros; try discriminate;
      match goal with H : Ok _ = Ok _ |- _ => injection H as <- <- end; lia.
  - split; intros; try discriminate.
    match goal with H : Raise _ = Raise _ |- _ => now injection H as <- end.
Qed.

Lemma starts_with_length (p s : str) :
  starts_with p s = true -> (length p <= length s)%nat.
Proof.
  revert s. induction p as [|a p IH]; intros s H; [cbn; lia|].
  destruct s as [|b s]; [discriminate|].
  cbn [starts_with] in H. apply andb_true_iff in H as [_ H].
  apply IH in H. cbn [length]. lia.
Qed.

Lemma drop_keyword (p s : str) (n : nat) :
  starts_with p s = true -> length p = S n ->
  (length (drop (S n) s) < length s)%nat.
Proof.
  intros H Hn. apply starts_with_length in H. rewrite length_drop. lia.
Qed.

Lemma scan_atom_facts (s : str) :
  (forall v rest, scan_atom s = Ok (v, rest) -> (length rest < length s)%nat)
  /\ (forall e, scan_atom s = Raise e -> exn_cls e = JSONDecodeError).
Proof.
  unfold scan_atom.
  destruct (starts_with (lit "null") s) eqn:H1.
  { split; [|discriminate]. intros v rest [= <- <-].
    now apply (drop_keyword (lit "null")). }
  destruct (starts_with (lit "true") s) eqn:H2.
  { split; [|discriminate]. intros v rest [= <- <-].
    now apply (drop_keyword (lit "true")). }
  destruct (starts_with (lit "false") s) eqn:H3.
  { split; [|discriminate]. intros v rest [= <- <-].
    now apply (drop_keyword (lit "false")). }
  destruct (starts_with (lit "NaN") s) eqn:H4.
  { split; [|discriminate]. intros v rest [= <- <-].
    now apply (drop_keyword (lit "NaN")). }
  destruct (starts_with (lit "Infinity") s) eqn:H5.
  { split; [|discriminate]. intros v rest [= <- <-].
    now apply (drop_keyword (lit "Infinity")). }
  destruct (starts_with (lit "-Infinity") s) eqn:H6.
  { split; [|discriminate]. intros v rest [= <- <-].
    now apply (drop_keyword (lit "-Infinity")). }
  apply parse_number_facts.
Qed.

(** Every step of the scanner uses up some of the text. *)
Lemma scan_progress (fuel : nat) :
  (forall s v rest, scan_once fuel s = Ok (v, rest) -> (length rest < length s)%nat)
  /\ (forall s vs rest, parse_array fuel s = Ok (vs, rest) -> (length rest < length s)%nat)
  /\ (forall s kvs rest, parse_object fuel s = Ok (kvs, rest) ->
        (length rest < length s)%nat).
Proof.
  induction fuel as [|fuel (IHs & IHa & IHo)];
    [repeat split; intros; discriminate|].
  split; [|split].
  - intros s v rest. simpl scan_once. destruct s as [|c r]; [discriminate|].
    destruct (c =? 34)%N.
    { destruct (scanstring r) as [[k r']|e] eqn:E; [|discriminate].
      intros [= <- <-]. apply scanstring_progress in E. cbn [length]. lia. }
    destruct (c =? 123)%N.
    { pose proof (skip_ws_length r). destruct (skip_ws r) as [|c' r']; [discriminate|].
      destruct (c' =? 125)%N; [intros [= <- <-]; cbn [length] in *; lia|].
      destruct (parse_object fuel (c' :: r')) as [[kvs r'']|e] eqn:E; [|discriminate].
      intros [= <- <-]. apply IHo in E. cbn [length] in *. lia. }
    destruct (c =? 91)%N.
    { pose proof (skip_ws_length r). destruct (skip_ws r) as [|c' r']; [discriminate|].
      destruct (c' =? 93)%N; [intros [= <- <-]; cbn [length] in *; lia|].
      destruct (parse_array fuel (c' :: r')) as [[vs r'']|e] eqn:E; [|discriminate].
      intros [= <- <-]. apply IHa in E. cbn [length] in *. lia. }
    apply scan_atom_facts.
  - intros s vs rest. simpl parse_array.
    destruct (scan_once fuel s) as [[v r]|e] eqn:E; [|discriminate].
    apply IHs in E. pose proof (skip_ws_length r).
    destruct (skip_ws r) as [|c r']; [discriminate|].
    destruct (c =? 93)%N; [intros [= <- <-]; cbn [length] in *; lia|].
    destruct (c =? 44)%N; [|discriminate].
    pose proof (skip_ws_length r').
    destruct (parse_array fuel (skip_ws r')) as [[vs' r'']|e] eqn:E'; [|discriminate].
    intros [= <- <-]. apply IHa in E'. cbn [length] in *. lia.
  - intros s kvs rest. simpl parse_object.
    destruct s as [|q r0]; [discriminate|].
    destruct (q =? 34)%N; [|discriminate].
    destruct (scanstring r0) as [[k r1]|e] eqn:Ek; [|discriminate].
    apply scanstring_progress in Ek. pose proof (skip_ws_length r1).
    destruct (skip_ws r1) as [|c r2]; [discriminate|].
    destruct (c =? 58)%N; [|discriminate].
    pose proof (skip_ws_length r2).
    destruct (scan_once fuel (skip_ws r2)) as [[v r3]|e] eqn:Ev; [|discriminate].
    apply IHs in Ev. pose proof (skip_ws_length r3).
    destruct (skip_ws r3) as [|c' r4]; [discriminate|].
    destruct (c' =? 125)%N; [intros [= <- <-]; cbn [length] in *; lia|].
    destruct (c' =? 44)%N; [|discriminate].
    pose proof (skip_ws_length r4).
    destruct (parse_object fuel (skip_ws r4)) as [[kvs' r5]|e] eqn:Eo; [|discriminate].
    intros [= <- <-]. apply IHo in Eo. cbn [length] in *. lia.
Qed.

(** With fuel for twice the length of the text, the scanner never runs
    out: whatever it raises is a JSONDecodeError. *)
Lemma scan_class (fuel : nat) :
  (forall s e, (2 * length s < fuel)%nat -> scan_once fuel s = Raise e ->
     exn_cls e = JSONDecodeError)
  /\ (forall s e, (2 * length s + 1 < fuel)%nat -> parse_array fuel s = Raise e ->
        exn_cls e = JSONDecodeError)
  /\ (forall s e, (2 * length s + 1 < fuel)%nat -> parse_object fuel s = Raise e ->
        exn_cls e = JSONDecodeError).
Proof.
  induction fuel as [|fuel (IHs & IHa & IHo)]; [repeat split; intros; lia|].
  destruct (scan_progress fuel) as (Ps & Pa & Po).
  split; [|split].
  - intros s e Hf. simpl scan_once.
    destruct s as [|c r]; [now intros [= <-]|]. cbn [length] in Hf.
    destruct (c =? 34)%N.
    { destruct (scanstring r) as [[k r']|e'] eqn:E; [discriminate|].
      intros [= <-]. now apply scanstring_class in E. }
    destruct (c =? 123)%N.
    { pose proof (skip_ws_length r).
      destruct (skip_ws r) as [|c' r']; [now intros [= <-]|].
      destruct (c' =? 125)%N; [discriminate|].
      destruct (parse_object fuel (c' :: r')) as [[kvs r'']|e'] eqn:E; [discriminate|].
      intros [= <-]. apply IHo in E; [exact E|]. cbn [length] in *. lia. }
    destruct (c =? 91)%N.
    { pose proof (skip_ws_length r).
      destruct (skip_ws r) as [|c' r']; [now intros [= <-]|].
      destruct (c' =? 93)%N; [discriminate|].
      destruct (parse_array fuel (c' :: r')) as [[vs r'']|e'] eqn:E; [discriminate|].
      intros [= <-]. apply IHa in E; [exact E|]. cbn [length] in *. lia. }
    apply scan_atom_facts.
  - intros s e Hf. simpl parse_array.
    destruct (scan_once fuel s) as [[v r]|e'] eqn:E.
    2:{ intros [= <-]. apply IHs in E; [exact E|lia]. }
    apply Ps in E. pose proof (skip_ws_length r).
    destruct (skip_ws r) as [|c r']; [now intros [= <-]|].
    destruct (c =? 93)%N; [discriminate|].
    destruct (c =? 44)%N; [|now intros [= <-]].
    pose proof (skip_ws_length r').
    destruct (parse_array fuel (skip_ws r')) as [[vs' r'']|e'] eqn:E'; [discriminate|].
    intros [= <-]. apply IHa in E'; [exact E'|]. cbn [length] in *. lia.
  - intros s e Hf. simpl parse_object.
    destruct s as [|q r0]; [now intros [= <-]|]. cbn [length] in Hf.
    destruct (q =? 34)%N; [|now intros [= <-]].
    destruct (scanstring r0) as [[k r1]|e'] eqn:Ek.
    2:{ intros [= <-]. now apply scanstring_class in Ek. }
    apply scanstring_progress in Ek. pose proof (skip_ws_length r1).
    destruct (skip_ws r1) as [|c r2]; [now intros [= <-]|].
    destruct (c =? 58)%N; [|now intros [= <-]].
    pose proof (skip_ws_length r2).
    destruct (scan_once fuel (skip_ws r2)) as [[v r3]|e'] eqn:Ev.
    2:{ intros [= <-]. apply IHs in Ev; [exact Ev|]. cbn [length] in *. lia. }
    apply Ps in Ev. pose proof (skip_ws_length r3).
    destruct (skip_ws r3) as [|c' r4]; [now intros [= <-]|].
    destruct (c' =? 125)%N; [discriminate|].
    destruct (c' =? 44)%N; [|now intros [= <-]].
    pose proof (skip_ws_length r4).
    destruct (parse_object fuel (skip_ws r4)) as [[kvs' r5]|e'] eqn:Eo; [discriminate|].
    intros [= <-]. apply IHo in Eo; [exact Eo|]. cbn [length] in *. lia.
Qed.

(** [loads] has fuel enough for every text: it returns a value or raises a
    JSONDecodeError. *)
Lemma loads_class (s : str) (e : exn) :
  loads s = Raise e -> exn_cls e = JSONDecodeError.
Proof.
  unfold loads. destruct (starts_with _ s); [now intros [= <-]|].
  pose proof (skip_ws_length s).
  destruct (scan_once (S (2 * length s)) (skip_ws s)) as [[v rest]|e'] eqn:E.
  - destruct (skip_ws rest); [discriminate|now intros [= <-]].
  - intros [= <-]. apply (scan_class (S (2 * length s))) in E; [exact E|lia].
Qed.

End JsonErrors.

(** ** The Cache Store *)

Section CacheStore.

Lemma same_but_net_refl (w : world) : same_but_net w w.
Proof. now repeat split. Qed.

Lemma transmit_world (w w1 : world) (r : outcome unit) :
  transmit w = (r, w1) -> same_but_net w w1.
Proof.
  unfold transmit. destruct (net w) as [|[e|] n]; intros [= <- <-];
    now repeat split.
Qed.

Lemma redis_get_world (key : str) (w w1 : world) (r : outcome (option str)) :
  redis_get key w = (r, w1) -> same_but_net w w1.
Proof.
  unfold redis_get, bind, lift.
  destruct (encode_utf8 key); [|intros [= <- <-]; apply same_but_net_refl].
  destruct (transmit w) as [[[]|e] w2] eqn:E; intros [= <- <-];
    now apply transmit_world in E.
Qed.

Lemma redis_get_value (key : str) (w w1 : world) (data : option str) :
  redis_get key w = (Ok data, w1) -> data = shared_value w key.
Proof.
  unfold redis_get, bind, lift, shared_value.
  destruct (encode_utf8 key); [|discriminate].
  destruct (transmit w) as [[[]|e] w2] eqn:E; [|discriminate].
  intros [= <- <-]. apply transmit_world in E as (Hc & Hr & _).
  now rewrite Hc, Hr.
Qed.

(** What [get] does on the shared backend, case by case. *)
Lemma get_shared (key : str) (w : world) :
  use_redis (cache_manager w) = true ->
  exists w1, same_but_net w w1 /\
    ((get key w = (Ok None, w1)
      /\ ((exists e, redis_get key w = (Raise e, w1))
          \/ (redis_get key w = (Ok None, w1))
          \/ (redis_get key w = (Ok (Some []), w1))
          \/ (exists text e, redis_get key w = (Ok (Some text), w1)
                             /\ Json.loads text = Raise e)))
     \/ (exists text v, redis_get key w = (Ok (Some text), w1)
                        /\ text <> [] /\ Json.loads text = Ok v
                        /\ get key w = (Ok (Some (length (heap w1))),
                                        set_heap (heap w1 ++ [v]) w1))).
Proof.
  intros Hu. unfold get. rewrite Hu. unfold try_except, bind.
  destruct (redis_get key w) as [[data|e] w1] eqn:E.
  - exists w1. split; [now apply redis_get_world in E|].
    destruct data as [[|c text]|].
    + left. split; [reflexivity|]. right. right. now left.
    + unfold lift. destruct (Json.loads (c :: text)) as [v|e] eqn:El.
      * right. exists (c :: text), v. now repeat split.
      * left. split; [reflexivity|]. right. right. right. eauto.
    + left. split; [reflexivity|]. right. now left.
  - exists w1. split; [now apply redis_get_world in E|].
    left. split; [reflexivity|]. left. eauto.
Qed.

Lemma get_local (key : str) (w : world) :
  use_redis (cache_manager w) = false ->
  get key w = (Ok (local_cache (cache_manager w) !! key), w).
Proof. intros Hu. unfold get. now rewrite Hu. Qed.

(** [get] never raises, and it leaves the Cache Store as it was. *)
Lemma get_total (key : str) (w : world) :
  exists r w1, get key w = (Ok r, w1)
    /\ cache_untouched w w1 /\ log w1 = log w /\ service w1 = service w
    /\ calls w1 = calls w.
Proof.
  destruct (use_redis (cache_manager w)) eqn:Hu.
  - destruct (get_shared key w Hu) as (w1 & Hs & [[Hg _]|(text & v & _ & _ & _ & Hg)]).
    + exists None, w1. split; [exact Hg|].
      destruct Hs as (Hc & Hr & Hm & Hh & Hl & Hsv & Hca).
      repeat split; try assumption. exists []. now rewrite app_nil_r.
    + eexists _, _. split; [exact Hg|].
      destruct Hs as (Hc & Hr & Hm & Hh & Hl & Hsv & Hca).
      repeat split; try assumption. cbn. exists [v]. now rewrite Hh.
  - exists (local_cache (cache_manager w) !! key), w.
    split; [now apply get_local|]. repeat split. exists []. now rewrite app_nil_r.
Qed.

(** C5: with the shared backend active, a lookup that raises, or that
    brings back a text [json.loads] refuses, makes [get] return None; no
    exception leaves [get], and nothing but the state of the network has
    changed. *)
Theorem get_fail_open (key : str) (w : world) :
  use_redis (cache_manager w) = true ->
  (exists e, fst (redis_get key w) = Raise e)
  \/ (exists text e, fst (redis_get key w) = Ok (Some text)
                     /\ Json.loads text = Raise e) ->
  exists w1, get key w = (Ok None, w1) /\ same_but_net w w1.
Proof.
  intros Hu H.
  destruct (get_shared key w Hu) as (w1 & Hs & [[Hg _]|(text & v & Hr & _ & Hl & _)]).
  - now exists w1.
  - exfalso. rewrite Hr in H. cbn [fst] in H.
    destruct H as [[e H]|(t & e & H & Hl')]; [discriminate|].
    injection H as <-. congruence.
Qed.

Lemma get_fail_open_witness :
  exists w1,
    get (lit "resume:v3:k") (shared_world [Some connection_error] []) = (Ok None, w1)
    /\ same_but_net (shared_world [Some connection_error] []) w1.
Proof.
  apply (get_fail_open (lit "resume:v3:k") (shared_world [Some connection_error] [])).
  - reflexivity.
  - left. exists connection_error. reflexivity.
Defined.

Lemma redis_setex_raise (key value : str) (seconds : Z) (w w1 : world) (e : exn) :
  redis_setex key seconds value w = (Raise e, w1) -> same_but_net w w1.
Proof.
  unfold redis_setex, bind, lift, raise.
  destruct (encode_utf8 key); [|intros [= <- <-]; apply same_but_net_refl].
  destruct (encode_utf8 value); [|intros [= <- <-]; apply same_but_net_refl].
  destruct (transmit w) as [[[]|e'] w2] eqn:E.
  - destruct (seconds <=? 0)%Z; [|discriminate].
    intros [= <- <-]. now apply transmit_world in E.
  - intros [= <- <-]. now apply transmit_world in E.
Qed.

Lemma redis_setex_ok (key value : str) (seconds : Z) (w w1 : world) :
  redis_setex key seconds value w = (Ok tt, w1) ->
  exists w0, same_but_net w w0 /\ transmit w = (Ok tt, w0)
    /\ w1 = set_redis (<[key := (value, (clock w + seconds)%Z)]> (redis w)) w0
    /\ (0 < seconds)%Z /\ enc_ok key = true /\ enc_ok value = true.
Proof.
  unfold redis_setex, bind, lift, raise, enc_ok.
  destruct (encode_utf8 key); [|discriminate].
  destruct (encode_utf8 value); [|discriminate].
  destruct (transmit w) as [[[]|e'] w2] eqn:E; [|discriminate].
  destruct (Z.leb_spec seconds 0); [discriminate|].
  intros [= <-]. exists w2. pose proof (transmit_world _ _ _ E) as Hs.
  destruct Hs as (Hc & Hr & Hrest).
  rewrite Hc, Hr. repeat split; try assumption; try reflexivity; apply Hrest.
Qed.

(** What [set] does, case by case. *)
Lemma set_cases (key : str) (data : loc) (expire : Z) (w : world) :
  exists w1, set key data expire w = (Ok tt, w1)
    /\ heap w1 = heap w /\ clock w1 = clock w
    /\ service w1 = service w /\ calls w1 = calls w
    /\ use_redis (cache_manager w1) = use_redis (cache_manager w)
    /\ ((use_redis (cache_manager w) = false
         /\ redis w1 = redis w /\ log w1 = log w /\ net w1 = net w
         /\ local_cache (cache_manager w1)
            = <[key := data]> (local_cache (cache_manager w)))
        \/ (use_redis (cache_manager w) = true
            /\ cache_manager w1 = cache_manager w
            /\ ((exists e w0,
                   redis_setex key expire (Json.dumps (deref data w)) w = (Raise e, w0)
                   /\ redis w1 = redis w
                   /\ log w1 = log w ++ [Log ERROR (lit "Redis Set Error: " ++ exn_msg e)])
                \/ (redis_setex key expire (Json.dumps (deref data w)) w = (Ok tt, w1)
                    /\ log w1 = log w
                    /\ redis w1 = <[key := (Json.dumps (deref data w),
                                            (clock w + expire)%Z)]> (redis w))))).
Proof.
  unfold set. destruct (use_redis (cache_manager w)) eqn:Hu.
  - unfold try_except.
    destruct (redis_setex key expire (Json.dumps (deref data w)) w)
      as [[[]|e] w0] eqn:E.
    + exists w0. split; [reflexivity|].
      apply redis_setex_ok in E as (w2 & Hs & _ & -> & _).
      destruct Hs as (Hc & Hr & Hm & Hh & Hl & Hsv & Hca). unfold logger. wsimpl.
      rewrite Hm, Hu. repeat split; try assumption.
      right. split; [reflexivity|]. split; [reflexivity|].
      right. split; [reflexivity|]. split; [exact Hl | reflexivity].
    + eexists. split; [reflexivity|].
      pose proof (redis_setex_raise _ _ _ _ _ _ E) as Hs.
      destruct Hs as (Hc & Hr & Hm & Hh & Hl & Hsv & Hca). unfold logger. wsimpl.
      rewrite Hm, Hu. repeat split; try assumption.
      right. split; [reflexivity|]. split; [reflexivity|].
      left. exists e, w0. rewrite Hl. now repeat split.
  - eexists. split; [reflexivity|]. wsimpl. repeat split; try assumption.
    left. now repeat split.
Qed.

(** C6: [set] returns normally on both backends, so what follows it in
    the request (the reply built from the fresh result) still happens; when
    the write to the shared backend raises, the exception is logged and the
    database is left as it was. *)
Theorem set_fail_silent (key : str) (data : loc) (expire : Z) (w : world) :
  exists w1,
    set key data expire w = (Ok tt, w1)
    /\ bind (set key data expire) (fun _ => jsonify data) w
       = (Ok {| body := deref data w; status := 200 |}, w1)
    /\ forall e w0,
         use_redis (cache_manager w) = true ->
         redis_setex key expire (Json.dumps (deref data w)) w = (Raise e, w0) ->
         log w1 = log w ++ [Log ERROR (lit "Redis Set Error: " ++ exn_msg e)]
         /\ redis w1 = redis w
         /\ cache_manager w1 = cache_manager w.
Proof.
  destruct (set_cases key data expire w)
    as (w1 & Hs & Hh & _ & _ & _ & _ & Hc).
  exists w1. split; [exact Hs|]. split.
  - unfold bind, jsonify, deref. now rewrite Hs, Hh.
  - intros e w0 Hu He.
    destruct Hc as [[Hu' _]|(_ & Hm & [(e' & w0' & He' & Hr & Hl)|(He' & _)])];
      [congruence| |congruence].
    rewrite He in He'. injection He' as <- <-. now repeat split.
Qed.

Lemma set_fail_silent_witness :
  exists w1,
    set (lit "resume:v3:k") 0%nat 3600 (shared_world [Some connection_error] [JDict []])
    = (Ok tt, w1)
    /\ log w1 = [Log ERROR (lit "Redis Set Error: " ++ exn_msg connection_error)]
    /\ redis w1 = ∅.
Proof.
  destruct (set_fail_silent (lit "resume:v3:k") 0%nat 3600
              (shared_world [Some connection_error] [JDict []]))
    as (w1 & Hs & _ & Hf).
  exists w1. split; [exact Hs|].
  destruct (Hf connection_error (shared_world [] [JDict []]) eq_refl eq_refl)
    as (Hl & Hr & _).
  split; [exact Hl | exact Hr].
Defined.

(** *** Texts that UTF-8 can encode *)

Lemma enc_ok_cons (c : N) (s : str) :
  enc_ok (c :: s) = match encode_char c with Some _ => enc_ok s | None => false end.
Proof.
  unfold enc_ok. cbn [encode_utf8].
  destruct (encode_char c); [|reflexivity]. now destruct (encode_utf8 s).
Qed.

Lemma enc_ok_app (a b : str) : enc_ok (a ++ b) = enc_ok a && enc_ok b.
Proof.
  induction a as [|c a IH]; [reflexivity|].
  cbn [app]. rewrite !enc_ok_cons. now destruct (encode_char c).
Qed.

Lemma enc_ok_ascii (c : N) (s : str) : (c < 128)%N -> enc_ok (c :: s) = enc_ok s.
Proof.
  intros H. rewrite enc_ok_cons. unfold encode_char.
  now replace (c <? 128)%N with true by (symmetry; now apply N.ltb_lt).
Qed.

Lemma escape_char_raw (c : N) :
  (32 <= c)%N -> c <> 34%N -> c <> 92%N -> Json.escape_char c = [c].
Proof.
  intros H1 H2 H3. unfold Json.escape_char.
  replace (c <? 32)%N with false by (symmetry; now apply N.ltb_ge).
  eqb_false. reflexivity.
Qed.

Lemma enc_ok_escape (c : N) : enc_ok [c] = true -> enc_ok (Json.escape_char c) = true.
Proof.
  destruct (N.ltb_spec c 32%N) as [Hlt|Hge].
  - intros _. pattern c. apply below_32; [|exact Hlt].
    intros i Hi. do 32 (destruct i as [|i]; [reflexivity|]). lia.
  - destruct (N.eq_dec c 34%N) as [->|H34]; [reflexivity|].
    destruct (N.eq_dec c 92%N) as [->|H92]; [reflexivity|].
    now rewrite escape_char_raw.
Qed.

Lemma enc_ok_escaped (s : str) :
  enc_ok s = true -> enc_ok (flat_map Json.escape_char s) = true.
Proof.
  induction s as [|c s IH]; [reflexivity|].
  change (c :: s) with ([c] ++ s). rewrite enc_ok_app. intros H.
  apply andb_true_iff in H as [Hc Hs].
  cbn [flat_map app]. rewrite enc_ok_app, enc_ok_escape, IH by assumption.
  reflexivity.
Qed.

Lemma enc_ok_dumps_str (s : str) : enc_ok s = true -> enc_ok (Json.dumps_str s) = true.
Proof.
  intros H. unfold Json.dumps_str. rewrite !enc_ok_app, enc_ok_escaped by exact H.
  reflexivity.
Qed.

Lemma enc_ok_uint (u : uint) : enc_ok (Json.uint_chars u) = true.
Proof.
  induction u; cbn [Json.uint_chars]; [reflexivity|..];
    rewrite enc_ok_ascii by lia; exact IHu.
Qed.

Lemma enc_ok_dumps_int (z : Z) : enc_ok (Json.dumps_int z) = true.
Proof.
  unfold Json.dumps_int. destruct (Z.to_int z).
  - apply enc_ok_uint.
  - rewrite enc_ok_ascii by lia. apply enc_ok_uint.
Qed.

Lemma enc_ok_join (sep : str) (l : list str) :
  enc_ok sep = true -> Forall (fun x => enc_ok x = true) l -> enc_ok (join sep l) = true.
Proof.
  intros Hs. induction 1 as [|x l Hx Hl IH]; [reflexivity|].
  destruct l as [|y l]; [exact Hx|].
  rewrite join_cons2, !enc_ok_app, Hx, Hs, IH. reflexivity.
Qed.

Lemma enc_ok_dumps (v : json) : encodable v = true -> enc_ok (Json.dumps v) = true.
Proof.
  induction v as [|b|z|lx|s|l IH|d IH] using json_ind;
    cbn [encodable Json.dumps]; intros H.
  - reflexivity.
  - now destruct b.
  - apply enc_ok_dumps_int.
  - exact H.
  - now apply enc_ok_dumps_str.
  - rewrite !enc_ok_app. rewrite enc_ok_join; [reflexivity..|].
    induction IH as [|v Hv l Hl IHl]; [constructor|].
    cbn [forallb] in H. apply andb_true_iff in H as [H1 H2].
    cbn [map]. constructor; [now apply Hv | now apply IHl].
  - rewrite !enc_ok_app. rewrite enc_ok_join; [reflexivity..|].
    induction IH as [|kv Hkv d Hd IHd]; [constructor|].
    cbn [forallb] in H. apply andb_true_iff in H as [H1 H2].
    destruct Hkv as [k _ v Hv]. cbn [fst snd] in *.
    apply andb_true_iff in H1 as [Hk Hvv].
    cbn [map]. constructor; [|now apply IHd].
    cbn [fst snd]. rewrite !enc_ok_app, enc_ok_dumps_str, Hv by assumption.
    reflexivity.
Qed.

(** *** Round trip *)

Lemma transmit_reachable (n : nat) (w : world) :
  reachable (S n) w = true ->
  exists w1, transmit w = (Ok tt, w1) /\ same_but_net w w1 /\ reachable n w1 = true.
Proof.
  unfold reachable, transmit. destruct (net w) as [|[e|] rest] eqn:E.
  - intros _. exists w. split; [reflexivity|]. split; [apply same_but_net_refl|].
    rewrite E. now destruct n.
  - discriminate.
  - cbn [take forallb andb]. intros H. exists (set_net rest w).
    split; [reflexivity|]. split; [now repeat split|]. exact H.
Qed.

Lemma redis_setex_success (key value : str) (seconds : Z) (n : nat) (w : world) :
  enc_ok key = true -> enc_ok value = true -> (0 < seconds)%Z ->
  reachable (S n) w = true ->
  exists w0, same_but_net w w0 /\ reachable n w0 = true
    /\ redis_setex key seconds value w
       = (Ok tt, set_redis (<[key := (value, (clock w + seconds)%Z)]> (redis w)) w0).
Proof.
  unfold enc_ok. intros Hk Hv Hs Hn.
  destruct (transmit_reachable n w Hn) as (w0 & Ht & Hsame & Hr).
  exists w0. split; [exact Hsame|]. split; [exact Hr|].
  unfold redis_setex, bind, lift.
  destruct (encode_utf8 key); [|discriminate].
  destruct (encode_utf8 value); [|discriminate].
  rewrite Ht. destruct (Z.leb_spec seconds 0); [lia|].
  destruct Hsame as (Hc & Hrd & _). now rewrite Hc, Hrd.
Qed.

Lemma redis_get_success (key : str) (n : nat) (w : world) :
  enc_ok key = true -> reachable (S n) w = true ->
  exists w0, same_but_net w w0 /\ reachable n w0 = true
    /\ redis_get key w = (Ok (shared_value w key), w0).
Proof.
  unfold enc_ok. intros Hk Hn.
  destruct (transmit_reachable n w Hn) as (w0 & Ht & Hsame & Hr).
  exists w0. split; [exact Hsame|]. split; [exact Hr|].
  unfold redis_get, bind, lift, shared_value.
  destruct (encode_utf8 key); [|discriminate].
  rewrite Ht. destruct Hsame as (Hc & Hrd & _). now rewrite Hc, Hrd.
Qed.




Lemma enc_ok_below_128 (s : str) :
  Forall (fun c => (c < 128)%N) s -> enc_ok s = true.
Proof.
  induction 1 as [|c s Hc Hs IH]; [reflexivity|]. now rewrite enc_ok_ascii.
Qed.

Lemma enc_ok_hex (bs : bytes) : enc_ok (MD5.hex bs) = true.
Proof.
  apply enc_ok_below_128. eapply Forall_impl; [apply hex_is_hex|].
  intros c Hc. cbv beta in Hc. unfold is_hex_digit in Hc.
  apply orb_true_iff in Hc as [Hc|Hc]; apply andb_true_iff in Hc as [_ Hc];
    apply N.leb_le in Hc; lia.
Qed.

(** A key is plain ASCII. *)
Lemma generate_key_enc_ok (file_bytes : bytes) (jd key : str) :
  generate_key file_bytes jd = Ok key -> enc_ok key = true.
Proof.
  unfold generate_key. destruct (encode_utf8 jd) as [enc|]; [|discriminate].
  intros H.
  replace key
    with (key_namespace ++ MD5.hexdigest file_bytes ++ lit ":" ++ MD5.hexdigest enc)
    by congruence.
  unfold MD5.hexdigest. now rewrite !enc_ok_app, !enc_ok_hex.
Qed.


End CacheStore.

(** ** Text extraction *)

Section Extractor.

Variable PdfReader : bytes -> outcome (list (outcome (option str))).

Lemma page_texts_ok (ts : list (option str)) :
  page_texts (map Ok ts)
  = Ok (map (fun t => match t with Some s => s | None => [] end) ts).
Proof.
  induction ts as [|t ts IH]; [reflexivity|].
  cbn [map page_texts]. rewrite IH. now destruct t as [[|c s]|].
Qed.

(** What the extractor does, case by case. *)
Lemma extract_text_cases (file_bytes : bytes) (w : world) :
  (exists pages texts,
     PdfReader file_bytes = Ok pages /\ page_texts pages = Ok texts
     /\ extract_text_from_pdf PdfReader file_bytes w = (Ok (join [10%N] texts), w))
  \/ (exists e,
        (PdfReader file_bytes = Raise e
         \/ exists pages, PdfReader file_bytes = Ok pages /\ page_texts pages = Raise e)
        /\ extract_text_from_pdf PdfReader file_bytes w
           = (Ok [], set_log (log w ++ [Log ERROR (lit "PDF Error: " ++ exn_msg e)]) w)).
Proof.
  unfold extract_text_from_pdf, try_except, bind, lift.
  destruct (PdfReader file_bytes) as [pages|e] eqn:Ep.
  - destruct (page_texts pages) as [texts|e] eqn:Et.
    + left. exists pages, texts. now repeat split.
    + right. exists e. split; [right; eauto|reflexivity].
  - right. exists e. split; [now left|reflexivity].
Qed.

(** A page that raises ends the comprehension: the pages after it are not
    read. *)
Lemma page_texts_raise (ts : list (option str)) (e : exn)
    (rest : list (outcome (option str))) :
  page_texts (map Ok ts ++ Raise e :: rest) = Raise e.
Proof.
  induction ts as [|t ts IH]; [reflexivity|].
  cbn [map app page_texts]. now rewrite IH.
Qed.

(** C8: on every byte sequence the extractor returns a string and raises
    nothing. When the reader gives pages whose texts can all be extracted,
    the string is those texts in page order, joined by newlines (a page
    without text counting as the empty string) and nothing else happens.
    When the reader raises, or one of its pages does, the string is empty,
    whatever the pages before and after that one hold, and the failure
    (the first one) is logged. *)
Theorem extract_text_never_raises (file_bytes : bytes) (w : world) :
  exists s w1,
    extract_text_from_pdf PdfReader file_bytes w = (Ok s, w1)
    /\ (forall ts, PdfReader file_bytes = Ok (map Ok ts) ->
          s = join [10%N] (map (fun t => match t with Some x => x | None => [] end) ts)
          /\ w1 = w)
    /\ (forall e,
          PdfReader file_bytes = Raise e
          \/ (exists ts rest, PdfReader file_bytes = Ok (map Ok ts ++ Raise e :: rest)) ->
          s = [] /\ w1 = set_log (log w ++ [Log ERROR (lit "PDF Error: " ++ exn_msg e)]) w).
Proof.
  destruct (extract_text_cases file_bytes w)
    as [(pages & texts & Hp & Ht & He)|(e & Hf & He)].
  - exists (join [10%N] texts), w. split; [exact He|]. split.
    + intros ts Hts. rewrite Hts in Hp. injection Hp as <-.
      rewrite page_texts_ok in Ht. injection Ht as <-. now split.
    + intros e [Hr|(ts & rest & Hp')]; [congruence|].
      rewrite Hp in Hp'. injection Hp' as ->.
      rewrite page_texts_raise in Ht. discriminate.
  - eexists _, _. split; [exact He|]. split.
    + intros ts Hts. exfalso. destruct Hf as [Hr|(pages & Hp & Hr)]; [congruence|].
      rewrite Hts in Hp. injection Hp as <-. rewrite page_texts_ok in Hr. discriminate.
    + intros e' Hf'. split; [reflexivity|].
      assert (e' = e); [|now subst].
      destruct Hf as [Hr|(pages & Hp & Hr)], Hf' as [Hr'|(ts & rest & Hp')];
        try congruence.
      rewrite Hp in Hp'. injection Hp' as ->.
      rewrite page_texts_raise in Hr. congruence.
Qed.

End Extractor.

Lemma extract_text_never_raises_witness :
  (exists s w1,
     extract_text_from_pdf sample_reader (ascii_bytes "%PDF-1.4") (empty_world false)
     = (Ok s, w1)
     /\ s = lit "Jane Doe" ++ [10%N] ++ [10%N] ++ lit "Python, Go"
     /\ w1 = empty_world false)
  /\ (exists s w1,
        extract_text_from_pdf torn_reader (ascii_bytes "%PDF-1.4") (empty_world false)
        = (Ok s, w1)
        /\ s = []
        /\ w1 = set_log [Log ERROR (lit "PDF Error: Unsupported filter")]
                   (empty_world false)).
Proof.
  split.
  - destruct (extract_text_never_raises sample_reader (ascii_bytes "%PDF-1.4")
                (empty_world false)) as (s & w1 & He & Hok & _).
    exists s, w1. split; [exact He|].
    apply (Hok [Some (lit "Jane Doe"); None; Some (lit "Python, Go")]). reflexivity.
  - destruct (extract_text_never_raises torn_reader (ascii_bytes "%PDF-1.4")
                (empty_world false)) as (s & w1 & He & _ & Hfail).
    exists s, w1. split; [exact He|].
    apply (Hfail (Exn PdfError (lit "Unsupported filter"))).
    right. exists [Some (lit "Jane Doe")], [Ok (Some (lit "Python, Go"))]. reflexivity.
Defined.

(** ** Normalization of the model output *)

Section Normalizer.

Lemma starts_with_app (n a : str) : starts_with n (n ++ a) = true.
Proof.
  induction n as [|c n IH]; [reflexivity|].
  cbn [app starts_with]. now rewrite N.eqb_refl, IH.
Qed.

Lemma starts_with_true (n s : str) :
  starts_with n s = true -> s = n ++ drop (length n) s.
Proof.
  revert s. induction n as [|c n IH]; intros s H; [reflexivity|].
  destruct s as [|d s]; [discriminate|].
  cbn [starts_with] in H. apply andb_true_iff in H as [Hc Hs].
  apply N.eqb_eq in Hc as ->. cbn [length drop app]. now rewrite <- IH.
Qed.

Lemma find_sub_unfold (n s : str) :
  find_sub n s
  = if starts_with n s then Some ([], drop (length n) s)
    else match s with
         | [] => None
         | c :: r =>
             match find_sub n r with
             | Some (before, after) => Some (c :: before, after)
             | None => None
             end
         end.
Proof. now destruct s. Qed.

Lemma find_sub_Some (n s b a : str) :
  find_sub n s = Some (b, a) -> first_split n s b a.
Proof.
  revert b. induction s as [|c r IH]; intros b; rewrite find_sub_unfold;
    destruct (starts_with n _) eqn:Hs; try discriminate.
  - intros [= <- <-]. split; [now apply starts_with_true|]. intros; cbn; lia.
  - intros [= <- <-]. split; [now apply starts_with_true|]. intros; cbn; lia.
  - destruct (find_sub n r) as [[b0 a0]|] eqn:Hf; [|discriminate].
    intros [= <- <-]. destruct (IH b0 eq_refl) as [Hr Hmin]. split.
    + cbn [app]. now rewrite <- Hr.
    + intros b' a' Hb'. destruct b' as [|c' b''].
      * cbn [app] in Hb'. rewrite Hb', starts_with_app in Hs. discriminate.
      * cbn [app] in Hb'. injection Hb' as _ Hb'.
        specialize (Hmin b'' a' Hb'). cbn [length]. lia.
Qed.

Lemma find_sub_None (n s : str) : find_sub n s = None -> ~ occurs n s.
Proof.
  induction s as [|c r IH]; rewrite find_sub_unfold;
    destruct (starts_with n _) eqn:Hs; try discriminate.
  - intros _ (b & a & H). destruct b; [|discriminate].
    cbn [app] in H. rewrite H, starts_with_app in Hs. discriminate.
  - destruct (find_sub n r) as [[b0 a0]|] eqn:Hf; [discriminate|].
    intros _ (b & a & H). destruct b as [|c' b'].
    + cbn [app] in H. rewrite H, starts_with_app in Hs. discriminate.
    + cbn [app] in H. injection H as _ H. apply IH; [reflexivity|].
      now exists b', a.
Qed.

Lemma find_sub_first (n s b a : str) :
  first_split n s b a -> find_sub n s = Some (b, a).
Proof.
  intros [Hs Hmin].
  destruct (find_sub n s) as [[b' a']|] eqn:Hf.
  - apply find_sub_Some in Hf as [Hs' Hmin'].
    pose proof (Hmin b' a' Hs'). pose proof (Hmin' b a Hs).
    rewrite Hs in Hs'. apply app_inj_1 in Hs' as [-> Ha]; [|lia].
    apply app_inv_head in Ha as ->. reflexivity.
  - exfalso. apply (find_sub_None n s Hf). now exists b, a.
Qed.

Lemma contains_occurs (n s : str) : contains n s = true <-> occurs n s.
Proof.
  unfold contains. destruct (find_sub n s) as [[b a]|] eqn:Hf.
  - split; [|reflexivity]. intros _. apply find_sub_Some in Hf as [Hs _].
    now exists b, a.
  - split; [discriminate|]. intros H. now apply find_sub_None in Hf.
Qed.

(** *** What [strip] removes *)

Lemma lstrip_spec (s : str) :
  exists l, s = l ++ lstrip s /\ forallb isspace l = true.
Proof.
  induction s as [|c s (l & Hs & Hl)]; [now exists []|].
  cbn [lstrip]. destruct (isspace c) eqn:Hc.
  - exists (c :: l). cbn [app forallb]. now rewrite Hc, <- Hs.
  - now exists [].
Qed.

Lemma lstrip_head (s : str) :
  match lstrip s with c :: _ => isspace c = false | [] => True end.
Proof.
  induction s as [|c s IH]; [exact I|].
  cbn [lstrip]. now destruct (isspace c) eqn:Hc.
Qed.

Lemma lstrip_keeps_last (x : str) (c : N) :
  isspace c = false -> exists y, lstrip (x ++ [c]) = y ++ [c].
Proof.
  intros Hc. induction x as [|d x (y & IH)].
  - exists []. cbn. now rewrite Hc.
  - cbn [app lstrip]. destruct (isspace d); [now exists y|now exists (d :: x)].
Qed.

(** The stripped text is the raw one without the white space at its two
    ends, and has none there. *)
Lemma strip_spec (raw : str) :
  exists l r,
    raw = l ++ strip raw ++ r
    /\ forallb isspace l = true /\ forallb isspace r = true
    /\ match strip raw with c :: _ => isspace c = false | [] => True end
    /\ match rev (strip raw) with c :: _ => isspace c = false | [] => True end.
Proof.
  destruct (lstrip_spec raw) as (l & Hl & Hls).
  destruct (lstrip_spec (rev (lstrip raw))) as (r & Hr & Hrs).
  exists l, (rev r). unfold strip, rstrip.
  split.
  { rewrite Hl at 1. f_equal. rewrite <- rev_app_distr, <- Hr.
    now rewrite rev_involutive. }
  split; [exact Hls|]. split.
  { rewrite forallb_forall in *. intros x Hx. apply Hrs. now apply in_rev. }
  split.
  - pose proof (lstrip_head raw) as Hh.
    destruct (lstrip raw) as [|c t]; [exact I|].
    cbn [rev]. destruct (lstrip_keeps_last (rev t) c Hh) as (y & ->).
    rewrite rev_app_distr. exact Hh.
  - rewrite rev_involutive. apply lstrip_head.
Qed.

(** *** The three cases of the normalizer *)

Lemma normalize_no_fence (raw : str) :
  ~ occurs fence_open (strip raw) ->
  normalize (JStr raw) = Json.loads (strip raw).
Proof.
  intros H. unfold normalize.
  destruct (contains fence_open (strip raw)) eqn:Hc; [|reflexivity].
  now apply contains_occurs in Hc.
Qed.

Lemma normalize_fenced (raw before rest inner after : str) :
  first_split fence_open (strip raw) before rest ->
  first_split fence_close rest inner after ->
  normalize (JStr raw) = Json.loads inner.
Proof.
  intros H1 H2. unfold normalize, contains, re_search_fence.
  now rewrite (find_sub_first _ _ _ _ H1), (find_sub_first _ _ _ _ H2).
Qed.

Lemma normalize_unclosed (raw before rest : str) :
  first_split fence_open (strip raw) before rest ->
  ~ occurs fence_close rest ->
  exists m, normalize (JStr raw) = Raise (Exn AttributeError m).
Proof.
  intros H1 H2. unfold normalize, contains, re_search_fence.
  rewrite (find_sub_first _ _ _ _ H1).
  destruct (find_sub fence_close rest) as [[i a]|] eqn:Hf; [|eauto].
  exfalso. apply H2. apply find_sub_Some in Hf as [Hs _]. now exists i, a.
Qed.

(** Whatever the normalizer returns was parsed from the stripped reply or
    from a part of it: nothing is made up when parsing fails. *)
Lemma normalize_ok (raw : str) (v : json) :
  normalize (JStr raw) = Ok v ->
  Json.loads (strip raw) = Ok v
  \/ exists before inner after,
       strip raw = before ++ fence_open ++ inner ++ fence_close ++ after
       /\ Json.loads inner = Ok v.
Proof.
  unfold normalize, contains, re_search_fence.
  destruct (find_sub fence_open (strip raw)) as [[b rest]|] eqn:H1; [|now left].
  destruct (find_sub fence_close rest) as [[inner a]|] eqn:H2; [|discriminate].
  intros H. right. exists b, inner, a. split; [|exact H].
  apply find_sub_Some in H1 as [-> _]. apply find_sub_Some in H2 as [-> _].
  reflexivity.
Qed.

Example normalize_fenced_output :
  normalize (JStr fenced_output) = Ok sample_result.
Proof. vm_compute. reflexivity. Qed.

Example normalize_bare_output :
  normalize (JStr bare_output) = Ok sample_result.
Proof. vm_compute. reflexivity. Qed.

Example normalize_not_json :
  normalize (JStr (lit "The candidate is a good match."))
  = Raise (Json.decode_error "Expecting value").
Proof. vm_compute. reflexivity. Qed.

(** C4, where the code departs from it: the reply [{"a": "```json"}] is a
    JSON document and holds no fenced block, yet the opening marker inside
    its string sends the normalizer to the fence pattern, which does not
    match, and the step ends in an AttributeError instead of the mapping. *)
Theorem normalize_marker_without_fence :
  strip marker_in_string_output = marker_in_string_output
  /\ Json.loads marker_in_string_output = Ok (JDict [(lit "a", JStr (lit "```json"))])
  /\ contains fence_open marker_in_string_output = true
  /\ re_search_fence marker_in_string_output = None
  /\ normalize (JStr marker_in_string_output)
     = Raise (Exn AttributeError (lit "'NoneType' object has no attribute 'group'")).
Proof. repeat split; vm_compute; reflexivity. Qed.

End Normalizer.

(** ** The request pipeline *)

Section PipelineFacts.

Variable PdfReader : bytes -> outcome (list (outcome (option str))).
Variable QWEN_API_KEY : str.
Variables prompt_head prompt_mid prompt_tail : str.

Local Abbreviation call := (call_qwen_analysis QWEN_API_KEY prompt_head prompt_mid prompt_tail).
Local Abbreviation prompt := (build_prompt prompt_head prompt_mid prompt_tail).
Local Abbreviation miss :=
  (analyze_miss PdfReader QWEN_API_KEY prompt_head prompt_mid prompt_tail).
Local Abbreviation run :=
  (analyze PdfReader QWEN_API_KEY prompt_head prompt_mid prompt_tail).

Lemma cache_untouched_refl (w : world) : cache_untouched w w.
Proof. repeat split. exists []. now rewrite app_nil_r. Qed.

Lemma cache_untouched_trans (w1 w2 w3 : world) :
  cache_untouched w1 w2 -> cache_untouched w2 w3 -> cache_untouched w1 w3.
Proof.
  intros (Hc & Hr & Hm & m & Hh) (Hc' & Hr' & Hm' & m' & Hh').
  repeat split; try congruence.
  exists (m ++ m'). now rewrite Hh', Hh, app_assoc.
Qed.

Lemma cache_untouched_log (l : list log_record) (w : world) :
  cache_untouched w (set_log l w).
Proof. untouched. Qed.

(** What the remote call does, case by case. *)
Lemma call_cases (resume_text jd : str) (w : world) :
  (QWEN_API_KEY = []
   /\ call resume_text jd w = (Raise (Exn PlainException missing_key_msg), w))
  \/ (QWEN_API_KEY <> []
      /\ exists w1, cache_untouched w w1 /\ heap w1 = heap w /\ net w1 = net w
         /\ service w1 = tail (service w)
         /\ ((exists raw, call resume_text jd w = (Ok raw, w1)
                /\ calls w1 = calls w ++ [(prompt resume_text jd, Ok raw)]
                /\ log w1 = log w
                /\ exists rest, service w = Ok raw :: rest)
             \/ (exists e, call resume_text jd w = (Raise e, w1)
                   /\ calls w1 = calls w ++ [(prompt resume_text jd, Raise e)]))).
Proof.
  unfold call_qwen_analysis. destruct QWEN_API_KEY as [|k ks]; [now left|].
  right. split; [discriminate|].
  unfold try_except, post.
  destruct (service w) as [|[raw|e] rest] eqn:Es.
  - eexists. split; [|split; [|split; [|split]]]; cycle 4.
    + right. eexists. split; [reflexivity|]. reflexivity.
    + untouched.
    + reflexivity.
    + reflexivity.
    + reflexivity.
  - eexists. split; [|split; [|split; [|split]]]; cycle 4.
    + left. exists raw. split; [reflexivity|]. split; [reflexivity|].
      split; [reflexivity|]. now exists rest.
    + untouched.
    + reflexivity.
    + reflexivity.
    + reflexivity.
  - eexists. split; [|split; [|split; [|split]]]; cycle 4.
    + right. exists e. split; [reflexivity|]. reflexivity.
    + untouched.
    + reflexivity.
    + reflexivity.
    + reflexivity.
Qed.

Lemma extract_text_frame (file_bytes : bytes) (w : world) :
  exists s w1,
    extract_text_from_pdf PdfReader file_bytes w = (Ok s, w1)
    /\ cache_untouched w w1 /\ heap w1 = heap w /\ calls w1 = calls w
    /\ service w1 = service w /\ net w1 = net w.
Proof.
  destruct (extract_text_cases PdfReader file_bytes w)
    as [(pages & texts & _ & _ & He)|(e & _ & He)];
    eexists _, _; (split; [exact He|]); (split; [untouched|]); now repeat split.
Qed.

Lemma lookup_new (h : list json) (v : json) : (h ++ [v]) !! length h = Some v.
Proof. now rewrite lookup_app_r, Nat.sub_diag. Qed.

(** What the miss path does, case by case: it stops on a blank text, or
    raises before, in or after the remote call, or goes through. *)
Lemma miss_cases (file_bytes : bytes) (jd key : str) (w : world) :
  exists r w',
    miss file_bytes jd key w = (r, w')
    /\ ((exists resp, r = Ok resp /\ status resp = 400%Z /\ is_error resp
           /\ calls w' = calls w /\ cache_untouched w w')
        \/ (exists e, r = Raise e /\ calls w' = calls w /\ cache_untouched w w')
        \/ (exists p e, r = Raise e /\ calls w' = calls w ++ [(p, Raise e)]
              /\ cache_untouched w w')
        \/ (exists p raw e, r = Raise e /\ calls w' = calls w ++ [(p, Ok raw)]
              /\ normalize raw = Raise e /\ cache_untouched w w')
        \/ (exists p raw v, r = Ok {| body := v; status := 200%Z |}
              /\ calls w' = calls w ++ [(p, Ok raw)] /\ normalize raw = Ok v)).
Proof.
  unfold analyze_miss, bind.
  destruct (extract_text_frame file_bytes w) as (s & w1 & He & Hu1 & Hh1 & Hc1 & _).
  rewrite He. destruct (strip s) as [|c t].
  { eexists _, _. split; [reflexivity|]. left. eexists. split; [reflexivity|].
    split; [reflexivity|]. split; [now eexists|]. now split. }
  destruct (call_cases s jd w1)
    as [[_ Hk]|(_ & w2 & Hu2 & Hh2 & _ & _ &
                [(raw & Hcall & Hc2 & _)|(e & Hcall & Hc2)])];
    rewrite ?Hk, ?Hcall.
  - eexists _, _. split; [reflexivity|]. right. left. eexists.
    split; [reflexivity|]. now split.
  - unfold lift. destruct (normalize raw) as [v|e] eqn:En.
    + unfold new.
      destruct (set_cases key (length (heap w2)) 3600 (set_heap (heap w2 ++ [v]) w2))
        as (w4 & Hs & Hh4 & _).
      rewrite Hs. unfold jsonify, deref. rewrite Hh4. cbn [heap set_heap].
      rewrite lookup_new.
      eexists _, _. split; [reflexivity|]. do 4 right. exists (prompt s jd), raw, v.
      split; [reflexivity|]. split; [|exact En].
      destruct (set_cases key (length (heap w2)) 3600 (set_heap (heap w2 ++ [v]) w2))
        as (w4' & Hs' & _ & _ & _ & Hc4 & _).
      rewrite Hs in Hs'. injection Hs' as <-. rewrite Hc4. cbn [calls set_heap].
      now rewrite Hc2, Hc1.
    + eexists _, _. split; [reflexivity|]. do 3 right. left.
      exists (prompt s jd), raw, e. split; [reflexivity|].
      split; [now rewrite Hc2, Hc1|]. split; [exact En|].
      now apply (cache_untouched_trans w w1 w2).
  - eexists _, _. split; [reflexivity|]. right. right. left.
    exists (prompt s jd), e. split; [reflexivity|].
    split; [now rewrite Hc2, Hc1|]. now apply (cache_untouched_trans w w1 w2).
Qed.


Lemma hit_calls (obj : loc) (w : world) (r : outcome response) (w' : world) :
  analyze_hit obj w = (r, w') -> calls w' = calls w.
Proof.
  unfold analyze_hit, bind, logger, setitem, jsonify.
  destruct (deref obj _); intros [= <- <-]; reflexivity.
Qed.

(** What a request does, seen from the remote calls it makes: none; one
    that raises; one whose reply cannot be normalized; one that goes
    through. *)
Lemma analyze_cases (req : request) (w : world) :
  exists resp w',
    run req w = (Ok resp, w')
    /\ (calls w' = calls w
        \/ (exists p e, calls w' = calls w ++ [(p, Raise e)]
              /\ status resp = 500%Z /\ is_error resp /\ cache_untouched w w')
        \/ (exists p raw e, calls w' = calls w ++ [(p, Ok raw)]
              /\ normalize raw = Raise e
              /\ status resp = 500%Z /\ is_error resp /\ cache_untouched w w')
        \/ (exists p raw v, calls w' = calls w ++ [(p, Ok raw)]
              /\ normalize raw = Ok v
              /\ resp = {| body := v; status := 200%Z |})).
Proof.
  unfold analyze. unfold bind at 1. unfold logger at 1.
  set (w0 := set_log _ w).
  assert (Hw0 : cache_untouched w w0 /\ calls w0 = calls w) by (split; [untouched|reflexivity]).
  destruct Hw0 as [Hu0 Hc0]. clearbody w0.
  unfold try_except.
  destruct (req_file req) as [file_bytes|].
  2:{ eexists _, _. split; [reflexivity|]. now left. }
  destruct file_bytes as [|b0 bs].
  { eexists _, _. split; [reflexivity|]. now left. }
  unfold bind at 1. unfold lift at 1.
  destruct (generate_key (b0 :: bs) _) as [key|e].
  2:{ eexists _, _. split; [reflexivity|]. now left. }
  unfold bind at 1.
  destruct (get_total key w0) as (r & w1 & Hg & Hu1 & _ & _ & Hc1).
  rewrite Hg.
  assert (Hmiss :
    exists resp w',
      match miss (b0 :: bs) match req_jd req with Some t => t | None => [] end key w1 with
      | (Ok a, w'0) => (Ok a, w'0)
      | (Raise e, w'0) => analyze_except e w'0
      end = (Ok resp, w')
      /\ (calls w' = calls w
          \/ (exists p e, calls w' = calls w ++ [(p, Raise e)]
                /\ status resp = 500%Z /\ is_error resp /\ cache_untouched w w')
          \/ (exists p raw e, calls w' = calls w ++ [(p, Ok raw)]
                /\ normalize raw = Raise e
                /\ status resp = 500%Z /\ is_error resp /\ cache_untouched w w')
          \/ (exists p raw v, calls w' = calls w ++ [(p, Ok raw)]
                /\ normalize raw = Ok v
                /\ resp = {| body := v; status := 200%Z |}))).
  { assert (Hu : cache_untouched w w1) by now apply (cache_untouched_trans w w0 w1).
    destruct (miss_cases (b0 :: bs) match req_jd req with Some t => t | None => [] end
                key w1) as (rm & wm & Hm & Hcases).
    rewrite Hm.
    destruct Hcases as
      [(resp & -> & _ & _ & Hc & _)
      |[(e & -> & Hc & Hum)
       |[(p & e & -> & Hc & Hum)
        |[(p & raw & e & -> & Hc & Hn & Hum)
         |(p & raw & v & -> & Hc & Hn)]]]].
    - eexists _, _. split; [reflexivity|]. left. congruence.
    - eexists _, _. split; [reflexivity|]. left. cbn [calls set_log]. congruence.
    - eexists _, _. split; [reflexivity|]. right. left. exists p, e.
      split; [cbn [calls set_log]; congruence|]. split; [reflexivity|].
      split; [now eexists|].
      apply (cache_untouched_trans w wm); [|untouched].
      now apply (cache_untouched_trans w w1 wm).
    - eexists _, _. split; [reflexivity|]. right. right. left. exists p, raw, e.
      split; [cbn [calls set_log]; congruence|]. split; [exact Hn|].
      split; [reflexivity|]. split; [now eexists|].
      apply (cache_untouched_trans w wm); [|untouched].
      now apply (cache_untouched_trans w w1 wm).
    - eexists _, _. split; [reflexivity|]. do 3 right. exists p, raw, v.
      split; [congruence|]. now split. }
  destruct r as [obj|]; [|exact Hmiss].
  destruct (truthy (deref obj w1)); [|exact Hmiss].
  destruct (analyze_hit obj w1) as [[resp|e] w2] eqn:Hh; apply hit_calls in Hh.
  - eexists _, _. split; [reflexivity|]. left. congruence.
  - eexists _, _. split; [reflexivity|]. left. cbn [calls set_log]. congruence.
Qed.

(** C7: when the remote call of a request raises, or returns a reply that
    normalization refuses, the request ends in an error reply (status 500,
    a body holding only the message) and the Cache Store holds what it held:
    same shared database, same local mapping, every object unchanged. *)
Theorem analyze_error_atomic (req : request) (w w' : world) (resp : response) :
  run req w = (Ok resp, w') ->
  (exists p e, calls w' = calls w ++ [(p, Raise e)])
  \/ (exists p raw e, calls w' = calls w ++ [(p, Ok raw)] /\ normalize raw = Raise e) ->
  status resp = 500%Z /\ is_error resp /\ cache_untouched w w'
  /\ forall key,
       shared_value w' key = shared_value w key
       /\ (refs_valid w -> local_value w' key = local_value w key).
Proof.
  intros Hrun Hfail.
  assert (H : status resp = 500%Z /\ is_error resp /\ cache_untouched w w').
  { destruct (analyze_cases req w) as (resp' & w'' & Hrun' & Hcases).
    rewrite Hrun in Hrun'. injection Hrun' as <- <-.
    destruct Hcases as [Hc|[(p & e & Hc & H)|[(p & raw & e & Hc & Hn & H)
                                              |(p & raw & v & Hc & Hn & _)]]].
    - exfalso. destruct Hfail as [(p & e & Hf)|(p & raw & e & Hf & _)];
        rewrite Hc in Hf; apply (f_equal length) in Hf;
        rewrite length_app in Hf; cbn in Hf; lia.
    - exact H.
    - exact H.
    - exfalso. destruct Hfail as [(p' & e & Hf)|(p' & raw' & e & Hf & Hn')];
        rewrite Hc in Hf; apply app_inj_tail in Hf as [_ Hf]; congruence. }
  destruct H as (Hs & He & Hu).
  split; [exact Hs|]. split; [exact He|]. split; [exact Hu|]. intros key. split.
  - destruct Hu as (Hc & Hr & _). unfold shared_value. now rewrite Hc, Hr.
  - intros Hv. destruct Hu as (_ & _ & Hm & more & Hh).
    unfold local_value. rewrite Hm.
    destruct (local_cache (cache_manager w) !! key) as [l|] eqn:El; [|reflexivity].
    f_equal. unfold deref. rewrite Hh.
    apply (map_Forall_lookup_1 _ _ _ _ Hv) in El.
    now rewrite lookup_app_l.
Qed.


End PipelineFacts.

Lemma analyze_error_atomic_witness :
  status (error_response (lit "Read timed out.") 500) = 500%Z
  /\ is_error (error_response (lit "Read timed out.") 500)
  /\ cache_untouched (service_world false [Raise timeout_error])
       (snd (sample_run sample_request (service_world false [Raise timeout_error])))
  /\ forall key,
       shared_value
         (snd (sample_run sample_request (service_world false [Raise timeout_error]))) key
       = shared_value (service_world false [Raise timeout_error]) key
       /\ (refs_valid (service_world false [Raise timeout_error]) ->
           local_value
             (snd (sample_run sample_request (service_world false [Raise timeout_error])))
             key
           = local_value (service_world false [Raise timeout_error]) key).
Proof.
  apply (analyze_error_atomic sample_reader (lit "sk-test")
           (lit "Compare. JD: ") (lit " Resume: ") (lit " Answer in JSON.")
           sample_request (service_world false [Raise timeout_error])).
  - vm_compute. reflexivity.
  - left. exists sample_prompt, timeout_error. vm_compute. reflexivity.
Defined.


(** ** Cache hits *)

Section Hits.

Variable PdfReader : bytes -> outcome (list (outcome (option str))).
Variable QWEN_API_KEY : str.
Variables prompt_head prompt_mid prompt_tail : str.

Local Abbreviation run :=
  (analyze PdfReader QWEN_API_KEY prompt_head prompt_mid prompt_tail).
Local Abbreviation miss :=
  (analyze_miss PdfReader QWEN_API_KEY prompt_head prompt_mid prompt_tail).
Local Abbreviation prompt := (build_prompt prompt_head prompt_mid prompt_tail).

(** The hit branch on a dict: the flag goes into the object the reference
    points to, and the reply is that object. *)
Lemma analyze_hit_dict (obj : loc) (d : list (str * json)) (w : world) :
  heap w !! obj = Some (JDict d) ->
  exists w',
    analyze_hit obj w
    = (Ok {| body := JDict (dict_set (lit "_is_cached") (JBool true) d); status := 200 |}, w')
    /\ heap w' = <[obj := JDict (dict_set (lit "_is_cached") (JBool true) d)]> (heap w)
    /\ cache_manager w' = cache_manager w /\ redis w' = redis w
    /\ clock w' = clock w /\ calls w' = calls w.
Proof.
  intros Hd. unfold analyze_hit, bind, logger, setitem, jsonify, deref.
  cbn [heap set_log]. rewrite Hd. cbn [heap set_heap].
  rewrite list_lookup_insert_eq by (now apply lookup_lt_Some in Hd).
  eexists. split; [reflexivity|]. now repeat split.
Qed.

Lemma dict_set_In (k : str) (v : json) (d : list (str * json)) :
  In (k, v) (dict_set k v d).
Proof.
  induction d as [|[k' v'] d IH]; [now left|].
  cbn [dict_set]. destruct (decide (k = k')) as [<-|Hne]; [now left|now right].
Qed.

(** C2, where the code departs from it: on the local backend [get] hands
    out the stored object itself, not a copy, so a hit on a stored dict
    writes [_is_cached] into the entry. The reply carries the flag, and so
    does the value the Cache Store holds under the key afterwards, which
    did not hold it before unless it was there already. The document is not
    read on the way, and no remote call is made. *)
Theorem hit_local (req : request) (file_bytes : bytes) (key : str) (obj : loc)
    (d : list (str * json)) (w : world) :
  req_file req = Some file_bytes -> file_bytes <> [] ->
  generate_key file_bytes (match req_jd req with Some t => t | None => [] end) = Ok key ->
  use_redis (cache_manager w) = false ->
  local_cache (cache_manager w) !! key = Some obj ->
  heap w !! obj = Some (JDict d) -> d <> [] ->
  exists w',
    run req w
    = (Ok {| body := JDict (dict_set (lit "_is_cached") (JBool true) d); status := 200 |}, w')
    /\ local_value w key = Some (JDict d)
    /\ local_value w' key = Some (JDict (dict_set (lit "_is_cached") (JBool true) d))
    /\ In (lit "_is_cached", JBool true) (dict_set (lit "_is_cached") (JBool true) d)
    /\ calls w' = calls w.
Proof.
  intros Hf Hne Hk Hu Hl Hd Hd0.
  unfold analyze. unfold bind at 1. unfold logger at 1.
  set (w0 := set_log _ w).
  unfold try_except. rewrite Hf.
  destruct file_bytes as [|b0 bs]; [congruence|].
  unfold bind at 1. unfold lift at 1. rewrite Hk.
  unfold bind at 1. rewrite get_local by exact Hu.
  change (local_cache (cache_manager w0)) with (local_cache (cache_manager w)).
  rewrite Hl.
  assert (Hd' : heap w0 !! obj = Some (JDict d)) by exact Hd.
  replace (truthy (deref obj w0)) with true
    by (unfold deref; rewrite Hd'; now destruct d).
  destruct (analyze_hit_dict obj d w0 Hd') as (w' & Hh & Hheap & Hm & _ & _ & Hc).
  rewrite Hh. exists w'. split; [reflexivity|].
  split; [unfold local_value, deref; now rewrite Hl, Hd|].
  split.
  { unfold local_value, deref. rewrite Hm. change (cache_manager w0) with (cache_manager w).
    rewrite Hl, Hheap.
    now rewrite list_lookup_insert_eq by (now apply lookup_lt_Some in Hd'). }
  split; [apply dict_set_In|exact Hc].
Qed.

(** On the shared backend a hit on a dict puts the flag into a fresh
    object: the stored text is what it was. *)
Lemma hit_shared (req : request) (file_bytes : bytes) (key text : str)
    (d : list (str * json)) (w : world) :
  req_file req = Some file_bytes -> file_bytes <> [] ->
  generate_key file_bytes (match req_jd req with Some t => t | None => [] end) = Ok key ->
  use_redis (cache_manager w) = true -> reachable 1 w = true ->
  shared_value w key = Some text -> text <> [] ->
  Json.loads text = Ok (JDict d) -> d <> [] ->
  exists w',
    run req w
    = (Ok {| body := JDict (dict_set (lit "_is_cached") (JBool true) d); status := 200 |}, w')
    /\ cache_untouched w w'
    /\ shared_value w' key = Some text.
Proof.
  intros Hf Hne Hk Hu Hr Hsv Ht Hl Hd0.
  pose proof (generate_key_enc_ok _ _ _ Hk) as Hek.
  unfold analyze. unfold bind at 1. unfold logger at 1.
  set (w0 := set_log _ w).
  unfold try_except. rewrite Hf.
  destruct file_bytes as [|b0 bs]; [congruence|].
  unfold bind at 1. unfold lift at 1. rewrite Hk.
  unfold bind at 1.
  destruct (redis_get_success key 0 w0 Hek Hr) as (w0' & Hs & _ & Hget).
  change (shared_value w0 key) with (shared_value w key) in Hget.
  rewrite Hsv in Hget.
  destruct Hs as (Hc & Hrd & Hm & Hh & _).
  unfold get. replace (use_redis (cache_manager w0)) with true by (symmetry; exact Hu).
  unfold try_except, bind at 1. rewrite Hget.
  destruct text as [|c t]; [congruence|].
  unfold bind, lift, new, ret. rewrite Hl.
  set (w1 := set_heap (heap w0' ++ [JDict d]) w0').
  assert (Hd1 : heap w1 !! length (heap w0') = Some (JDict d))
    by (unfold w1; cbn [heap set_heap]; apply lookup_new).
  replace (truthy (deref (length (heap w0')) w1)) with true
    by (unfold deref; rewrite Hd1; now destruct d).
  destruct (analyze_hit_dict _ d w1 Hd1) as (w' & Hhit & Hheap & Hm' & Hrd' & Hc' & _).
  fold (analyze_hit (length (heap w0'))). rewrite Hhit.
  exists w'. split; [reflexivity|]. split.
  - split; [rewrite Hc'; exact Hc|]. split; [rewrite Hrd'; exact Hrd|].
    split; [rewrite Hm'; exact Hm|].
    exists [JDict (dict_set (lit "_is_cached") (JBool true) d)].
    rewrite Hheap. unfold w1. cbn [heap set_heap].
    change (heap w0) with (heap w) in Hh. rewrite <- Hh.
    rewrite insert_app_r_alt by lia. now rewrite Nat.sub_diag.
  - unfold shared_value in *. rewrite Hrd', Hc'. unfold w1. cbn [redis clock set_heap].
    now rewrite Hrd, Hc.
Qed.

End Hits.

Lemma hit_local_witness :
  exists w',
    analyze (fun _ => Raise (Exn PdfError (lit "EOF marker not found"))) (lit "sk-test")
      (lit "Compare. JD: ") (lit " Resume: ") (lit " Answer in JSON.")
      sample_request (local_world_with sample_result [])
    = (Ok {| body := JDict (dict_set (lit "_is_cached") (JBool true) [(lit "a", JInt 1)]);
             status := 200 |}, w')
    /\ local_value (local_world_with sample_result []) sample_key
       = Some (JDict [(lit "a", JInt 1)])
    /\ local_value w' sample_key
       = Some (JDict (dict_set (lit "_is_cached") (JBool true) [(lit "a", JInt 1)]))
    /\ In (lit "_is_cached", JBool true)
         (dict_set (lit "_is_cached") (JBool true) [(lit "a", JInt 1)])
    /\ calls w' = calls (local_world_with sample_result []).
Proof.
  apply (hit_local (fun _ => Raise (Exn PdfError (lit "EOF marker not found")))
           (lit "sk-test") (lit "Compare. JD: ") (lit " Resume: ")
           (lit " Answer in JSON.")
           sample_request (ascii_bytes "%PDF-1.4") sample_key 0%nat
           [(lit "a", JInt 1)] (local_world_with sample_result [])).
  - reflexivity.
  - vm_compute. discriminate.
  - vm_compute. reflexivity.
  - reflexivity.
  - vm_compute. reflexivity.
  - reflexivity.
  - discriminate.
Defined.


(** ** Falsy entries *)

Section StaleEntries.

Variable PdfReader : bytes -> outcome (list (outcome (option str))).
Variable QWEN_API_KEY : str.
Variables prompt_head prompt_mid prompt_tail : str.

Local Abbreviation run :=
  (analyze PdfReader QWEN_API_KEY prompt_head prompt_mid prompt_tail).
Local Abbreviation miss :=
  (analyze_miss PdfReader QWEN_API_KEY prompt_head prompt_mid prompt_tail).
Local Abbreviation prompt := (build_prompt prompt_head prompt_mid prompt_tail).



End StaleEntries.




(** * Further properties of the code *)

(** ** The constructor *)

(** X1: the constructor never raises, starts with an empty local mapping
    and leaves the shared database alone; the shared backend is chosen
    exactly when the library is there, a host is configured and the ping
    goes through. *)
Theorem init_selects_backend (HAS_REDIS_LIB : bool) (REDIS_HOST : option str) (w : world) :
  exists w1,
    CacheManager_init HAS_REDIS_LIB REDIS_HOST w = (Ok tt, w1)
    /\ local_cache (cache_manager w1) = ∅
    /\ redis w1 = redis w /\ heap w1 = heap w /\ clock w1 = clock w
    /\ (use_redis (cache_manager w1) = true
        <-> HAS_REDIS_LIB = true
            /\ (exists c h, REDIS_HOST = Some (c :: h))
            /\ fst (redis_ping w) = Ok tt).
Proof.
  unfold CacheManager_init, redis_ping, try_except, bind, transmit, logger.
  cbn [net set_cache_manager].
  destruct HAS_REDIS_LIB, REDIS_HOST as [[|c h]|]; cbn [andb];
    try (eexists; split; [reflexivity|]; cbn; repeat split; try reflexivity;
         try discriminate;
         intros (H1 & (c' & h' & H2) & H3); discriminate).
  destruct (net w) as [|[e|] rest] eqn:En; cbn [net set_cache_manager set_net];
    rewrite ?En;
    (eexists; split; [reflexivity|]); cbn; repeat split; try reflexivity;
    try discriminate; eauto.
  intros (_ & _ & H). discriminate H.
Qed.

(** ** The Cache Store, further *)

(** X2: on either backend [get] returns without raising and leaves the
    Cache Store as it was; on the local backend it changes nothing at all
    and returns what the mapping holds, None for a key it does not have. *)
Theorem get_never_raises (key : str) (w : world) :
  exists r w1,
    get key w = (Ok r, w1)
    /\ cache_untouched w w1
    /\ (use_redis (cache_manager w) = false ->
        w1 = w /\ r = local_cache (cache_manager w) !! key).
Proof.
  destruct (get_total key w) as (r & w1 & Hg & Hu & _).
  exists r, w1. split; [exact Hg|]. split; [exact Hu|].
  intros Hl. rewrite (get_local key w Hl) in Hg. injection Hg as <- <-. now split.
Qed.

(** X3: [set] touches the entry of its key only: under any other key both
    backends hold what they held. *)
Theorem set_changes_one_entry (key other : str) (data : loc) (expire : Z) (w : world) :
  other <> key ->
  exists w1,
    set key data expire w = (Ok tt, w1)
    /\ local_value w1 other = local_value w other
    /\ shared_value w1 other = shared_value w other.
Proof.
  intros Hne.
  destruct (set_cases key data expire w)
    as (w1 & Hs & Hh & Hc & _ & _ & _ & Hcases).
  exists w1. split; [exact Hs|].
  unfold local_value, shared_value, deref. rewrite Hh, Hc.
  destruct Hcases as [(_ & Hr & _ & _ & Hl)
                     |(_ & Hm & [(e & w0 & _ & Hr & _)|(_ & _ & Hr)])].
  - rewrite Hl, Hr, lookup_insert_ne by congruence. now split.
  - rewrite Hm, Hr. now split.
  - rewrite Hm, Hr, lookup_insert_ne by congruence. now split.
Qed.

Lemma set_changes_one_entry_witness :
  exists w1,
    set sample_key 1%nat 3600 (local_world_with sample_result []) = (Ok tt, w1)
    /\ local_value w1 (lit "resume:v3:other") = local_value (local_world_with sample_result []) (lit "resume:v3:other")
    /\ shared_value w1 (lit "resume:v3:other")
       = shared_value (local_world_with sample_result []) (lit "resume:v3:other").
Proof.
  apply (set_changes_one_entry sample_key (lit "resume:v3:other") 1%nat 3600
           (local_world_with sample_result [])).
  vm_compute. discriminate.
Defined.

(** X4: on the shared backend an entry is gone once its time to live has
    passed: a [get] made [expire] seconds or more after the [set] returns
    None. *)
Theorem shared_entry_expires (key : str) (data : loc) (v : json) (expire d : Z) (w : world) :
  use_redis (cache_manager w) = true ->
  heap w !! data = Some v ->
  enc_ok key = true -> encodable v = true -> reachable 2 w = true ->
  (0 < expire <= d)%Z ->
  exists w1 w2,
    set key data expire w = (Ok tt, w1)
    /\ shared_value w1 key = Some (Json.dumps v)
    /\ get key (elapse d w1) = (Ok None, w2).
Proof.
  intros Hu Hd Hk He Hn Ht.
  assert (Hv : deref data w = v) by (unfold deref; now rewrite Hd).
  destruct (redis_setex_success key (Json.dumps v) expire 1 w)
    as (w0 & Hs0 & Hn0 & Hset); auto using enc_ok_dumps; [lia|].
  set (w1 := set_redis (<[key := (Json.dumps v, (clock w + expire)%Z)]> (redis w)) w0)
    in *.
  destruct (redis_get_success key 0 (elapse d w1) Hk Hn0) as (w2 & Hs2 & _ & Hget).
  destruct Hs0 as (Hc & _ & Hm & _).
  assert (Hval : shared_value (elapse d w1) key = None).
  { unfold shared_value, w1. wsimpl. rewrite lookup_insert_eq. unfold live.
    cbn [fst snd]. rewrite Hc.
    destruct (Z.ltb_spec (clock w + d) (clock w + expire)); [lia|reflexivity]. }
  rewrite Hval in Hget.
  exists w1, w2. split.
  { unfold set. rewrite Hu. unfold try_except. rewrite Hv, Hset. reflexivity. }
  split.
  { unfold shared_value, w1. wsimpl. rewrite lookup_insert_eq. unfold live.
    cbn [fst snd]. rewrite Hc.
    destruct (Z.ltb_spec (clock w) (clock w + expire)); [reflexivity|lia]. }
  unfold get. replace (use_redis (cache_manager (elapse d w1))) with true
    by (unfold w1; wsimpl; now rewrite Hm, Hu).
  unfold try_except, bind. now rewrite Hget.
Qed.

Lemma shared_entry_expires_witness :
  exists w1 w2,
    set (lit "resume:v3:k") 0%nat 3600 (shared_world [] [sample_result]) = (Ok tt, w1)
    /\ shared_value w1 (lit "resume:v3:k") = Some (Json.dumps sample_result)
    /\ get (lit "resume:v3:k") (elapse 3600 w1) = (Ok None, w2).
Proof.
  apply (shared_entry_expires (lit "resume:v3:k") 0%nat sample_result 3600 3600
           (shared_world [] [sample_result]));
    try (vm_compute; reflexivity). lia.
Defined.


(** ** Key generation, further *)

Lemma encode_char_refused (c : N) : is_scalar c = false -> encode_char c = None.
Proof.
  unfold is_scalar, encode_char.
  repeat match goal with
         | |- context [N.ltb ?a ?b] => destruct (N.ltb_spec a b)
         | |- context [N.leb ?a ?b] => destruct (N.leb_spec a b)
         end; cbn; intros Hs; try discriminate Hs; try reflexivity; lia.
Qed.

Lemma encode_utf8_refused (t : str) :
  forallb is_scalar t = false ->
  encode_utf8 t = Raise (Exn UnicodeEncodeError (lit "surrogates not allowed")).
Proof.
  induction t as [|c t IH]; [discriminate|].
  cbn [forallb encode_utf8]. destruct (is_scalar c) eqn:Hc.
  - cbn [andb]. intros Ht. destruct (encode_char_scalar c Hc) as [bs ->].
    now rewrite (IH Ht).
  - intros _. now rewrite (encode_char_refused c Hc).
Qed.

Lemma hex_below_128 (bs : bytes) : Forall (fun c => (c < 128)%N) (MD5.hex bs).
Proof.
  eapply Forall_impl; [apply hex_is_hex|].
  intros c Hc. cbv beta in Hc. unfold is_hex_digit in Hc.
  apply orb_true_iff in Hc as [Hc|Hc]; apply andb_true_iff in Hc as [_ Hc];
    apply N.leb_le in Hc; lia.
Qed.

(** X5: [generate_key] raises exactly when the job description holds a code
    point UTF-8 refuses (a lone surrogate), a UnicodeEncodeError whatever
    the document; on every other input the key is 75 ASCII characters,
    whatever the sizes of the document and of the text. *)
Theorem generate_key_outcome (file_bytes : bytes) (jd_text : str) :
  if forallb is_scalar jd_text
  then exists key, generate_key file_bytes jd_text = Ok key
         /\ length key = 75%nat /\ Forall (fun c => (c < 128)%N) key
  else exists msg,
         generate_key file_bytes jd_text = Raise (Exn UnicodeEncodeError msg).
Proof.
  destruct (forallb is_scalar jd_text) eqn:Hs.
  - destruct (encode_utf8_scalar jd_text Hs) as [enc He].
    unfold generate_key. rewrite He. eexists. split; [reflexivity|]. split.
    + rewrite !length_app, !hexdigest_length. reflexivity.
    + unfold MD5.hexdigest. repeat (apply Forall_app; split);
        try apply hex_below_128; vm_compute; repeat (constructor; [reflexivity|]);
        constructor.
  - unfold generate_key. rewrite (encode_utf8_refused jd_text Hs). eauto.
Qed.

(** ** The prompt *)

Section Prompt.

Variable QWEN_API_KEY : str.
Variables prompt_head prompt_mid prompt_tail : str.

Local Abbreviation call := (call_qwen_analysis QWEN_API_KEY prompt_head prompt_mid prompt_tail).
Local Abbreviation prompt := (build_prompt prompt_head prompt_mid prompt_tail).

(** X6: the remote call reads the first 3000 characters of the resume and
    the first 1000 of the job description only: two pairs of texts that
    agree on these prefixes make the same call, with the same outcome, and
    the prompt is at most 4000 characters longer than its fixed text. *)
Theorem call_reads_prefixes (resume resume' jd jd' : str) (w : world) :
  take 3000 resume = take 3000 resume' -> take 1000 jd = take 1000 jd' ->
  call resume jd w = call resume' jd' w
  /\ (length (prompt resume jd)
      <= length prompt_head + length prompt_mid + length prompt_tail + 4000)%nat.
Proof.
  intros Hr Hj. split.
  - unfold call_qwen_analysis, build_prompt. now rewrite Hr, Hj.
  - unfold build_prompt. rewrite !length_app, !length_take. lia.
Qed.

End Prompt.

Lemma call_reads_prefixes_witness :
  call_qwen_analysis (lit "sk-test") (lit "Compare. JD: ") (lit " Resume: ")
    (lit " Answer in JSON.") (repeat 65%N 3000 ++ lit "left out") (lit "python")
    (service_world false [Ok (JStr bare_output)])
  = call_qwen_analysis (lit "sk-test") (lit "Compare. JD: ") (lit " Resume: ")
      (lit " Answer in JSON.") (repeat 65%N 3000) (lit "python")
      (service_world false [Ok (JStr bare_output)])
  /\ (length (build_prompt (lit "Compare. JD: ") (lit " Resume: ") (lit " Answer in JSON.")
                (repeat 65%N 3000 ++ lit "left out") (lit "python"))
      <= length (lit "Compare. JD: ") + length (lit " Resume: ")
         + length (lit " Answer in JSON.") + 4000)%nat.
Proof.
  apply (call_reads_prefixes (lit "sk-test") (lit "Compare. JD: ") (lit " Resume: ")
           (lit " Answer in JSON.") (repeat 65%N 3000 ++ lit "left out")
           (repeat 65%N 3000) (lit "python") (lit "python")
           (service_world false [Ok (JStr bare_output)]));
    vm_compute; reflexivity.
Defined.

(** ** The normalizer, further *)

Section NormalizerCases.

Lemma lstrip_pad (l s : str) : forallb isspace l = true -> lstrip (l ++ s) = lstrip s.
Proof.
  induction l as [|c l IH]; [reflexivity|].
  cbn [forallb app lstrip]. intros H. apply andb_true_iff in H as [Hc Hl].
  rewrite Hc. now apply IH.
Qed.

Lemma lstrip_app (s r : str) :
  forallb isspace r = true ->
  lstrip (s ++ r) = match lstrip s with [] => [] | _ :: _ => lstrip s ++ r end.
Proof.
  intros Hr. induction s as [|c s IH].
  - cbn [app lstrip]. rewrite <- (app_nil_r r), lstrip_pad by exact Hr. reflexivity.
  - cbn [app lstrip]. destruct (isspace c); [exact IH|reflexivity].
Qed.

Lemma rstrip_pad (s r : str) : forallb isspace r = true -> rstrip (s ++ r) = rstrip s.
Proof.
  intros Hr. unfold rstrip. rewrite rev_app_distr, lstrip_pad; [reflexivity|].
  rewrite forallb_forall in *. intros x Hx. apply Hr. now apply in_rev.
Qed.

Lemma strip_pad (l raw r : str) :
  forallb isspace l = true -> forallb isspace r = true ->
  strip (l ++ raw ++ r) = strip raw.
Proof.
  intros Hl Hr. unfold strip. rewrite lstrip_pad by exact Hl.
  rewrite lstrip_app by exact Hr.
  destruct (lstrip raw) as [|c t] eqn:E; [reflexivity|].
  now rewrite rstrip_pad.
Qed.

(** X7: white space around the reply of the model changes nothing: the
    normalizer gives the same value, or raises the same exception, with
    and without it. *)
Theorem normalize_ignores_padding (l raw r : str) :
  forallb isspace l = true -> forallb isspace r = true ->
  normalize (JStr (l ++ raw ++ r)) = normalize (JStr raw).
Proof.
  intros Hl Hr. unfold normalize. now rewrite strip_pad.
Qed.

(** X8: the three ways of the normalizer. A reply without the opening
    marker is parsed whole, once stripped. With the marker, what is parsed
    is the text between its first occurrence and the first closing marker
    after it: what stands before the block and after it is dropped. With
    the marker and no closing one after it, the normalizer raises an
    AttributeError. *)
Theorem normalize_fence_cases (raw : str) :
  (~ occurs fence_open (strip raw) -> normalize (JStr raw) = Json.loads (strip raw))
  /\ (forall before rest,
        first_split fence_open (strip raw) before rest ->
        (forall inner after,
           first_split fence_close rest inner after ->
           normalize (JStr raw) = Json.loads inner)
        /\ (~ occurs fence_close rest ->
            exists m, normalize (JStr raw) = Raise (Exn AttributeError m))).
Proof.
  split; [apply normalize_no_fence|].
  intros before rest H1. split.
  - intros inner after H2. exact (normalize_fenced raw before rest inner after H1 H2).
  - intros H2. exact (normalize_unclosed raw before rest H1 H2).
Qed.

End NormalizerCases.

Lemma normalize_ignores_padding_witness :
  normalize (JStr ([32; 10]%N ++ fenced_output ++ [10; 9]%N))
  = normalize (JStr fenced_output).
Proof.
  apply (normalize_ignores_padding [32; 10]%N fenced_output [10; 9]%N);
    vm_compute; reflexivity.
Defined.

Lemma normalize_fence_cases_witness :
  normalize (JStr (lit "Here it is: " ++ fenced_output ++ lit " Done."))
  = Json.loads ([10%N] ++ bare_output ++ [10%N]).
Proof.
  destruct (normalize_fence_cases (lit "Here it is: " ++ fenced_output ++ lit " Done."))
    as [_ H].
  destruct (H (lit "Here it is: ")
              ([10%N] ++ bare_output ++ [10%N] ++ lit "```" ++ lit " Done."))
    as [Hin _].
  - apply find_sub_Some. vm_compute. reflexivity.
  - apply (Hin ([10%N] ++ bare_output ++ [10%N]) (lit " Done.")).
    apply find_sub_Some. vm_compute. reflexivity.
Defined.


(** ** Requests, case by case *)

Section Requests.

Variable PdfReader : bytes -> outcome (list (outcome (option str))).
Variable QWEN_API_KEY : str.
Variables prompt_head prompt_mid prompt_tail : str.

Local Abbreviation call := (call_qwen_analysis QWEN_API_KEY prompt_head prompt_mid prompt_tail).
Local Abbreviation prompt := (build_prompt prompt_head prompt_mid prompt_tail).
Local Abbreviation miss :=
  (analyze_miss PdfReader QWEN_API_KEY prompt_head prompt_mid prompt_tail).
Local Abbreviation run :=
  (analyze PdfReader QWEN_API_KEY prompt_head prompt_mid prompt_tail).
Local Abbreviation text := (extracted PdfReader).

Lemma logged_refl (w : world) : logged w w.
Proof. exists []. destruct w. cbn. now rewrite app_nil_r. Qed.

Lemma logged_trans (w1 w2 w3 : world) : logged w1 w2 -> logged w2 w3 -> logged w1 w3.
Proof.
  intros [l ->] [l' ->]. exists (l ++ l'). cbn. now rewrite app_assoc.
Qed.

Lemma logged_started (req : request) (w : world) : logged w (started req w).
Proof. now eexists. Qed.

Lemma logged_frame (w w' : world) :
  logged w w' ->
  cache_untouched w w' /\ calls w' = calls w /\ service w' = service w
  /\ net w' = net w /\ heap w' = heap w.
Proof. intros [l ->]. split; [untouched|]. now repeat split. Qed.

Lemma backend_kept_refl (w : world) : backend_kept w w.
Proof. now split. Qed.

Lemma backend_kept_trans (w1 w2 w3 : world) :
  backend_kept w1 w2 -> backend_kept w2 w3 -> backend_kept w1 w3.
Proof.
  intros [Hu H] [Hu' H']. split; [congruence|].
  intros Hl. destruct (H Hl) as (? & ? & ?).
  destruct H' as (? & ? & ?); [congruence|]. repeat split; congruence.
Qed.

Lemma untouched_backend_kept (w w' : world) :
  cache_untouched w w' -> net w' = net w -> backend_kept w w'.
Proof. intros (Hc & Hr & Hm & _) Hn. split; [now rewrite Hm|]. now intros _. Qed.

Lemma logged_backend_kept (w w' : world) : logged w w' -> backend_kept w w'.
Proof.
  intros H. apply logged_frame in H as (Hu & _ & _ & Hn & _).
  now apply untouched_backend_kept.
Qed.

(** The extractor returns the text of the document and writes to the log
    at most. *)
Lemma extract_value (file_bytes : bytes) (w : world) :
  exists w1,
    extract_text_from_pdf PdfReader file_bytes w = (Ok (text file_bytes), w1)
    /\ logged w w1.
Proof.
  unfold extracted.
  destruct (extract_text_cases PdfReader file_bytes w)
    as [(pages & texts & Hp & Ht & He)|(e & [Hp|(pages & Hp & Ht)] & He)];
    rewrite Hp, ?Ht, He; eexists; (split; [reflexivity|]);
    [apply logged_refl|now eexists|now eexists].
Qed.

(** A lookup of a key nothing is stored under. *)
Lemma lookup_absent (key : str) (w : world) :
  absent w key ->
  exists w1, get key w = (Ok None, w1) /\ same_but_net w w1
             /\ (use_redis (cache_manager w) = false -> w1 = w).
Proof.
  unfold absent. destruct (use_redis (cache_manager w)) eqn:Hu; intros Ha.
  - destruct (get_shared key w Hu) as (w1 & Hs & [[Hg _]|(t & v & Hr & _)]).
    + exists w1. split; [exact Hg|]. split; [exact Hs|]. discriminate.
    + apply redis_get_value in Hr. congruence.
  - exists w. rewrite get_local, Ha by exact Hu. split; [reflexivity|].
    split; [apply same_but_net_refl|reflexivity].
Qed.

(** A request with a document, up to the lookup. *)
Lemma run_lookup (req : request) (file_bytes : bytes) (key : str) (w : world) :
  req_file req = Some file_bytes -> file_bytes <> [] ->
  generate_key file_bytes (jd_of req) = Ok key ->
  run req w
  = try_except
      (bind (get key)
         (fun cached_data w1 =>
            match cached_data with
            | Some obj =>
                if truthy (deref obj w1) then analyze_hit obj w1
                else miss file_bytes (jd_of req) key w1
            | None => miss file_bytes (jd_of req) key w1
            end))
      analyze_except (started req w).
Proof.
  intros Hf Hne Hk. unfold jd_of in *.
  unfold analyze. unfold bind at 1. unfold logger at 1. fold (started req w).
  unfold try_except. rewrite Hf.
  destruct file_bytes as [|b0 bs]; [congruence|].
  unfold bind at 1. unfold lift at 1. rewrite Hk. reflexivity.
Qed.

(** A request whose key is absent goes the miss path. *)
Lemma run_absent (req : request) (file_bytes : bytes) (key : str) (w : world) :
  req_file req = Some file_bytes -> file_bytes <> [] ->
  generate_key file_bytes (jd_of req) = Ok key ->
  absent w key ->
  exists w1,
    run req w = try_except (miss file_bytes (jd_of req) key) analyze_except w1
    /\ same_but_net (started req w) w1
    /\ (use_redis (cache_manager w) = false -> w1 = started req w).
Proof.
  intros Hf Hne Hk Ha.
  destruct (lookup_absent key (started req w) Ha) as (w1 & Hg & Hs & Hl).
  exists w1. split; [|split; [exact Hs|exact Hl]].
  rewrite (run_lookup req file_bytes key w Hf Hne Hk).
  unfold try_except, bind. now rewrite Hg.
Qed.

(** The miss path, up to the remote call. *)
Lemma miss_unfold (file_bytes : bytes) (jd key : str) (w : world) :
  exists w1,
    logged w w1
    /\ miss file_bytes jd key w
       = match strip (text file_bytes) with
         | [] => (Ok (error_response empty_pdf_msg 400), w1)
         | _ :: _ =>
             bind (call (text file_bytes) jd)
               (fun raw_result =>
                  bind (lift (normalize raw_result))
                    (fun final =>
                       bind (new final)
                         (fun final_data =>
                            bind (set key final_data 3600)
                              (fun _ => jsonify final_data)))) w1
         end.
Proof.
  destruct (extract_value file_bytes w) as (w1 & He & Hl).
  exists w1. split; [exact Hl|].
  unfold analyze_miss. unfold bind at 1. rewrite He.
  now destruct (strip (text file_bytes)).
Qed.

(** X9: a request without an upload, or with an empty one, is answered
    400 with an error body before anything else happens: no key is
    computed, the Cache Store is not consulted, no remote call is made;
    the start line in the log is the only trace. *)
Theorem no_upload_is_400 (req : request) (w : world) :
  req_file req = None \/ req_file req = Some [] ->
  exists resp,
    run req w = (Ok resp, started req w)
    /\ status resp = 400%Z /\ is_error resp.
Proof.
  intros [Hf|Hf]; unfold analyze; unfold bind at 1; unfold logger at 1;
    fold (started req w); unfold try_except; rewrite Hf;
    (eexists; split; [reflexivity|]); (split; [reflexivity|now eexists]).
Qed.

(** X10: a job description UTF-8 cannot encode (it holds a lone surrogate)
    makes the request end in a 500 reply with an error body; the Cache
    Store is not consulted, no remote call is made, the log alone has
    grown. *)
Theorem unencodable_jd_is_500 (req : request) (file_bytes : bytes) (w : world) :
  req_file req = Some file_bytes -> file_bytes <> [] ->
  forallb is_scalar (jd_of req) = false ->
  exists resp w',
    run req w = (Ok resp, w')
    /\ status resp = 500%Z /\ is_error resp /\ logged w w'.
Proof.
  intros Hf Hne Hs. unfold jd_of in *.
  unfold analyze. unfold bind at 1. unfold logger at 1. fold (started req w).
  unfold try_except. rewrite Hf.
  destruct file_bytes as [|b0 bs]; [congruence|].
  unfold bind at 1. unfold lift at 1. unfold generate_key.
  rewrite (encode_utf8_refused _ Hs).
  eexists _, _. split; [reflexivity|]. split; [reflexivity|].
  split; [now eexists|].
  apply (logged_trans w (started req w)); [apply logged_started|now eexists].
Qed.

(** X11: a document no text comes out of (the reader refuses it, a page
    raises, or the text is blank), under a key with nothing stored, is
    answered 400 with the message of line 215: the remote service is not
    called and the Cache Store is left as it was. *)
Theorem blank_document_is_400 (req : request) (file_bytes : bytes) (key : str)
    (w : world) :
  req_file req = Some file_bytes -> file_bytes <> [] ->
  generate_key file_bytes (jd_of req) = Ok key ->
  absent w key ->
  strip (text file_bytes) = [] ->
  exists w',
    run req w = (Ok (error_response empty_pdf_msg 400), w')
    /\ calls w' = calls w /\ service w' = service w /\ cache_untouched w w'.
Proof.
  intros Hf Hne Hk Ha Hb.
  destruct (run_absent req file_bytes key w Hf Hne Hk Ha) as (w1 & Hrun & Hs & _).
  destruct (miss_unfold file_bytes (jd_of req) key w1) as (w2 & Hl & Hm).
  rewrite Hb in Hm. exists w2. split.
  { rewrite Hrun. unfold try_except. now rewrite Hm. }
  apply logged_frame in Hl as (Hu & Hc & Hsv & _).
  destruct Hs as (Hc1 & Hr1 & Hm1 & Hh1 & _ & Hs1 & Hca1).
  split; [now rewrite Hc, Hca1|]. split; [now rewrite Hsv, Hs1|].
  apply (cache_untouched_trans w w1); [|exact Hu].
  repeat split; try assumption. exists []. now rewrite app_nil_r.
Qed.

(** X12: without a credential no remote call is made: a request that gets
    as far as the call (a document with text, nothing stored under its
    key) is answered 500 with the message of line 112, and the Cache Store
    is left as it was. *)
Theorem missing_credential_is_500 (req : request) (file_bytes : bytes) (key : str)
    (w : world) :
  QWEN_API_KEY = [] ->
  req_file req = Some file_bytes -> file_bytes <> [] ->
  generate_key file_bytes (jd_of req) = Ok key ->
  absent w key ->
  strip (text file_bytes) <> [] ->
  exists w',
    run req w = (Ok (error_response missing_key_msg 500), w')
    /\ calls w' = calls w /\ service w' = service w /\ cache_untouched w w'.
Proof.
  intros Hcred Hf Hne Hk Ha Hb.
  destruct (run_absent req file_bytes key w Hf Hne Hk Ha) as (w1 & Hrun & Hs & _).
  destruct (miss_unfold file_bytes (jd_of req) key w1) as (w2 & Hl & Hm).
  destruct (strip (text file_bytes)) as [|c t]; [congruence|].
  rewrite Hrun. unfold try_except. rewrite Hm. clear Hm Hrun.
  unfold bind at 1. unfold call_qwen_analysis. rewrite Hcred. unfold raise.
  eexists. split; [reflexivity|].
  apply logged_frame in Hl as (Hu & Hc & Hsv & _).
  destruct Hs as (Hc1 & Hr1 & Hm1 & Hh1 & _ & Hs1 & Hca1).
  cbn [calls service set_log].
  split; [now rewrite Hc, Hca1|]. split; [now rewrite Hsv, Hs1|].
  apply (cache_untouched_trans w w2); [|untouched].
  apply (cache_untouched_trans w w1); [|exact Hu].
  repeat split; try assumption. exists []. now rewrite app_nil_r.
Qed.

End Requests.


Lemma no_upload_is_400_witness :
  exists resp,
    sample_run no_file_request (empty_world false)
    = (Ok resp, started no_file_request (empty_world false))
    /\ status resp = 400%Z /\ is_error resp.
Proof.
  apply (no_upload_is_400 sample_reader (lit "sk-test")
           (lit "Compare. JD: ") (lit " Resume: ") (lit " Answer in JSON.")
           no_file_request (empty_world false)).
  left. reflexivity.
Defined.

Lemma unencodable_jd_is_500_witness :
  exists resp w',
    sample_run surrogate_request (service_world false [Ok (JStr fenced_output)])
    = (Ok resp, w')
    /\ status resp = 500%Z /\ is_error resp
    /\ logged (service_world false [Ok (JStr fenced_output)]) w'.
Proof.
  apply (unencodable_jd_is_500 sample_reader (lit "sk-test")
           (lit "Compare. JD: ") (lit " Resume: ") (lit " Answer in JSON.")
           surrogate_request (ascii_bytes "%PDF-1.4")
           (service_world false [Ok (JStr fenced_output)])).
  - reflexivity.
  - vm_compute. discriminate.
  - vm_compute. reflexivity.
Defined.

Lemma blank_document_is_400_witness :
  exists w',
    sample_run broken_request (shared_world [Some connection_error] [])
    = (Ok (error_response empty_pdf_msg 400), w')
    /\ calls w' = calls (shared_world [Some connection_error] [])
    /\ service w' = service (shared_world [Some connection_error] [])
    /\ cache_untouched (shared_world [Some connection_error] []) w'.
Proof.
  apply (blank_document_is_400 sample_reader (lit "sk-test")
           (lit "Compare. JD: ") (lit " Resume: ") (lit " Answer in JSON.")
           broken_request (ascii_bytes "hello")
           (match generate_key (ascii_bytes "hello") [] with Ok k => k | Raise _ => [] end)
           (shared_world [Some connection_error] [])).
  - reflexivity.
  - vm_compute. discriminate.
  - vm_compute. reflexivity.
  - vm_compute. reflexivity.
  - vm_compute. reflexivity.
Defined.

Lemma missing_credential_is_500_witness :
  exists w',
    analyze sample_reader [] (lit "Compare. JD: ") (lit " Resume: ")
      (lit " Answer in JSON.") sample_request
      (service_world false [Ok (JStr fenced_output)])
    = (Ok (error_response missing_key_msg 500), w')
    /\ calls w' = calls (service_world false [Ok (JStr fenced_output)])
    /\ service w' = service (service_world false [Ok (JStr fenced_output)])
    /\ cache_untouched (service_world false [Ok (JStr fenced_output)]) w'.
Proof.
  apply (missing_credential_is_500 sample_reader []
           (lit "Compare. JD: ") (lit " Resume: ") (lit " Answer in JSON.")
           sample_request (ascii_bytes "%PDF-1.4") sample_key
           (service_world false [Ok (JStr fenced_output)])).
  - reflexivity.
  - reflexivity.
  - vm_compute. discriminate.
  - vm_compute. reflexivity.
  - vm_compute. reflexivity.
  - vm_compute. discriminate.
Defined.

(** ** What every request does *)

Section Outcomes.

Variable PdfReader : bytes -> outcome (list (outcome (option str))).
Variable QWEN_API_KEY : str.
Variables prompt_head prompt_mid prompt_tail : str.

Local Abbreviation call := (call_qwen_analysis QWEN_API_KEY prompt_head prompt_mid prompt_tail).
Local Abbreviation prompt := (build_prompt prompt_head prompt_mid prompt_tail).
Local Abbreviation miss :=
  (analyze_miss PdfReader QWEN_API_KEY prompt_head prompt_mid prompt_tail).
Local Abbreviation run :=
  (analyze PdfReader QWEN_API_KEY prompt_head prompt_mid prompt_tail).
Local Abbreviation text := (extracted PdfReader).

(** With a credential the call goes out, and its outcome is the reply of
    the endpoint; the log, the replies to come and the trace alone move. *)
Lemma call_outcome (resume_text jd : str) (w : world) :
  QWEN_API_KEY <> [] ->
  exists w1,
    call resume_text jd w = (next_reply w, w1)
    /\ calls w1 = calls w ++ [(prompt resume_text jd, next_reply w)]
    /\ service w1 = tail (service w)
    /\ clock w1 = clock w /\ redis w1 = redis w /\ net w1 = net w
    /\ cache_manager w1 = cache_manager w /\ heap w1 = heap w.
Proof.
  intros Hk. unfold call_qwen_analysis.
  destruct QWEN_API_KEY as [|k ks]; [congruence|].
  unfold try_except, post, next_reply.
  destruct (service w) as [|[raw|e] rest]; eexists; (split; [reflexivity|]);
    now repeat split.
Qed.

(** [get] never raises; it leaves the Cache Store, the trace and the
    backend as they were. *)
Lemma get_frame (key : str) (w : world) :
  exists r w1,
    get key w = (Ok r, w1)
    /\ cache_untouched w w1 /\ backend_kept w w1
    /\ service w1 = service w /\ calls w1 = calls w.
Proof.
  destruct (get_total key w) as (r & w1 & Hg & Hu & _ & Hs & Hc).
  exists r, w1. split; [exact Hg|]. split; [exact Hu|].
  split; [|now split]. split.
  - destruct Hu as (_ & _ & Hm & _). now rewrite Hm.
  - intros Hl. rewrite (get_local key w Hl) in Hg. injection Hg as _ <-. now repeat split.
Qed.

(** The hit branch moves the log and the heap only; it raises exactly on a
    value that is no dict, a TypeError, and then the heap has not moved. *)
Lemma hit_frame (obj : loc) (w : world) :
  exists r w',
    analyze_hit obj w = (r, w')
    /\ calls w' = calls w /\ service w' = service w /\ net w' = net w
    /\ redis w' = redis w /\ clock w' = clock w
    /\ cache_manager w' = cache_manager w
    /\ match r with
       | Ok resp => status resp = 200%Z /\ is_dict (deref obj w) = true
       | Raise e =>
           exn_cls e = TypeError /\ heap w' = heap w /\ is_dict (deref obj w) = false
       end.
Proof.
  unfold analyze_hit, bind, logger, setitem, jsonify.
  change (deref obj (set_log _ w)) with (deref obj w).
  destruct (deref obj w); eexists _, _; (split; [reflexivity|]); now repeat split.
Qed.

(** The miss path, in full. *)
Lemma miss_outcome (file_bytes : bytes) (jd key : str) (w : world) :
  exists r w',
    miss file_bytes jd key w = (r, w')
    /\ backend_kept w w'
    /\ ((strip (text file_bytes) = []
         /\ r = Ok (error_response empty_pdf_msg 400)
         /\ calls w' = calls w /\ service w' = service w /\ cache_untouched w w')
        \/ (strip (text file_bytes) <> [] /\ QWEN_API_KEY = []
            /\ r = Raise (Exn PlainException missing_key_msg)
            /\ calls w' = calls w /\ service w' = service w /\ cache_untouched w w')
        \/ (strip (text file_bytes) <> [] /\ QWEN_API_KEY <> []
            /\ calls w' = calls w ++ [(prompt (text file_bytes) jd, next_reply w)]
            /\ service w' = tail (service w)
            /\ match next_reply w with
               | Raise e => r = Raise e /\ cache_untouched w w'
               | Ok raw =>
                   match normalize raw with
                   | Raise e => r = Raise e /\ cache_untouched w w'
                   | Ok v => r = Ok {| body := v; status := 200 |}
                   end
               end)).
Proof.
  destruct (miss_unfold PdfReader QWEN_API_KEY prompt_head prompt_mid prompt_tail
              file_bytes jd key w) as (w1 & Hl & Hm).
  rewrite Hm. clear Hm.
  pose proof (logged_backend_kept _ _ Hl) as Hb1.
  apply logged_frame in Hl as (Hu1 & Hc1 & Hs1 & Hn1 & Hh1).
  destruct (strip (text file_bytes)) as [|c t] eqn:Hst.
  { eexists _, _. split; [reflexivity|]. split; [exact Hb1|]. left.
    split; [reflexivity|]. split; [reflexivity|].
    split; [exact Hc1|]. split; [exact Hs1|exact Hu1]. }
  unfold bind at 1.
  destruct (call_cases QWEN_API_KEY prompt_head prompt_mid prompt_tail
              (text file_bytes) jd w1) as [[Hk Hcall]|(Hk & _)].
  { rewrite Hcall. eexists _, _. split; [reflexivity|]. split; [exact Hb1|].
    right. left. split; [discriminate|]. split; [exact Hk|].
    split; [reflexivity|]. split; [exact Hc1|]. split; [exact Hs1|exact Hu1]. }
  destruct (call_outcome (text file_bytes) jd w1 Hk)
    as (w2 & Hcall & Hc2 & Hs2 & Hcl2 & Hr2 & Hn2 & Hm2 & Hh2).
  assert (Hnr : next_reply w1 = next_reply w) by (unfold next_reply; now rewrite Hs1).
  rewrite Hnr in Hcall, Hc2.
  assert (Hu2 : cache_untouched w w2).
  { apply (cache_untouched_trans w w1); [exact Hu1|].
    repeat split; try assumption. exists []. now rewrite app_nil_r. }
  assert (Hb2 : backend_kept w w2).
  { apply untouched_backend_kept; [exact Hu2|congruence]. }
  rewrite Hcall.
  destruct (next_reply w) as [raw|e].
  2:{ eexists _, _. split; [reflexivity|]. split; [exact Hb2|].
      right. right. split; [discriminate|]. split; [exact Hk|].
      split; [now rewrite Hc2, Hc1|]. split; [now rewrite Hs2, Hs1|]. now split. }
  unfold bind at 1. unfold lift at 1.
  destruct (normalize raw) as [v|e].
  2:{ eexists _, _. split; [reflexivity|]. split; [exact Hb2|].
      right. right. split; [discriminate|]. split; [exact Hk|].
      split; [now rewrite Hc2, Hc1|]. split; [now rewrite Hs2, Hs1|]. now split. }
  unfold bind at 1. unfold new at 1.
  set (w3 := set_heap (heap w2 ++ [v]) w2).
  destruct (set_cases key (length (heap w2)) 3600 w3)
    as (w4 & Hset & Hh4 & Hc4 & Hs4 & Hca4 & Hur4 & Hcases).
  unfold bind. rewrite Hset. unfold jsonify, deref. rewrite Hh4.
  unfold w3 at 1. cbn [heap set_heap]. rewrite lookup_new.
  eexists _, _. split; [reflexivity|]. split.
  { apply (backend_kept_trans w w2); [exact Hb2|]. split; [exact Hur4|].
    intros Hloc. destruct Hcases as [(_ & Hr & _ & Hn & _)|[Hu' _]].
    - now repeat split.
    - unfold w3 in Hu'. cbn in Hu'. congruence. }
  right. right. split; [discriminate|]. split; [exact Hk|].
  split; [rewrite Hca4; unfold w3; cbn [calls set_heap]; now rewrite Hc2, Hc1|].
  split; [rewrite Hs4; unfold w3; cbn [service set_heap]; now rewrite Hs2, Hs1|].
  reflexivity.
Qed.

(** Every request, in full: its reply, the backend, the remote call. *)
Lemma analyze_outcome (req : request) (w : world) :
  exists resp w',
    run req w = (Ok resp, w')
    /\ backend_kept w w'
    /\ ((calls w' = calls w /\ service w' = service w
         /\ (((status resp = 400%Z \/ status resp = 500%Z)
              /\ is_error resp /\ cache_untouched w w')
             \/ status resp = 200%Z))
        \/ (QWEN_API_KEY <> []
            /\ (exists p, calls w' = calls w ++ [(p, next_reply w)])
            /\ service w' = tail (service w)
            /\ ((status resp = 500%Z /\ is_error resp /\ cache_untouched w w')
                \/ status resp = 200%Z))).
Proof.
  unfold analyze. unfold bind at 1. unfold logger at 1. fold (started req w).
  pose proof (logged_started req w) as Hl0.
  pose proof (logged_backend_kept _ _ Hl0) as Hb0.
  apply logged_frame in Hl0 as (Hu0 & Hc0 & Hs0 & _).
  set (w0 := started req w) in *. clearbody w0.
  unfold try_except.
  destruct (req_file req) as [file_bytes|].
  2:{ eexists _, _. split; [reflexivity|]. split; [exact Hb0|]. left.
      split; [exact Hc0|]. split; [exact Hs0|]. left.
      split; [now left|]. split; [now eexists|exact Hu0]. }
  destruct file_bytes as [|b0 bs].
  { eexists _, _. split; [reflexivity|]. split; [exact Hb0|]. left.
    split; [exact Hc0|]. split; [exact Hs0|]. left.
    split; [now left|]. split; [now eexists|exact Hu0]. }
  unfold bind at 1. unfold lift at 1.
  destruct (generate_key (b0 :: bs) _) as [key|e].
  2:{ eexists _, _. split; [reflexivity|].
      split; [apply (backend_kept_trans w w0); [exact Hb0|];
              apply logged_backend_kept; now eexists|].
      left. split; [exact Hc0|]. split; [exact Hs0|]. left.
      split; [now right|]. split; [now eexists|].
      apply (cache_untouched_trans w w0); [exact Hu0|untouched]. }
  unfold bind at 1.
  destruct (get_frame key w0) as (r & w1 & Hg & Hu1 & Hb1 & Hs1 & Hc1).
  rewrite Hg.
  assert (Hu : cache_untouched w w1) by now apply (cache_untouched_trans w w0).
  assert (Hb : backend_kept w w1) by now apply (backend_kept_trans w w0).
  assert (Hc : calls w1 = calls w) by congruence.
  assert (Hs : service w1 = service w) by congruence.
  clear Hg Hu0 Hb0 Hc0 Hs0 Hu1 Hb1 Hs1 Hc1.
  assert (Hmiss :
    exists resp w',
      match miss (b0 :: bs) match req_jd req with Some t => t | None => [] end key w1 with
      | (Ok a, w'0) => (Ok a, w'0)
      | (Raise e, w'0) => analyze_except e w'0
      end = (Ok resp, w')
      /\ backend_kept w w'
      /\ ((calls w' = calls w /\ service w' = service w
           /\ (((status resp = 400%Z \/ status resp = 500%Z)
                /\ is_error resp /\ cache_untouched w w')
               \/ status resp = 200%Z))
          \/ (QWEN_API_KEY <> []
              /\ (exists p, calls w' = calls w ++ [(p, next_reply w)])
              /\ service w' = tail (service w)
              /\ ((status resp = 500%Z /\ is_error resp /\ cache_untouched w w')
                  \/ status resp = 200%Z)))).
  { destruct (miss_outcome (b0 :: bs)
                match req_jd req with Some t => t | None => [] end key w1)
      as (rm & wm & Hm & Hbm & Hcases).
    rewrite Hm.
    assert (Hnr : next_reply w1 = next_reply w) by (unfold next_reply; now rewrite Hs).
    assert (Hbk : backend_kept w wm) by now apply (backend_kept_trans w w1).
    assert (Hbe : forall l, backend_kept w (set_log l wm)).
    { intros l. apply (backend_kept_trans w wm); [exact Hbk|].
      destruct wm. now split. }
    destruct Hcases as
      [(_ & -> & Hcm & Hsm & Hum)
      |[(_ & _ & -> & Hcm & Hsm & Hum)
       |(_ & Hk & Hcm & Hsm & Hrep)]].
    - eexists _, _. split; [reflexivity|]. split; [exact Hbk|]. left.
      split; [congruence|]. split; [congruence|]. left.
      split; [now left|]. split; [now eexists|].
      now apply (cache_untouched_trans w w1).
    - eexists _, _. split; [reflexivity|]. split; [apply Hbe|]. left.
      cbn [calls service set_log].
      split; [congruence|]. split; [congruence|]. left.
      split; [now right|]. split; [now eexists|].
      apply (cache_untouched_trans w wm); [|untouched].
      now apply (cache_untouched_trans w w1).
    - rewrite Hnr, Hc, Hs in *.
      destruct (next_reply w) as [raw|e].
      + destruct (normalize raw) as [v|e].
        * rewrite Hrep. eexists _, _. split; [reflexivity|]. split; [exact Hbk|].
          right. split; [exact Hk|]. split; [eauto|]. split; [exact Hsm|].
          now right.
        * destruct Hrep as [-> Hum].
          eexists _, _. split; [reflexivity|]. split; [apply Hbe|].
          right. cbn [calls service set_log].
          split; [exact Hk|]. split; [eauto|]. split; [exact Hsm|]. left.
          split; [reflexivity|]. split; [now eexists|].
          apply (cache_untouched_trans w wm); [|untouched].
          now apply (cache_untouched_trans w w1).
      + destruct Hrep as [-> Hum].
        eexists _, _. split; [reflexivity|]. split; [apply Hbe|].
        right. cbn [calls service set_log].
        split; [exact Hk|]. split; [eauto|]. split; [exact Hsm|]. left.
        split; [reflexivity|]. split; [now eexists|].
        apply (cache_untouched_trans w wm); [|untouched].
        now apply (cache_untouched_trans w w1). }
  destruct r as [obj|]; [|exact Hmiss].
  destruct (truthy (deref obj w1)); [|exact Hmiss].
  destruct (hit_frame obj w1)
    as (rh & wh & Hh & Hch & Hsh & Hnh & Hrh & Hclh & Hmh & Hres).
  rewrite Hh.
  assert (Hbh : backend_kept w wh).
  { apply (backend_kept_trans w w1); [exact Hb|]. split; [now rewrite Hmh|].
    now intros _. }
  destruct rh as [resp|e].
  - eexists _, _. split; [reflexivity|]. split; [exact Hbh|]. left.
    split; [congruence|]. split; [congruence|]. right. apply Hres.
  - destruct Hres as (_ & Hheap & _).
    eexists _, _. split; [reflexivity|].
    split; [apply (backend_kept_trans w wh); [exact Hbh|]; destruct wh; now split|].
    left. cbn [calls service set_log].
    split; [congruence|]. split; [congruence|]. left.
    split; [now right|]. split; [now eexists|].
    apply (cache_untouched_trans w w1); [exact Hu|].
    apply (cache_untouched_trans w1 wh); [|untouched].
    repeat split; try assumption. exists []. now rewrite app_nil_r.
Qed.

(** X13: a request always ends in a reply, never in an exception, and the
    status of the reply is 200, 400 or 500. A reply that is not 200 has an
    error body and leaves the Cache Store as it was: same shared database,
    same local mapping, every stored object unchanged. *)
Theorem analyze_always_replies (req : request) (w : world) :
  exists resp w',
    run req w = (Ok resp, w')
    /\ (status resp = 200%Z \/ status resp = 400%Z \/ status resp = 500%Z)
    /\ (status resp <> 200%Z -> is_error resp /\ cache_untouched w w').
Proof.
  destruct (analyze_outcome req w) as (resp & w' & Hrun & _ & Hcases).
  exists resp, w'. split; [exact Hrun|].
  destruct Hcases as [(_ & _ & [([H|H] & He & Hu)|H])|(_ & _ & _ & [(H & He & Hu)|H])];
    (split; [auto|]); intros Hn; try congruence; now split.
Qed.

(** X14: a request calls the remote service once at most, and each call
    uses up one reply of the endpoint: the trace and the replies to come
    are as they were, or the trace has one more entry, holding the next
    reply, and that reply is gone. No call is made without a credential,
    nor by a request answered 400. *)
Theorem analyze_calls_at_most_once (req : request) (w : world) :
  exists resp w',
    run req w = (Ok resp, w')
    /\ ((calls w' = calls w /\ service w' = service w)
        \/ (exists p, calls w' = calls w ++ [(p, next_reply w)])
           /\ service w' = tail (service w)
           /\ QWEN_API_KEY <> [] /\ status resp <> 400%Z).
Proof.
  destruct (analyze_outcome req w) as (resp & w' & Hrun & _ & Hcases).
  exists resp, w'. split; [exact Hrun|].
  destruct Hcases as [(Hc & Hs & _)|(Hk & Hc & Hs & [(H & _)|H])].
  - now left.
  - right. repeat split; try assumption. congruence.
  - right. repeat split; try assumption. congruence.
Qed.

(** X15: a request never changes the backend in use, and on the local
    backend it sends nothing to the shared one: the database, the network
    and the clock are as they were. *)
Theorem analyze_keeps_backend (req : request) (w : world) :
  exists resp w',
    run req w = (Ok resp, w')
    /\ use_redis (cache_manager w') = use_redis (cache_manager w)
    /\ (use_redis (cache_manager w) = false ->
        redis w' = redis w /\ net w' = net w /\ clock w' = clock w).
Proof.
  destruct (analyze_outcome req w) as (resp & w' & Hrun & Hb & _).
  exists resp, w'. split; [exact Hrun|]. exact Hb.
Qed.

End Outcomes.


(** ** Stored entries *)

Section Entries.

Variable PdfReader : bytes -> outcome (list (outcome (option str))).
Variable QWEN_API_KEY : str.
Variables prompt_head prompt_mid prompt_tail : str.

Local Abbreviation call := (call_qwen_analysis QWEN_API_KEY prompt_head prompt_mid prompt_tail).
Local Abbreviation prompt := (build_prompt prompt_head prompt_mid prompt_tail).
Local Abbreviation miss :=
  (analyze_miss PdfReader QWEN_API_KEY prompt_head prompt_mid prompt_tail).
Local Abbreviation run :=
  (analyze PdfReader QWEN_API_KEY prompt_head prompt_mid prompt_tail).
Local Abbreviation text := (extracted PdfReader).

Lemma reachable_net (n : nat) (w w' : world) :
  net w' = net w -> reachable n w' = reachable n w.
Proof. intros H. unfold reachable. now rewrite H. Qed.

(** A lookup of a stored value hands out an object holding it. *)
Lemma lookup_stored (key : str) (v : json) (w : world) :
  enc_ok key = true -> stored w key v ->
  exists obj w1,
    get key w = (Ok (Some obj), w1)
    /\ heap w1 !! obj = Some v
    /\ cache_untouched w w1 /\ calls w1 = calls w /\ service w1 = service w.
Proof.
  intros Hek [(Hu & obj & Hl & Hh)|(Hu & Hr & t & Hsv & Hne & Hld)].
  - exists obj, w. rewrite get_local, Hl by exact Hu.
    split; [reflexivity|]. split; [exact Hh|].
    split; [apply cache_untouched_refl|now split].
  - destruct (redis_get_success key 0 w Hek Hr) as (w0 & Hs & _ & Hget).
    rewrite Hsv in Hget.
    destruct Hs as (Hc & Hrd & Hm & Hh & _ & Hsvc & Hca).
    exists (length (heap w0)), (set_heap (heap w0 ++ [v]) w0).
    split.
    { unfold get. rewrite Hu. unfold try_except, bind. rewrite Hget.
      destruct t as [|c t]; [congruence|]. unfold lift. rewrite Hld. reflexivity. }
    split; [cbn [heap set_heap]; apply lookup_new|].
    split; [|now split].
    repeat split; cbn [clock redis cache_manager heap set_heap]; try assumption.
    exists [v]. now rewrite Hh.
Qed.

(** A request whose key holds a truthy value goes the hit branch. *)
Lemma run_stored (req : request) (file_bytes : bytes) (key : str) (v : json)
    (w : world) :
  req_file req = Some file_bytes -> file_bytes <> [] ->
  generate_key file_bytes (jd_of req) = Ok key ->
  stored w key v -> truthy v = true ->
  exists obj w1,
    run req w = try_except (analyze_hit obj) analyze_except w1
    /\ heap w1 !! obj = Some v
    /\ cache_untouched w w1 /\ calls w1 = calls w /\ service w1 = service w.
Proof.
  intros Hf Hne Hk Hst Ht.
  pose proof (generate_key_enc_ok _ _ _ Hk) as Hek.
  destruct (lookup_stored key v (started req w) Hek Hst)
    as (obj & w1 & Hg & Hh & Hu & Hc & Hs).
  exists obj, w1. split.
  { rewrite (run_lookup PdfReader QWEN_API_KEY prompt_head prompt_mid prompt_tail
               req file_bytes key w Hf Hne Hk).
    unfold try_except, bind. rewrite Hg.
    replace (truthy (deref obj w1)) with true; [reflexivity|].
    unfold deref. now rewrite Hh. }
  split; [exact Hh|].
  split; [|now split].
  apply (cache_untouched_trans w (started req w)); [|exact Hu].
  apply cache_untouched_log.
Qed.

(** X16: a stored value that is truthy and no dict (a list, a string, a
    number: whatever the model once answered in place of an object) makes
    the request end in a 500 reply: the flag cannot be written into it.
    No remote call is made and the entry stays, so on the local backend
    the same request fails again. *)
Theorem non_dict_entry_is_500 (req : request) (file_bytes : bytes) (key : str)
    (v : json) (w : world) :
  req_file req = Some file_bytes -> file_bytes <> [] ->
  generate_key file_bytes (jd_of req) = Ok key ->
  stored w key v -> truthy v = true -> is_dict v = false ->
  exists resp w',
    run req w = (Ok resp, w')
    /\ status resp = 500%Z /\ is_error resp
    /\ calls w' = calls w /\ service w' = service w
    /\ cache_untouched w w'
    /\ (use_redis (cache_manager w) = false -> stored w' key v).
Proof.
  intros Hf Hne Hk Hst Ht Hd.
  destruct (run_stored req file_bytes key v w Hf Hne Hk Hst Ht)
    as (obj & w1 & Hrun & Hh & Hu & Hc & Hs).
  rewrite Hrun. unfold try_except.
  destruct (hit_frame obj w1)
    as (r & w2 & Hhit & Hc2 & Hs2 & Hn2 & Hr2 & Hcl2 & Hm2 & Hres).
  rewrite Hhit.
  assert (Hdv : deref obj w1 = v) by (unfold deref; now rewrite Hh).
  rewrite Hdv in Hres.
  destruct r as [resp|e]; [destruct Hres; congruence|].
  destruct Hres as (_ & Hheap & _).
  assert (Hu2 : cache_untouched w (set_log (log w2 ++ [Log ERROR (lit "Error")]) w2)).
  { apply (cache_untouched_trans w w1); [exact Hu|].
    apply (cache_untouched_trans w1 w2); [|untouched].
    repeat split; try assumption. exists []. now rewrite app_nil_r. }
  eexists _, _. split; [reflexivity|]. split; [reflexivity|].
  split; [now eexists|]. cbn [calls service set_log].
  split; [congruence|]. split; [congruence|]. split; [exact Hu2|].
  intros Hloc. destruct Hst as [(_ & o & Hl & Ho)|[Hsh _]]; [|congruence].
  left. destruct Hu2 as (_ & _ & Hm & more & Hmore).
  rewrite Hm. split; [exact Hloc|]. exists o. split; [exact Hl|].
  rewrite Hmore. rewrite lookup_app_l; [exact Ho|]. now apply lookup_lt_Some in Ho.
Qed.

(** The miss path when every step succeeds, with what the Cache Store
    holds afterwards. *)
Lemma miss_stores (file_bytes : bytes) (jd key : str) (raw v : json) (w : world) :
  strip (text file_bytes) <> [] -> QWEN_API_KEY <> [] ->
  next_reply w = Ok raw -> normalize raw = Ok v ->
  enc_ok key = true ->
  (use_redis (cache_manager w) = true ->
   encodable v = true /\ representable v = true /\ reachable 2 w = true) ->
  exists w',
    miss file_bytes jd key w = (Ok {| body := v; status := 200 |}, w')
    /\ calls w' = calls w ++ [(prompt (text file_bytes) jd, Ok raw)]
    /\ forall d : Z,
         (0 <= d)%Z -> (use_redis (cache_manager w) = true -> (d < 3600)%Z) ->
         stored (elapse d w') key v.
Proof.
  intros Hst Hk Hnr Hn Hek Hsh.
  destruct (miss_unfold PdfReader QWEN_API_KEY prompt_head prompt_mid prompt_tail
              file_bytes jd key w) as (w1 & Hl & Hm).
  rewrite Hm. clear Hm.
  apply logged_frame in Hl as ((Hcl1 & Hr1 & Hm1 & _) & Hc1 & Hs1 & Hn1 & Hh1).
  destruct (strip (text file_bytes)) as [|c t]; [congruence|].
  destruct (call_outcome QWEN_API_KEY prompt_head prompt_mid prompt_tail
              (text file_bytes) jd w1 Hk)
    as (w2 & Hcall & Hc2 & Hs2 & Hcl2 & Hr2 & Hn2 & Hm2 & Hh2).
  assert (Hnr1 : next_reply w1 = Ok raw) by (unfold next_reply in *; now rewrite Hs1).
  rewrite Hnr1 in Hcall, Hc2.
  unfold bind at 1. rewrite Hcall.
  unfold bind at 1. unfold lift at 1. rewrite Hn.
  unfold bind at 1. unfold new at 1.
  set (w3 := set_heap (heap w2 ++ [v]) w2).
  assert (Hd : deref (length (heap w2)) w3 = v)
    by (unfold deref, w3; cbn [heap set_heap]; now rewrite lookup_new).
  assert (Hu3 : use_redis (cache_manager w3) = use_redis (cache_manager w))
    by (unfold w3; cbn [cache_manager set_heap]; now rewrite Hm2, Hm1).
  assert (Hca3 : calls w3 = calls w ++ [(prompt (text file_bytes) jd, Ok raw)])
    by (unfold w3; cbn [calls set_heap]; now rewrite Hc2, Hc1).
  destruct (use_redis (cache_manager w)) eqn:Hu.
  - destruct (Hsh eq_refl) as (Hev & Hrv & Hreach).
    assert (Hreach3 : reachable 2 w3 = true).
    { rewrite <- Hreach. apply reachable_net. unfold w3. cbn [net set_heap]. congruence. }
    destruct (redis_setex_success key (Json.dumps v) 3600 1 w3)
      as (w0 & Hs0 & Hn0 & Hset); auto using enc_ok_dumps; [lia|].
    destruct Hs0 as (Hcl0 & Hr0 & Hm0 & Hh0 & _ & _ & Hca0).
    unfold bind. unfold set. rewrite Hu3. unfold try_except. rewrite Hd, Hset.
    unfold jsonify, deref. cbn [heap set_redis]. rewrite Hh0.
    unfold w3 at 1. cbn [heap set_heap]. rewrite lookup_new.
    eexists. split; [reflexivity|]. cbn [calls set_redis].
    split; [now rewrite Hca0|].
    intros d Hd0 Hd1. specialize (Hd1 eq_refl).
    right. cbn [cache_manager set_redis elapse]. rewrite Hm0.
    split; [exact Hu3|]. split; [exact Hn0|].
    exists (Json.dumps v). split.
    { unfold shared_value. cbn [redis clock set_redis elapse]. rewrite lookup_insert_eq.
      unfold live. cbn [fst snd]. rewrite Hcl0.
      destruct (Z.ltb_spec (clock w3 + d) (clock w3 + 3600)); [reflexivity|lia]. }
    split; [now apply dumps_nonempty|now apply loads_dumps].
  - unfold bind. unfold set. rewrite Hu3.
    unfold jsonify, deref. cbn [heap set_cache_manager].
    unfold w3 at 1. cbn [heap set_heap]. rewrite lookup_new.
    eexists. split; [reflexivity|]. cbn [calls set_cache_manager].
    split; [exact Hca3|].
    intros d _ _.
    left. cbn [cache_manager set_cache_manager use_redis local_cache heap elapse].
    split; [reflexivity|]. exists (length (heap w2)).
    split; [apply lookup_insert_eq|]. unfold w3. cbn [heap set_heap]. apply lookup_new.
Qed.

(** A lookup of a key nothing is stored under, the command reaching the
    server when the backend is the shared one. *)
Lemma lookup_absent_reach (key : str) (n : nat) (w : world) :
  absent w key -> enc_ok key = true ->
  (use_redis (cache_manager w) = true -> reachable (S n) w = true) ->
  exists w1,
    get key w = (Ok None, w1) /\ same_but_net w w1
    /\ (use_redis (cache_manager w) = true -> reachable n w1 = true).
Proof.
  unfold absent. intros Ha Hek Hr.
  destruct (use_redis (cache_manager w)) eqn:Hu.
  - destruct (redis_get_success key n w Hek (Hr eq_refl)) as (w0 & Hs & Hn & Hget).
    rewrite Ha in Hget. exists w0. split; [|split; [exact Hs|now intros _]].
    unfold get. rewrite Hu. unfold try_except, bind. now rewrite Hget.
  - exists w. rewrite get_local, Ha by exact Hu.
    split; [reflexivity|]. split; [apply same_but_net_refl|discriminate].
Qed.

(** X17: the first request for a document and a job description calls the
    remote service, returns the result and stores it; the second,
    identical one is answered from the Cache Store without a call: on the
    local backend whenever it comes, on the shared one when it comes less
    than 3600 seconds after the first. When the result is a dict the
    second reply is the result with [_is_cached] set; when it is any other
    truthy value the second reply is a 500 error. On the shared backend
    this needs the three commands to reach the server and a result the
    stored text can carry. *)
Theorem second_request_served_from_cache (req : request) (file_bytes : bytes)
    (key : str) (raw v : json) (dt : Z) (w : world) :
  req_file req = Some file_bytes -> file_bytes <> [] ->
  generate_key file_bytes (jd_of req) = Ok key ->
  absent w key ->
  strip (text file_bytes) <> [] -> QWEN_API_KEY <> [] ->
  next_reply w = Ok raw -> normalize raw = Ok v -> truthy v = true ->
  (0 <= dt)%Z ->
  (use_redis (cache_manager w) = true ->
   (dt < 3600)%Z
   /\ encodable v = true /\ representable v = true /\ reachable 3 w = true) ->
  exists w1 resp2 w2,
    run req w = (Ok {| body := v; status := 200 |}, w1)
    /\ calls w1 = calls w ++ [(prompt (text file_bytes) (jd_of req), Ok raw)]
    /\ run req (elapse dt w1) = (Ok resp2, w2)
    /\ calls w2 = calls w1
    /\ match v with
       | JDict d =>
           resp2 = {| body := JDict (dict_set (lit "_is_cached") (JBool true) d);
                      status := 200 |}
       | _ => status resp2 = 500%Z /\ is_error resp2
       end.
Proof.
  intros Hf Hne Hk Ha Hst Hcred Hnr Hn Ht Hd Hsh.
  pose proof (generate_key_enc_ok _ _ _ Hk) as Hek.
  destruct (lookup_absent_reach key 2 (started req w) Ha Hek)
    as (w0 & Hg & Hs0 & Hreach0).
  { intros Hu. now destruct (Hsh Hu) as (_ & _ & _ & H). }
  destruct Hs0 as (Hcl0 & Hr0 & Hm0 & Hh0 & _ & Hsv0 & Hca0).
  destruct (miss_stores file_bytes (jd_of req) key raw v w0 Hst Hcred)
    as (w1 & Hmiss & Hc1 & Hstored); try assumption.
  { unfold next_reply in *. now rewrite Hsv0. }
  { rewrite Hm0. intros Hu. destruct (Hsh Hu) as (_ & He & Hrp & _).
    split; [exact He|]. split; [exact Hrp|]. now apply Hreach0. }
  specialize (Hstored dt Hd).
  assert (Hst1 : stored (elapse dt w1) key v).
  { apply Hstored. rewrite Hm0. intros Hu. now destruct (Hsh Hu). }
  clear Hstored.
  exists w1.
  assert (Hrun1 : run req w = (Ok {| body := v; status := 200 |}, w1)).
  { rewrite (run_lookup PdfReader QWEN_API_KEY prompt_head prompt_mid prompt_tail
               req file_bytes key w Hf Hne Hk).
    unfold try_except, bind. now rewrite Hg, Hmiss. }
  destruct (run_stored req file_bytes key v (elapse dt w1) Hf Hne Hk Hst1 Ht)
    as (obj & w1' & Hrun2 & Hh & _ & Hc1' & _).
  change (calls (elapse dt w1)) with (calls w1) in Hc1'.
  assert (Hdv : deref obj w1' = v) by (unfold deref; now rewrite Hh).
  destruct (hit_frame obj w1') as (r & w2 & Hhit & Hc2 & _ & _ & _ & _ & _ & Hres).
  rewrite Hdv in Hres.
  assert (Hfail : is_dict v = false ->
    exists resp2 w2',
      run req (elapse dt w1) = (Ok resp2, w2') /\ calls w2' = calls w1
      /\ status resp2 = 500%Z /\ is_error resp2).
  { intros Hnd. destruct r as [resp|e]; [destruct Hres; congruence|].
    eexists _, _. split; [rewrite Hrun2; unfold try_except; rewrite Hhit; reflexivity|].
    cbn [calls set_log]. split; [congruence|]. split; [reflexivity|now eexists]. }
  destruct v as [| | | | | |dv];
    try (destruct (Hfail eq_refl) as (resp2 & w2' & H1 & H2 & H3 & H4);
         exists resp2, w2'; split; [exact Hrun1|]; split; [now rewrite Hc1, Hca0|];
         split; [exact H1|]; split; [exact H2|]; now split).
  destruct (analyze_hit_dict obj dv w1' Hh) as (w2' & Hhit' & _ & _ & _ & _ & Hc2').
  eexists _, w2'. split; [exact Hrun1|]. split; [now rewrite Hc1, Hca0|].
  split; [rewrite Hrun2; unfold try_except; rewrite Hhit'; reflexivity|].
  split; [congruence|reflexivity].
Qed.

End Entries.

Lemma non_dict_entry_is_500_witness :
  exists resp w',
    sample_run sample_request (local_world_with (JList [JInt 1]) []) = (Ok resp, w')
    /\ status resp = 500%Z /\ is_error resp
    /\ calls w' = calls (local_world_with (JList [JInt 1]) [])
    /\ service w' = service (local_world_with (JList [JInt 1]) [])
    /\ cache_untouched (local_world_with (JList [JInt 1]) []) w'
    /\ (use_redis (cache_manager (local_world_with (JList [JInt 1]) [])) = false ->
        stored w' sample_key (JList [JInt 1])).
Proof.
  apply (non_dict_entry_is_500 sample_reader (lit "sk-test")
           (lit "Compare. JD: ") (lit " Resume: ") (lit " Answer in JSON.")
           sample_request (ascii_bytes "%PDF-1.4") sample_key (JList [JInt 1])
           (local_world_with (JList [JInt 1]) [])).
  - reflexivity.
  - vm_compute. discriminate.
  - vm_compute. reflexivity.
  - left. split; [reflexivity|]. exists 0%nat. split; vm_compute; reflexivity.
  - reflexivity.
  - reflexivity.
Defined.

Lemma second_request_served_from_cache_witness :
  exists w1 resp2 w2,
    sample_run sample_request (service_world true [Ok (JStr fenced_output)])
    = (Ok {| body := sample_result; status := 200 |}, w1)
    /\ calls w1
       = calls (service_world true [Ok (JStr fenced_output)])
         ++ [(build_prompt (lit "Compare. JD: ") (lit " Resume: ")
                (lit " Answer in JSON.")
                (extracted sample_reader (ascii_bytes "%PDF-1.4"))
                (jd_of sample_request), Ok (JStr fenced_output))]
    /\ sample_run sample_request (elapse 3599 w1) = (Ok resp2, w2)
    /\ calls w2 = calls w1
    /\ resp2 = {| body := JDict (dict_set (lit "_is_cached") (JBool true)
                                   [(lit "a", JInt 1)]);
                  status := 200 |}.
Proof.
  apply (second_request_served_from_cache sample_reader (lit "sk-test")
           (lit "Compare. JD: ") (lit " Resume: ") (lit " Answer in JSON.")
           sample_request (ascii_bytes "%PDF-1.4") sample_key
           (JStr fenced_output) sample_result 3599
           (service_world true [Ok (JStr fenced_output)])).
  - reflexivity.
  - vm_compute. discriminate.
  - vm_compute. reflexivity.
  - vm_compute. reflexivity.
  - vm_compute. discriminate.
  - vm_compute. discriminate.
  - reflexivity.
  - vm_compute. reflexivity.
  - reflexivity.
  - lia.
  - intros _. split; [lia|]. split; [|split]; vm_compute; reflexivity.
Defined.

(** ** Hits on the shared backend *)

Section SharedHits.

Variable PdfReader : bytes -> outcome (list (outcome (option str))).
Variable QWEN_API_KEY : str.
Variables prompt_head prompt_mid prompt_tail : str.

Local Abbreviation run :=
  (analyze PdfReader QWEN_API_KEY prompt_head prompt_mid prompt_tail).

(** X18: on the shared backend a hit reads the entry and leaves it alone:
    the reply is the stored dict with [_is_cached] set, the flag goes into
    a fresh object, and the stored text, the local mapping and every object
    that existed are what they were. No remote call is made. *)
Theorem shared_hit_keeps_entry (req : request) (file_bytes : bytes) (key : str)
    (d : list (str * json)) (w : world) :
  req_file req = Some file_bytes -> file_bytes <> [] ->
  generate_key file_bytes (jd_of req) = Ok key ->
  use_redis (cache_manager w) = true ->
  stored w key (JDict d) -> d <> [] ->
  exists w',
    run req w
    = (Ok {| body := JDict (dict_set (lit "_is_cached") (JBool true) d);
             status := 200 |}, w')
    /\ cache_untouched w w'
    /\ shared_value w' key = shared_value w key
    /\ calls w' = calls w.
Proof.
  intros Hf Hne Hk Hu Hst Hd.
  destruct Hst as [[Hl _]|(_ & Hr & t & Hsv & Ht & Hld)]; [congruence|].
  destruct (hit_shared PdfReader QWEN_API_KEY prompt_head prompt_mid prompt_tail
              req file_bytes key t d w Hf Hne Hk Hu Hr Hsv Ht Hld Hd)
    as (w' & Hrun & Hun & Hsv').
  exists w'. split; [exact Hrun|]. split; [exact Hun|].
  split; [congruence|].
  destruct (run_stored PdfReader QWEN_API_KEY prompt_head prompt_mid prompt_tail
              req file_bytes key (JDict d) w Hf Hne Hk)
    as (obj & w1 & Hrun1 & Hh & _ & Hc1 & _).
  { right. split; [exact Hu|]. split; [exact Hr|]. now exists t. }
  { now destruct d. }
  destruct (analyze_hit_dict obj d w1 Hh) as (w2 & Hhit & _ & _ & _ & _ & Hc2).
  rewrite Hrun1 in Hrun. unfold try_except in Hrun. rewrite Hhit in Hrun.
  injection Hrun as <-. congruence.
Qed.

End SharedHits.

Lemma shared_hit_keeps_entry_witness :
  exists w',
    sample_run sample_request
      (snd (sample_run sample_request (service_world true [Ok (JStr fenced_output)])))
    = (Ok {| body := JDict (dict_set (lit "_is_cached") (JBool true) [(lit "a", JInt 1)]);
             status := 200 |}, w')
    /\ cache_untouched
         (snd (sample_run sample_request (service_world true [Ok (JStr fenced_output)])))
         w'
    /\ shared_value w' sample_key
       = shared_value
           (snd (sample_run sample_request (service_world true [Ok (JStr fenced_output)])))
           sample_key
    /\ calls w'
       = calls (snd (sample_run sample_request
                       (service_world true [Ok (JStr fenced_output)]))).
Proof.
  apply (shared_hit_keeps_entry sample_reader (lit "sk-test")
           (lit "Compare. JD: ") (lit " Resume: ") (lit " Answer in JSON.")
           sample_request (ascii_bytes "%PDF-1.4") sample_key [(lit "a", JInt 1)]
           (snd (sample_run sample_request
                   (service_world true [Ok (JStr fenced_output)])))).
  - reflexivity.
  - vm_compute. discriminate.
  - vm_compute. reflexivity.
  - vm_compute. reflexivity.
  - right. split; [vm_compute; reflexivity|]. split; [vm_compute; reflexivity|].
    exists (Json.dumps sample_result).
    split; [vm_compute; reflexivity|]. split; [vm_compute; discriminate|].
    vm_compute. reflexivity.
  - discriminate.
Defined.
